(** * The AGU-2020 tutorial helper functions, embedded and verified

    Source: [Part-II/04_melt_pond/tutorial_helper_functions.py].

    The module is glue around remote services (CMR, the NSIDC order API,
    Harmony) and the local file system.  The embedding keeps the control flow
    of every function and makes its environment explicit:

    - the remote services are an oracle [net] answering the n-th request;
    - everything the functions print, every pause and every request is
      recorded, in order, in a [trace];
    - the file system is a finite map from absolute paths to nodes;
    - the caller's dictionaries live in a [heap] and are passed by reference;
    - Python exceptions are a result of their own ([Raise]), and a loop that
      is still running when the observation budget is used up is [Running]. *)

From Stdlib Require Import ZArith String Ascii List.
From stdpp Require Import base option list gmap strings.

#[local] Set Warnings "-register-all".
Local Open Scope string_scope.
Local Open Scope Z_scope.
Local Open Scope list_scope.

(** ** Python values *)

(** Values as [json.loads] builds them, which are also the values stored in
    the search-parameter dictionaries.  Numbers are integers (the only
    number the code computes with is the integer percentage [progress]). *)
Inductive pyval :=
  | VNone
  | VBool (b : bool)
  | VInt (n : Z)
  | VStr (s : string)
  | VList (xs : list pyval)
  | VDict (kvs : list (string * pyval)).

(** Exceptions, by class.  [OSError] carries the reason; [shutil.Error]
    (here [EDestExists]) is one of its subclasses. *)
Inductive os_reason := ENOENT | EEXIST | ENOTEMPTY | ENOTDIR | EISDIR | EDestExists.

Inductive exn :=
  | IndexError
  | KeyError (k : string)
  | TypeError
  | AttributeError
  | ValueError
  | NameError (name : string)
  | UnboundLocalError (name : string)
  | TransportError                  (* URLError, requests.ConnectionError, ... *)
  | HTTPStatusError (code : Z)      (* urllib.error.HTTPError, requests.HTTPError *)
  | ParseError                      (* ET.fromstring *)
  | JSONDecodeError                 (* json.loads *)
  | BadZipFile                      (* zipfile.ZipFile *)
  | OSError (r : os_reason).

Definition is_OSError (e : exn) : bool :=
  match e with OSError _ => true | _ => false end.

(** ** Strings and lists *)

Definition dquote : string := String (ascii_of_nat 34) EmptyString.

(** [s.split(sep)] for a one-character separator. *)
Fixpoint split_on (sep : ascii) (s : string) : list string :=
  match s with
  | EmptyString => [EmptyString]
  | String a s' =>
      if Ascii.eqb a sep then EmptyString :: split_on sep s'
      else match split_on sep s' with
           | x :: r => String a x :: r
           | [] => [String a EmptyString]
           end
  end.

Definition comma : ascii := ascii_of_nat 44.
Definition slash : ascii := ascii_of_nat 47.

(** [xs[i]] for [i >= 0], and [xs[-1]]. *)
Definition index {A} (xs : list A) (i : nat) : exn + A :=
  match xs !! i with Some x => inr x | None => inl IndexError end.

Definition index_last {A} (xs : list A) : exn + A :=
  match last xs with Some x => inr x | None => inl IndexError end.

(** [d[k]] on a value: a dictionary is searched, a list or a string indexed by
    a string is a [TypeError], as is anything that cannot be subscripted. *)
Fixpoint assoc (k : string) (kvs : list (string * pyval)) : option pyval :=
  match kvs with
  | [] => None
  | (k', v) :: r => if String.eqb k k' then Some v else assoc k r
  end.

Definition subscript (v : pyval) (k : string) : exn + pyval :=
  match v with
  | VDict kvs => match assoc k kvs with Some x => inr x | None => inl (KeyError k) end
  | _ => inl TypeError
  end.

(** [v[0]] on a value. *)
Definition subscript0 (v : pyval) : exn + pyval :=
  match v with
  | VList xs => index xs 0
  | VDict _ => inl (KeyError "0")
  | VStr s => match s with String a _ => inr (VStr (String a EmptyString)) | _ => inl IndexError end
  | _ => inl TypeError
  end.

(** [k in v]: a key of a dictionary, an element of a list, a substring of a
    string. *)
Fixpoint contains (k s : string) : bool :=
  if String.prefix k s then true
  else match s with
       | EmptyString => false
       | String _ r => contains k r
       end.

Definition py_in (k : string) (v : pyval) : exn + bool :=
  match v with
  | VDict kvs => inr (bool_decide (is_Some (assoc k kvs)))
  | VList xs => inr (existsb (fun x => match x with VStr s => String.eqb s k | _ => false end) xs)
  | VStr s => inr (contains k s)
  | _ => inl TypeError
  end.

(** [v == s] for a string literal [s]; never raises. *)
Definition eq_str (v : pyval) (s : string) : bool :=
  match v with VStr t => String.eqb t s | _ => false end.

(** [v == n] and [v < n] for an integer literal [n]. *)
Definition eq_int (v : pyval) (n : Z) : bool :=
  match v with
  | VInt m => m =? n
  | VBool b => (if b then 1 else 0) =? n
  | _ => false
  end.

Definition lt_int (v : pyval) (n : Z) : exn + bool :=
  match v with
  | VInt m => inr (m <? n)
  | VBool b => inr ((if b then 1 else 0) <? n)
  | _ => inl TypeError
  end.

(** [v.split(sep)]: only strings have the method. *)
Definition py_split (v : pyval) (sep : ascii) : exn + list string :=
  match v with VStr s => inr (split_on sep s) | _ => inl AttributeError end.

(** ** XML elements, as [ET.fromstring] builds them *)

Inductive element := Elem (tag : string) (text : option string) (children : list element).

Definition elem_tag (e : element) : string := let 'Elem t _ _ := e in t.
Definition elem_text (e : element) : option string := let 'Elem _ t _ := e in t.
Definition elem_children (e : element) : list element := let 'Elem _ _ c := e in c.

(** [root.findall("./tag/")].  ElementPath completes a path that ends in a
    slash with a star, so the result is every child element of every child of
    [root] named [tag], in document order. *)
Definition findall_children_of (root : element) (tag : string) : list element :=
  flat_map elem_children
    (List.filter (fun e => String.eqb (elem_tag e) tag) (elem_children root)).

(** ** The environment *)

Abbreviation path := (list string).
Abbreviation loc := nat.

(** A body of bytes, by what its decoders make of it. *)
Record zip_member := ZipMember {
  zm_name : path;            (* the member's path inside the archive *)
  zm_data : option string;   (* [None] for a directory entry *)
}.

Inductive payload :=
  | PXml (root : element)
  | PJson (v : pyval)
  | PZip (members : list zip_member)
  | PRaw (s : string).

Record response := Response {
  status_code : Z;
  headers : list (string * string);
  content : payload;
}.

Inductive reply := Fail (e : exn) | Resp (r : response).

Inductive request :=
  | Urlopen (url : string)
  | Get (url : string) (params : option (gmap string pyval))
  | Post (url : string) (params : list (string * pyval))
         (data : gmap string pyval) (files : option (path * payload)).

Inductive event :=
  | EPrint (args : list pyval)       (* print(a, b, ...) *)
  | EPrintF (pieces : list pyval)    (* print(f"...") with its pieces *)
  | EPPrint (v : pyval)              (* pprint(v) *)
  | ESleep (seconds : Z)             (* time.sleep *)
  | ENet (rq : request).             (* a request sent *)

Inductive node := NFile (data : payload) | NDir.

Record world := World {
  net : nat -> request -> reply;
  calls : nat;
  trace : list event;
  fs : gmap path node;
  cwd : path;
  heap : gmap loc (gmap string pyval);
}.

(** ** A state and exception monad *)

Inductive outcome (S A : Type) :=
  | Ok (a : A) (s : S)
  | Raise (e : exn) (s : S)
  | Running (s : S).
Arguments Ok {S A} a s.
Arguments Raise {S A} e s.
Arguments Running {S A} s.

Definition M (S A : Type) : Type := S -> outcome S A.

Definition ret {S A} (a : A) : M S A := fun s => Ok a s.
Definition raise {S A} (e : exn) : M S A := fun s => Raise e s.
Definition running {S A} : M S A := fun s => Running s.
Definition bind {S A B} (m : M S A) (k : A -> M S B) : M S B :=
  fun s => match m s with
           | Ok a s' => k a s'
           | Raise e s' => Raise e s'
           | Running s' => Running s'
           end.
Definition get {S} : M S S := fun s => Ok s s.
Definition put {S} (s : S) : M S unit := fun _ => Ok tt s.

(** [try: m  except <classes accepted by handles>: h]. *)
Definition try_except {S A} (m : M S A) (handles : exn -> bool) (h : exn -> M S A) : M S A :=
  fun s => match m s with
           | Raise e s' => if handles e then h e s' else Raise e s'
           | r => r
           end.

Definition lift {S A} (r : exn + A) : M S A :=
  match r with inl e => raise e | inr a => ret a end.

Definition state_of {S A} (r : outcome S A) : S :=
  match r with Ok _ s | Raise _ s | Running s => s end.

Declare Scope py_scope.
Delimit Scope py_scope with py.
Notation "'let!' x ':=' c 'in' k" := (bind c (fun x => k))
  (at level 10, x name, c at level 100, k at level 200) : py_scope.
Notation "c ';;!' k" := (bind c (fun _ => k))
  (at level 100, k at level 200, right associativity) : py_scope.
Local Open Scope py_scope.

(** [for x in xs: body x]. *)
Fixpoint for_each {S A} (xs : list A) (body : A -> M S unit) : M S unit :=
  match xs with
  | [] => ret tt
  | x :: r => body x ;;! for_each r body
  end.

(** [[f(x) for x in xs]] where [f] may raise. *)
Fixpoint map_exn {A B} (f : A -> exn + B) (xs : list A) : exn + list B :=
  match xs with
  | [] => inr []
  | x :: r => match f x with
              | inl e => inl e
              | inr y => match map_exn f r with inl e => inl e | inr ys => inr (y :: ys) end
              end
  end.

(** ** The file system *)

(** Paths are lists of segments from the root; [os.path.join(root, name)] is
    [root ++ [name]] and [os.getcwd() + '/Outputs'] is [cwd ++ ["Outputs"]].
    The root itself is a directory. *)
Module Fs.

Abbreviation t := (gmap path node).

Definition is_dir (f : t) (p : path) : bool :=
  match p with
  | [] => true
  | _ => match f !! p with Some NDir => true | _ => false end
  end.

(** [os.path.exists]. *)
Definition path_exists (f : t) (p : path) : bool :=
  match p with
  | [] => true
  | _ => bool_decide (is_Some (f !! p))
  end.

Definition dirname (p : path) : path := removelast p.
Definition basename (p : path) : string := List.last p "".

(** [p = top ++ [name]]: the name of [p] when it lies directly in [top]. *)
Fixpoint child_name (top p : path) : option string :=
  match top, p with
  | [], [n] => Some n
  | a :: top', b :: p' => if String.eqb a b then child_name top' p' else None
  | _, _ => None
  end.

(** The entries of directory [top], with their kind: [os.scandir]. *)
Definition entries (f : t) (top : path) : list (string * node) :=
  omap (fun kv => match child_name top kv.1 with
                  | Some n => Some (n, kv.2)
                  | None => None
                  end) (map_to_list f).

Definition is_NDir (n : node) : bool := match n with NDir => true | _ => false end.

Definition subdirs (ents : list (string * node)) : list string :=
  (List.filter (fun e => is_NDir e.2) ents).*1.
Definition nondirs (ents : list (string * node)) : list string :=
  (List.filter (fun e => negb (is_NDir e.2)) ents).*1.

(** [os.mkdir]. *)
Definition mkdir (p : path) : M t unit :=
  let! f := get in
  if path_exists f p then raise (OSError EEXIST)
  else if path_exists f (dirname p) then
    if is_dir f (dirname p) then put (<[p := NDir]> f) else raise (OSError ENOTDIR)
  else raise (OSError ENOENT).

(** [os.makedirs(p)], given the path in reverse: when the parent is missing
    it is made first, and a [FileExistsError] from making it is passed over;
    then the leaf is made with [os.mkdir]. *)
Definition is_EEXIST (e : exn) : bool :=
match e with OSError EEXIST => true | _ => false end.

Fixpoint makedirs_rev (rp : list string) : M t unit :=
match rp with
| [] => mkdir []
| tail :: rhead =>
    let head := rev rhead in
    let! f := get in
    (if path_exists f head then ret tt
     else try_except (makedirs_rev rhead) is_EEXIST (fun _ => ret tt)) ;;!
    mkdir (head ++ [tail])
end.
Definition makedirs (p : path) : M t unit := makedirs_rev (rev p).

(** [open(p, 'wb')] followed by one [write] and [close]. *)
Definition write_file (p : path) (data : payload) : M t unit :=
let! f := get in
if is_dir f p then raise (OSError EISDIR)
else if path_exists f (dirname p) then
  if is_dir f (dirname p) then put (<[p := NFile data]> f) else raise (OSError ENOTDIR)
else raise (OSError ENOENT).

(** [open(p, 'r')], whole content. *)
Definition read_file (p : path) : M t payload :=
let! f := get in
if is_dir f p then raise (OSError EISDIR)
else match f !! p with
     | Some (NFile d) => ret d
     | _ => raise (OSError ENOENT)
     end.

(** [os.rename] of a regular file (a directory is moved with all it holds). *)
Definition is_under (top p : path) : bool := bool_decide (top `prefix_of` p).

Definition rename_tree (src dst : path) (f : t) : t :=
  map_fold (fun k nd acc =>
              if is_under src k then <[dst ++ drop (length src) k := nd]> acc
              else <[k := nd]> acc) ∅ f.

Definition rename (src dst : path) : M t unit :=
  let! f := get in
  match f !! src with
  | None => raise (OSError ENOENT)
  | Some (NFile d) =>
      if is_dir f dst then raise (OSError EISDIR)
      else if is_dir f (dirname dst) then put (<[dst := NFile d]> (delete src f))
      else raise (OSError ENOENT)
  | Some NDir =>
      if path_exists f dst then raise (OSError ENOTEMPTY)
      else if is_dir f (dirname dst) then put (rename_tree src dst f)
      else raise (OSError ENOENT)
  end.

(** [shutil.move(src, dst)]: into [dst] when that is a directory, refusing an
    existing destination with [shutil.Error]. *)
Definition move (src dst : path) : M t unit :=
  let! f := get in
  if is_dir f dst then
    if bool_decide (src = dst) then rename src dst
    else
      let real_dst := dst ++ [basename src] in
      if path_exists f real_dst then raise (OSError EDestExists)
      else rename src real_dst
  else rename src dst.

(** [os.rmdir]. *)
Definition rmdir (p : path) : M t unit :=
  let! f := get in
  match f !! p with
  | None => raise (OSError ENOENT)
  | Some (NFile _) => raise (OSError ENOTDIR)
  | Some NDir =>
      match entries f p with
      | [] => put (delete p f)
      | _ :: _ => raise (OSError ENOTEMPTY)
      end
  end.

(** [os.walk(top, topdown=False)], handing each directory to [body] after
    its subdirectories.  A directory is listed when the walk reaches it;
    what cannot be listed is skipped.  [fuel] bounds the depth. *)
Fixpoint walk_up (fuel : nat) (top : path)
    (body : path -> list string -> list string -> M t unit) : M t unit :=
  match fuel with
  | O => running
  | S n =>
      let! f := get in
      if is_dir f top then
        let ents := entries f top in
        for_each (subdirs ents) (fun d => walk_up n (top ++ [d]) body) ;;!
        body top (subdirs ents) (nondirs ents)
      else ret tt
  end.

(** Enough fuel for any directory of [f]: its deepest path, and one more. *)
Definition depth (f : t) : nat :=
  map_fold (fun k _ acc => Nat.max (length k) acc) 0%nat f.

Definition walk (top : path)
    (body : path -> list string -> list string -> M t unit) : M t unit :=
  let! f := get in walk_up (S (depth f)) top body.

(** [ZipFile.extractall(dest)]: members in archive order. *)
Definition extract_member (dest : path) (m : zip_member) : M t unit :=
  let target := dest ++ zm_name m in
  let upperdirs := dirname target in
  let! f := get in
  (if path_exists f upperdirs then ret tt else makedirs upperdirs) ;;!
  match zm_data m with
  | None =>
      let! f := get in
      if is_dir f target then ret tt else mkdir target
  | Some d => write_file target (PRaw d)
  end.

Definition extractall (dest : path) (members : list zip_member) : M t unit :=
  for_each members (extract_member dest).

End Fs.

(** A file-system action, run on the world's file system. *)
Definition on_fs {A} (m : M Fs.t A) : M world A :=
  fun w =>
    let upd f := World (net w) (calls w) (trace w) f (cwd w) (heap w) in
    match m (fs w) with
    | Ok a f => Ok a (upd f)
    | Raise e f => Raise e (upd f)
    | Running f => Running (upd f)
    end.

(** ** Effects of the world *)

Definition with_trace (w : world) (t : list event) : world :=
  World (net w) (calls w) t (fs w) (cwd w) (heap w).
Definition with_heap (w : world) (h : gmap loc (gmap string pyval)) : world :=
  World (net w) (calls w) (trace w) (fs w) (cwd w) h.

Definition emit (e : event) : M world unit :=
  fun w => Ok tt (with_trace w (trace w ++ [e])).

Definition print (args : list pyval) : M world unit := emit (EPrint args).
Definition print_f (pieces : list pyval) : M world unit := emit (EPrintF pieces).
Definition pprint (v : pyval) : M world unit := emit (EPPrint v).
Definition sleep (seconds : Z) : M world unit := emit (ESleep seconds).

(** Send a request: it is recorded, and the services answer it. *)
Definition send (rq : request) : M world reply :=
  fun w => Ok (net w (calls w) rq)
              (World (net w) (S (calls w)) (trace w ++ [ENet rq]) (fs w) (cwd w) (heap w)).

Definition ok2xx (r : response) : bool :=
  (200 <=? status_code r) && (status_code r <? 300).

(** [urllib.request.urlopen]: a transport failure or a status outside 2xx
    raises. *)
Definition urlopen (url : string) : M world response :=
  let! r := send (Urlopen url) in
  match r with
  | Fail e => raise e
  | Resp r =>
      if ok2xx r then ret r else raise (HTTPStatusError (status_code r))
  end.

(** [requests.get] and [requests.post]: only a transport failure raises. *)
Definition requests_send (rq : request) : M world response :=
  let! r := send rq in
  match r with Fail e => raise e | Resp r => ret r end.

(** [response.raise_for_status()]. *)
Definition raise_for_status (r : response) : M world unit :=
  if (400 <=? status_code r) && (status_code r <? 600)
  then raise (HTTPStatusError (status_code r)) else ret tt.

Definition ET_fromstring (b : payload) : exn + element :=
  match b with PXml root => inr root | _ => inl ParseError end.
Definition json_loads (b : payload) : exn + pyval :=
  match b with PJson v => inr v | _ => inl JSONDecodeError end.
Definition ZipFile (b : payload) : exn + list zip_member :=
  match b with PZip ms => inr ms | _ => inl BadZipFile end.

(** The caller's dictionary, reached through its reference. *)
Definition getdict (d : loc) : M world (gmap string pyval) :=
  fun w => match heap w !! d with
           | Some m => Ok m w
           | None => Raise TypeError w
           end.

Definition setitem (d : loc) (k : string) (v : pyval) : M world unit :=
  fun w => match heap w !! d with
           | Some m => Ok tt (with_heap w (<[d := <[k := v]> m]> (heap w)))
           | None => Raise TypeError w
           end.

Definition getitem (d : loc) (k : string) : M world pyval :=
  let! m := getdict d in
  match m !! k with Some v => ret v | None => raise (KeyError k) end.

(** The values a [for] loop or [list.extend] draws from a value. *)
Fixpoint chars (s : string) : list pyval :=
  match s with
  | EmptyString => []
  | String a r => VStr (String a EmptyString) :: chars r
  end.

Definition iter_values (v : pyval) : exn + list pyval :=
  match v with
  | VList xs => inr xs
  | VDict kvs => inr (map (fun kv => VStr kv.1) kvs)
  | VStr s => inr (chars s)
  | _ => inl TypeError
  end.

Definition of_text (t : option string) : pyval :=
  match t with Some s => VStr s | None => VNone end.

(** Names bound at module level: the imports, [TOKEN_DATA] and the
    functions.  Any other global name is a [NameError] when it is read. *)
Definition module_names : list string :=
  ["netrc"; "system"; "getpass"; "request"; "CookieJar"; "join"; "expanduser";
   "requests"; "pprint"; "json"; "os"; "ET"; "shutil"; "time"; "zipfile"; "io";
   "h5py"; "Path"; "pd"; "np"; "TOKEN_DATA";
   "setup_cmr_token_auth"; "setup_earthdata_login_auth"; "search_granules";
   "search_services"; "request_nsidc_data"; "request_harmony_data";
   "load_icesat2_as_dataframe"].

Definition load_global (name : string) : M world unit :=
  if existsb (String.eqb name) module_names then ret tt else raise (NameError name).

Definition is_HTTPError (e : exn) : bool :=
  match e with HTTPStatusError _ => true | _ => false end.

(** The text an exception shows when formatted. *)
Definition exn_text (e : exn) : pyval :=
  match e with
  | KeyError k | NameError k | UnboundLocalError k => VStr k
  | HTTPStatusError c => VInt c
  | _ => VNone
  end.

(** The two [except] clauses shared by the CMR searches:
<<
    except HTTPError as http_err:
        print(f"HTTP Error: {http_error}")
    except Exception as err:
        print(f"Error: {err}")
>>
    The class named by a clause is looked up when an exception reaches it. *)
Definition cmr_except (e : exn) : M world unit :=
  load_global "HTTPError" ;;!
  if is_HTTPError e then
    load_global "http_error" ;;! print_f [VStr "HTTP Error: "; exn_text e]
  else
    print_f [VStr "Error: "; exn_text e].

(** [response.headers[name]]: the names of headers are compared without
    regard to case. *)
Definition lower_ascii (a : ascii) : ascii :=
  let n := nat_of_ascii a in
  if Nat.leb 65 n && Nat.leb n 90 then ascii_of_nat (n + 32) else a.

Fixpoint lower (s : string) : string :=
  match s with
  | EmptyString => EmptyString
  | String a r => String (lower_ascii a) (lower r)
  end.

Definition header (r : response) (name : string) : exn + string :=
  match List.find (fun kv => String.eqb (lower kv.1) (lower name)) (headers r) with
  | Some kv => inr kv.2
  | None => inl (KeyError name)
  end.

Definition local {A} (name : string) (v : option A) : M world A :=
  match v with Some a => ret a | None => raise (UnboundLocalError name) end.

(** ** The functions of the module *)

Section Client.

(** Library functions whose results the module only passes on. *)
Variable py_str : pyval -> string.            (* str(v), as format applies it *)
Variable py_int : string -> exn + Z.          (* int(s) *)
Variable Float : Type.
Variable py_float : pyval -> exn + Float.     (* float(v) *)
Variable fmt_sum_2f : list Float -> string.   (* f"{sum(xs):.2f}" *)

(** [search_granules(search_parameters, token, geojson, output_format)].
    The [try] block holds two statements; [response] keeps its binding when
    the second one raises. *)
Definition search_granules (search_parameters : loc) (token : pyval)
    (geojson : option path) (output_format : string) : M world pyval :=
  let search_url := "https://cmr.earthdata.nasa.gov/search/granules" in
  (* add token to search parameters *)
  setitem search_parameters "token" token ;;!
  let! files :=
    match geojson with
    | Some g => let! fh := on_fs (Fs.read_file g) in ret (Some (g, fh))
    | None => ret None
    end in
  let parameters := [("scroll", VStr "true"); ("page_size", VInt 100)] in
  let! response :=
    try_except
      (let! data := getdict search_parameters in
       let! r := requests_send
                   (Post (search_url +:+ "." +:+ output_format) parameters data files) in
       ret (Some r))
      (fun _ => true) (fun e => cmr_except e ;;! ret None) in
  match response with
  | Some r => try_except (raise_for_status r) (fun _ => true) cmr_except
  | None => ret tt
  end ;;!
  let! response := local "response" response in
  let! h := lift (header response "CMR-Hits") in
  let! hits := lift (py_int h) in
  if 0 <? hits then
    print_f [VStr "Found "; VInt hits; VStr " files"] ;;!
    let! results := lift (json_loads (content response)) in
    let! feed := lift (subscript results "feed") in
    let! entry := lift (subscript feed "entry") in
    let! granules := lift (iter_values entry) in
    let! granule_sizes :=
      lift (map_exn (fun granule =>
                       match subscript granule "granule_size" with
                       | inl e => inl e
                       | inr v => py_float v
                       end) granules) in
    print_f [VStr "The total size of all files is ";
             VStr (fmt_sum_2f granule_sizes); VStr " MB"] ;;!
    lift (json_loads (content response))
  else
    print [VStr "Found no hits"] ;;! ret VNone.

(** [services[i]] for [i] in [range(len(services))]. *)
Definition indexed_items (v : pyval) : exn + list (exn + pyval) :=
  match v with
  | VList xs => inr (map inr xs)
  | VStr s => inr (map inr (chars s))
  | VDict kvs => inr (imap (fun i _ => inl (KeyError (py_str (VInt (Z.of_nat i))))) kvs)
  | _ => inl TypeError
  end.

(** [search_services(search_parameters, token, output_format)]. *)
Definition search_services (search_parameters : loc) (token : pyval)
    (output_format : string) : M world pyval :=
  let collection_url := "https://cmr.earthdata.nasa.gov/search/collections" in
  (* add token to search parameters *)
  setitem search_parameters "token" token ;;!
  let parameters := [("scroll", VStr "true"); ("page_size", VInt 100)] in
  let! response :=
    try_except
      (let! data := getdict search_parameters in
       let! r := requests_send
                   (Post (collection_url +:+ "." +:+ output_format) parameters data None) in
       ret (Some r))
      (fun _ => true) (fun e => cmr_except e ;;! ret None) in
  match response with
  | Some r => try_except (raise_for_status r) (fun _ => true) cmr_except
  | None => ret tt
  end ;;!
  let! response := local "response" response in
  let! h := lift (header response "CMR-Hits") in
  let! hits := lift (py_int h) in
  if 0 <? hits then
    let! response := lift (json_loads (content response)) in
    let! feed := lift (subscript response "feed") in
    let! entry := lift (subscript feed "entry") in
    let! entry0 := lift (subscript0 entry) in
    let! associations := lift (subscript entry0 "associations") in
    let! has_services := lift (py_in "services" associations) in
    (if has_services then
       let! services := lift (subscript associations "services") in
       let output_format := "umm_json" in
       let service_url := "https://cmr.earthdata.nasa.gov/search/services" in
       let! items := lift (indexed_items services) in
       for_each items (fun item =>
         let! service := lift item in
         let! response :=
           requests_send (Get (service_url +:+ "." +:+ output_format
                                 +:+ "?concept-id=" +:+ py_str service) None) in
         let! response := lift (json_loads (content response)) in
         let! items := lift (subscript response "items") in
         let! item0 := lift (subscript0 items) in
         let! umm := lift (subscript item0 "umm") in
         let! has_options := lift (py_in "ServiceOptions" umm) in
         if has_options then
           let! response_items := lift (subscript response "items") in
           let! response_item0 := lift (subscript0 response_items) in
           let! response_umm := lift (subscript response_item0 "umm") in
           let! options := lift (subscript response_umm "ServiceOptions") in
           pprint options
         else ret tt)
     else
       print [VStr "Found no services"]) ;;!
    ret VNone
  else
    print [VStr "Found no hits"] ;;! ret VNone.

(** *** NSIDC *)

Definition in_progress (status : option string) : bool :=
  match status with
  | Some s => String.eqb s "pending" || String.eqb s "processing"
  | None => false
  end.

Definition status_is (status : option string) (s : string) : bool :=
  match status with Some t => String.eqb t s | None => false end.

(** The [while] loop of [request_nsidc_data].  The locals it assigns,
    [status] and [loop_root], are its result; [loop_root] has no binding
    until the body has run.  [fuel] counts the iterations observed. *)
Fixpoint nsidc_poll (fuel : nat) (statusURL : string)
    (status : option string) (loop_root : option element)
    : M world (option string * option element) :=
  if in_progress status then
    match fuel with
    | O => running
    | S n =>
        print [VStr "Job status is "; of_text status; VStr ". Trying again."] ;;!
        sleep 10 ;;!
        let! loop_response := urlopen statusURL in
        let! loop_root := lift (ET_fromstring (content loop_response)) in
        (* find status *)
        let statuslist := map elem_text (findall_children_of loop_root "requestStatus") in
        let! status := lift (index statuslist 0) in
        (* if status == 'pending' or status == 'processing': continue *)
        nsidc_poll n statusURL status (Some loop_root)
    end
  else ret (status, loop_root).

(** The body of the clean-up walk:
<<
  for file in files:
      try: shutil.move(os.path.join(root, file), path)
      except OSError: pass
  for name in dirs:
      os.rmdir(os.path.join(root, name))
>> *)
Definition flatten_step (path root : path) (dirs files : list string) : M Fs.t unit :=
  for_each files (fun file =>
    try_except (Fs.move (root ++ [file]) path) is_OSError (fun _ => ret tt)) ;;!
  for_each dirs (fun name => Fs.rmdir (root ++ [name])).

Definition flatten (path : path) : M Fs.t unit :=
  Fs.walk path (flatten_step path).

(** The block that reports the errors of an order:
<<
  if status == 'complete_with_errors' or status == 'failed':
      messagelist = []
      for message in loop_root.findall("./processInfo/"):
          messagelist.append(message.text)
      ...
>>
    [loop_root] is the local the loop assigns. *)
Definition nsidc_report_errors (status : option string) (loop_root : option element)
    : M world unit :=
  if status_is status "complete_with_errors" || status_is status "failed" then
    let! loop_root := local "loop_root" loop_root in
    let messagelist := map elem_text (findall_children_of loop_root "processInfo") in
    print [VStr "Job status is "; of_text status] ;;!
    print [VStr "error messages:"] ;;!
    pprint (VList (map of_text messagelist))
  else ret tt.

(** The block that downloads the zipped order:
<<
  if status == 'complete' or status == 'complete_with_errors':
      downloadURL = 'https://n5eil02u.ecs.nsidc.org/esir/' + orderID + '.zip'
      ...
  else: print('Request failed.')
>> *)
Definition nsidc_download (path : path) (orderID : string) (status : option string)
    : M world unit :=
  if status_is status "complete" || status_is status "complete_with_errors" then
    let downloadURL := "https://n5eil02u.ecs.nsidc.org/esir/" +:+ orderID +:+ ".zip" in
    print [VStr "Job status is "; of_text status] ;;!
    print [VStr "Zip download URL: "; VStr downloadURL] ;;!
    print [VStr "Beginning download of zipped output..."] ;;!
    let! zip_response := urlopen downloadURL in
    let! z := lift (ZipFile (content zip_response)) in
    on_fs (Fs.extractall path z) ;;!
    print [VStr "Download is complete."]
  else print [VStr "Request failed."].

(** The output folder of the NSIDC client, [os.getcwd() + '/Outputs']. *)
Definition outputs_dir (w : world) : path := cwd w ++ ["Outputs"].

(** [request_nsidc_data(API_request)]. *)
Definition request_nsidc_data (fuel : nat) (API_request : string) : M world unit :=
  (* Create an output folder if the folder does not already exist. *)
  let! w := get in
  let path := outputs_dir w in
  (if Fs.path_exists (fs w) path then ret tt else on_fs (Fs.mkdir path)) ;;!
  let base_url := "https://n5eil02u.ecs.nsidc.org/egi/request" in
  let! r := urlopen API_request in
  let! esir_root := lift (ET_fromstring (content r)) in
  (* Look up order ID *)
  let orderlist := map elem_text (findall_children_of esir_root "order") in
  let! orderID := lift (index orderlist 0) in
  (* Create status URL; a missing text cannot be concatenated *)
  let! orderID := match orderID with Some s => ret s | None => raise TypeError end in
  let statusURL := base_url +:+ "/" +:+ orderID in
  print [VStr "Order status URL: "; VStr statusURL] ;;!
  (* Find order status *)
  let! request_response := urlopen statusURL in
  let! request_root := lift (ET_fromstring (content request_response)) in
  let statuslist := map elem_text (findall_children_of request_root "requestStatus") in
  let! status := lift (index statuslist 0) in
  (* Continue loop while request is still processing *)
  let! polled := nsidc_poll fuel statusURL status None in
  let status := polled.1 in
  let loop_root := polled.2 in
  nsidc_report_errors status loop_root ;;!
  nsidc_download path orderID status ;;!
  (* Clean up Outputs folder by removing individual granule folders *)
  on_fs (flatten path).

(** *** Harmony *)

(** [job_json['status'] == 'running' and job_json['progress'] < 100]. *)
Definition still_running (job_json : pyval) : exn + bool :=
  match subscript job_json "status" with
  | inl e => inl e
  | inr status =>
      if eq_str status "running" then
        match subscript job_json "progress" with
        | inl e => inl e
        | inr progress => lt_int progress 100
        end
      else inr false
  end.

(** The [while] loop of [request_harmony_data]; its result is the last
    [job_json]. *)
Fixpoint harmony_poll (fuel : nat) (job_url : string) (job_json : pyval)
    : M world pyval :=
  let! continue := lift (still_running job_json) in
  if continue : bool then
    match fuel with
    | O => running
    | S n =>
        let! progress := lift (subscript job_json "progress") in
        print [VStr "Job status is running. Progress is "; progress;
               VStr "%. Trying again."] ;;!
        sleep 10 ;;!
        let! loop_response := urlopen job_url in
        let loop_results := content loop_response in
        let! job_json := lift (json_loads loop_results) in
        (* if job_json['status'] == 'running': continue *)
        let! _ := lift (subscript job_json "status") in
        harmony_poll n job_url job_json
    end
  else ret job_json.

(** [link.get('rel', 'data') == 'data']. *)
Definition is_data_link (link : pyval) : exn + bool :=
  match link with
  | VDict kvs => inr (eq_str (default (VStr "data") (assoc "rel" kvs)) "data")
  | _ => inl AttributeError
  end.

Fixpoint filter_exn {A} (f : A -> exn + bool) (xs : list A) : exn + list A :=
  match xs with
  | [] => inr []
  | x :: r =>
      match f x with
      | inl e => inl e
      | inr b => match filter_exn f r with
                 | inl e => inl e
                 | inr ys => inr (if b then x :: ys else ys)
                 end
      end
  end.

(** [open(filepath, 'wb')] for a bare file name: the file is created, or
    emptied, in the working directory. *)
Definition open_wb (filepath : string) : M world path :=
  let! w := get in
  if String.eqb filepath "" then raise (OSError ENOENT)
  else if String.eqb filepath "." || String.eqb filepath ".." then raise (OSError EISDIR)
  else on_fs (Fs.write_file (cwd w ++ [filepath]) (PRaw "")) ;;! ret (cwd w ++ [filepath]).

(** One turn of the download loop. *)
Definition download_link (link_dict : pyval) : M world unit :=
  let! href := lift (subscript link_dict "href") in
  print [href] ;;!
  let! parts := lift (py_split href slash) in
  let! filepath := lift (index_last parts) in
  let! file_ := open_wb filepath in
  let! response := match href with VStr url => urlopen url | _ => raise TypeError end in
  on_fs (Fs.write_file file_ (content response)).

(** The last block of [request_harmony_data], from [if job_json['progress'] == 100]. *)
Definition harmony_fetch (job_json : pyval) : M world unit :=
  let! progress := lift (subscript job_json "progress") in
  if eq_int progress 100 then
    print [VStr "Job progress is 100%. Output links printed below:"] ;;!
    (* list of data links from response *)
    let! all_links := lift (subscript job_json "links") in
    let! all_links := lift (iter_values all_links) in
    let! links := lift (filter_exn is_data_link all_links) in
    for_each links download_link
  else ret tt.

(** The second half of [request_harmony_data], from [harmony_url] on: the
    job is submitted, polled and fetched. *)
Definition harmony_job (fuel : nat) (search_parameters : loc) : M world unit :=
  let harmony_root := "https://harmony.earthdata.nasa.gov" in
  let! collection_id := getitem search_parameters "collection_id" in
  let! lat := getitem search_parameters "lat" in
  let! lon := getitem search_parameters "lon" in
  let! time := getitem search_parameters "time" in
  let harmony_url :=
    harmony_root +:+ "/" +:+ py_str collection_id
      +:+ "/ogc-api-coverages/1.0.0/collections/all/coverage/rangeset?&subset=lat"
      +:+ py_str lat +:+ "&subset=lon" +:+ py_str lon
      +:+ "&subset=time" +:+ py_str time in
  print [VStr "Request URL"; VStr harmony_url] ;;!
  let! r := urlopen harmony_url in
  let harmony_response := content r in
  let! async_json := lift (json_loads harmony_response) in
  pprint async_json ;;!
  let! jobID := lift (subscript async_json "jobID") in
  let job_url := harmony_root +:+ "/jobs/" +:+ py_str jobID in
  print [VStr "Job URL"; VStr job_url] ;;!
  let! job_response := urlopen job_url in
  let job_results := content job_response in
  let! job_json := lift (json_loads job_results) in
  print [VStr "Job response:"] ;;!
  print [] ;;!
  pprint job_json ;;!
  (* Continue loop while request is still processing *)
  let! job_json := harmony_poll fuel job_url job_json in
  harmony_fetch job_json.

(** [request_harmony_data(search_parameters, token)].  The first half
    finds the collection and writes the subset ranges into the caller's
    dictionary; [token] is not used. *)
Definition request_harmony_data (fuel : nat) (search_parameters : loc) (token : pyval)
    : M world unit :=
  (* find cmr collection id *)
  let cmr_collections_url := "https://cmr.earthdata.nasa.gov/search/collections.json" in
  let! params := getdict search_parameters in
  let! cmr_response := requests_send (Get cmr_collections_url (Some params)) in
  let! cmr_results := lift (json_loads (content cmr_response)) in
  let! feed := lift (subscript cmr_results "feed") in
  let! entry := lift (subscript feed "entry") in
  let! entries := lift (iter_values entry) in
  let! collectionlist := lift (map_exn (fun el => subscript el "id") entries) in
  let! collection0 := lift (index collectionlist 0) in
  setitem search_parameters "collection_id" collection0 ;;!
  let! bounding_box := getitem search_parameters "bounding_box" in
  let! bb := lift (py_split bounding_box comma) in
  let! bb1 := lift (index bb 1) in
  let! bounding_box := getitem search_parameters "bounding_box" in
  let! bb' := lift (py_split bounding_box comma) in
  let! bb3 := lift (index bb' 3) in
  setitem search_parameters "lat" (VStr ("(" +:+ bb1 +:+ ":" +:+ bb3 +:+ ")")) ;;!
  let! bounding_box := getitem search_parameters "bounding_box" in
  let! bb := lift (py_split bounding_box comma) in
  let! bb0 := lift (index bb 0) in
  let! bounding_box := getitem search_parameters "bounding_box" in
  let! bb' := lift (py_split bounding_box comma) in
  let! bb2 := lift (index bb' 2) in
  setitem search_parameters "lon" (VStr ("(" +:+ bb0 +:+ ":" +:+ bb2 +:+ ")")) ;;!
  let! temporal := getitem search_parameters "temporal" in
  let! tt1 := lift (py_split temporal comma) in
  let! t1 := lift (index tt1 0) in
  let! temporal := getitem search_parameters "temporal" in
  let! tt2 := lift (py_split temporal comma) in
  let! t2 := lift (index tt2 1) in
  setitem search_parameters "time"
    (VStr ("(" +:+ dquote +:+ t1 +:+ dquote +:+ ":" +:+ dquote +:+ t2 +:+ dquote +:+ ")")) ;;!
  harmony_job fuel search_parameters.

End Client.

(** ** The set-up functions *)

(** The two functions that set up authentication talk to the user as well
    as to the services, and one of them changes the opener that
    [urllib.request] uses from then on.  Their environment is a desk: the
    services, the keyboard, the screen, the disk and the installed opener. *)

Inductive call :=
  | HttpGet (url : string)                                   (* requests.get(url) *)
  | HttpPost (url : string) (data : string)
             (headers : list (string * string)).             (* requests.post(url=, data=, headers=) *)

Inductive shown :=
  | Printed (line : string)         (* print(line) *)
  | Asked (prompt : string)         (* input(prompt) *)
  | AskedHidden (prompt : string)   (* getpass(prompt) *)
  | Called (c : call).              (* a request sent *)

(** What [manager.add_password(None, uri, user, passwd)] records, and an
    opener built from a password manager and a cookie jar. *)
Record credentials := Credentials {
  cred_uri : string;
  cred_user : string;
  cred_password : string;
}.

Record opener := Opener {
  passwords : list credentials;
  cookies : list string;
}.

Record desk := Desk {
  services : nat -> call -> reply;   (* the answer to the n-th request *)
  sent : nat;
  keyboard : nat -> string;          (* the line typed at the n-th prompt *)
  prompted : nat;
  screen : list shown;
  disk : gmap path node;
  home : path;                       (* expanduser('~') *)
  system_name : string;              (* platform.system() *)
  installed : option opener;         (* the opener urllib.request uses *)
}.

Definition show (x : shown) : M desk unit :=
  fun s => Ok tt (Desk (services s) (sent s) (keyboard s) (prompted s) (screen s ++ [x])
                       (disk s) (home s) (system_name s) (installed s)).

(** [input(prompt)] and [getpass(prompt)]: the prompt is shown and the next
    line typed is the result. *)
Definition prompt_for (x : shown) : M desk string :=
  fun s => Ok (keyboard s (prompted s))
              (Desk (services s) (sent s) (keyboard s) (S (prompted s)) (screen s ++ [x])
                    (disk s) (home s) (system_name s) (installed s)).

Definition input (prompt : string) : M desk string := prompt_for (Asked prompt).
Definition getpass (prompt : string) : M desk string := prompt_for (AskedHidden prompt).

(** [requests.get] and [requests.post]: only a transport failure raises. *)
Definition http (c : call) : M desk response :=
  fun s =>
    let s' := Desk (services s) (S (sent s)) (keyboard s) (prompted s) (screen s ++ [Called c])
                   (disk s) (home s) (system_name s) (installed s) in
    match services s (sent s) c with
    | Fail e => Raise e s'
    | Resp r => Ok r s'
    end.

(** A file of the disk, read whole. *)
Definition read_disk (p : path) : M desk payload :=
  fun s =>
    match Fs.read_file p (disk s) with
    | Ok d _ => Ok d s
    | Raise e _ => Raise e s
    | Running _ => Running s
    end.

(** [request.install_opener(opener)]. *)
Definition install_opener (o : opener) : M desk unit :=
  fun s => Ok tt (Desk (services s) (sent s) (keyboard s) (prompted s) (screen s)
                       (disk s) (home s) (system_name s) (Some o)).

(** [s.strip()]: the white space at both ends is taken off.  The white
    space among the first 256 characters is the tabulators and line ends 9
    to 13, the separators 28 to 31, the blank, and the characters 133 and
    160. *)
Definition is_space (a : ascii) : bool :=
  let n := nat_of_ascii a in
  (Nat.leb 9 n && Nat.leb n 13) || (Nat.leb 28 n && Nat.leb n 32)
  || Nat.eqb n 133 || Nat.eqb n 160.

Fixpoint lstrip (s : list ascii) : list ascii :=
  match s with
  | [] => []
  | a :: r => if is_space a then lstrip r else s
  end.

Definition strip (s : string) : string :=
  string_of_list_ascii (rev (lstrip (rev (lstrip (list_ascii_of_string s))))).

(** [TOKEN_DATA % (username, password, ip)]. *)
Definition TOKEN_DATA (username password ip : string) : string :=
  "<token>"
    +:+ "<username>" +:+ username +:+ "</username>"
    +:+ "<password>" +:+ password +:+ "</password>"
    +:+ "<client_id>PODAAC CMR Client</client_id>"
    +:+ "<user_ip_address>" +:+ ip +:+ "</user_ip_address>"
    +:+ "</token>".

(** [netrc(...).authenticators(host)]: the entry of the host, or else the
    entry [default], or else [None]. *)
Definition netrc_entry : Type := string * string * string.   (* login, account, password *)

Fixpoint netrc_lookup (host : string) (hosts : list (string * netrc_entry))
    : option netrc_entry :=
  match hosts with
  | [] => None
  | (h, e) :: r => if String.eqb host h then Some e else netrc_lookup host r
  end.

Definition authenticators (hosts : list (string * netrc_entry)) (host : string)
    : option netrc_entry :=
  match netrc_lookup host hosts with
  | Some e => Some e
  | None => netrc_lookup "default" hosts
  end.

(** [except (FileNotFoundError, TypeError)]. *)
Definition is_missing_or_TypeError (e : exn) : bool :=
  match e with
  | OSError ENOENT | TypeError => true
  | _ => false
  end.

Section Setup.

(** Library functions whose results the module only passes on. *)
Variable py_text : payload -> string.   (* response.text *)
Variable netrc_parse : payload -> exn + list (string * netrc_entry).
                                        (* the hosts netrc reads from a file *)

(** [setup_cmr_token_auth(endpoint)]. *)
Definition setup_cmr_token_auth (endpoint : string) : M desk pyval :=
  let! r := http (HttpGet "https://ipinfo.io/ip") in
  let ip := strip (py_text (content r)) in
  let url := "https://" +:+ endpoint +:+ "/legacy-services/rest/tokens" in
  let! username := input "Username: " in
  let! password := getpass "Password: " in
  let data := TOKEN_DATA username password ip in
  let! r := http (HttpPost url data
                    [("Content-Type", "application/xml"); ("Accept", "application/json")]) in
  let! doc := lift (json_loads (content r)) in
  let! token := lift (subscript doc "token") in
  lift (subscript token "id").

(** [setup_earthdata_login_auth(endpoint)]. *)
Definition setup_earthdata_login_auth (endpoint : string) : M desk unit :=
  let! s := get in
  let netrc_name := if String.eqb (system_name s) "Windows" then "_netrc" else ".netrc" in
  let! login :=
    try_except
      (let! body := read_disk (home s ++ [netrc_name]) in
       let! hosts := lift (netrc_parse body) in
       match authenticators hosts endpoint with
       | Some (username, _, password) => ret (username, password)
       | None => raise TypeError        (* None cannot be unpacked *)
       end)
      is_missing_or_TypeError
      (fun _ =>
         show (Printed "Please provide your Earthdata Login credentials for access.") ;;!
         show (Printed ("Your info will only be passed to " +:+ endpoint
                          +:+ " and will not be exposed in Jupyter.")) ;;!
         let! username := input "Username: " in
         let! password := getpass "Password: " in
         ret (username, password)) in
  let username := login.1 in
  let password := login.2 in
  let manager := [Credentials endpoint username password] in
  let jar := [] in
  install_opener (Opener manager jar).

End Setup.

(** * Statements *)

(** ** Vocabulary *)

Definition requests_of (t : list event) : list request :=
  omap (fun e => match e with ENet rq => Some rq | _ => None end) t.

(** The pauses and requests of a trace, in order. *)
Definition is_action (e : event) : bool :=
  match e with ESleep _ | ENet _ => true | _ => false end.
Definition actions (t : list event) : list event := List.filter is_action t.

(** The services answer request number [i], for [url], with a 2xx response
    whose body is [b]. *)
Definition answers (w : world) (i : nat) (url : string) (b : payload) : Prop :=
  exists r, net w i (Urlopen url) = Resp r /\ ok2xx r = true /\ content r = b.

(** What [root.findall("./tag/")] followed by [...[0]] reads. *)
Definition first_text (root : element) (tag : string) : exn + option string :=
  index (map elem_text (findall_children_of root tag)) 0.

Definition nsidc_terminal (s : string) : Prop :=
  s = "complete" \/ s = "complete_with_errors" \/ s = "failed".

Definition harmony_terminal (job_json : pyval) : Prop :=
  exists status, subscript job_json "status" = inr status /\
    (eq_str status "running" = false \/
     exists p, subscript job_json "progress" = inr (VInt p) /\ 100 <= p).

(** Oracles that never report a terminal state for the polled URL. *)
Definition nsidc_never_done (w : world) (url : string) : Prop :=
  forall i, exists root s,
    answers w i url (PXml root) /\
    first_text root "requestStatus" = inr (Some s) /\
    (s = "pending" \/ s = "processing").

Definition harmony_never_done (w : world) (url : string) : Prop :=
  forall i, exists job p,
    answers w i url (PJson job) /\
    subscript job "status" = inr (VStr "running") /\
    subscript job "progress" = inr (VInt p) /\ p < 100.

(** One more turn of a polling loop, as seen from outside. *)
Definition poll_turn (url : string) : list event := [ESleep 10; ENet (Urlopen url)].

(** ** Scenarios *)

Definition reply_ok (b : payload) : reply := Resp (Response 200 [] b).

(** A status document as NSIDC sends it. *)
Definition status_xml (s : string) : element :=
  Elem "eesi:agentResponse" None
    [Elem "requestStatus" None [Elem "status" (Some s) []]].

Definition order_xml (id : string) : element :=
  Elem "eesi:agentResponse" None
    [Elem "order" None [Elem "orderId" (Some id) []]].

Definition job_doc (status : string) (progress : Z) (links : list pyval) : pyval :=
  VDict [("status", VStr status); ("progress", VInt progress); ("links", VList links)].

(** A machine with a home directory, nothing printed yet, no dictionary. *)
Definition fresh (oracle : nat -> request -> reply) : world :=
  World oracle 0 [] {[ ["home"] := NDir ]} ["home"] ∅.

Definition always (b : payload) : nat -> request -> reply := fun _ _ => reply_ok b.

Definition nsidc_status_url (id : string) : string :=
  "https://n5eil02u.ecs.nsidc.org/egi/request" +:+ "/" +:+ id.
Definition nsidc_zip_url (id : string) : string :=
  "https://n5eil02u.ecs.nsidc.org/esir/" +:+ id +:+ ".zip".

Definition with_fs (w : world) (f : gmap path node) : world :=
  World (net w) (calls w) (trace w) f (cwd w) (heap w).

(** The file system once [request_nsidc_data] has made sure of its folder. *)
Definition fs_with_outputs (w : world) : gmap path node :=
  if Fs.path_exists (fs w) (outputs_dir w) then fs w
  else <[outputs_dir w := NDir]> (fs w).

(** The world in which the polling loop of [request_nsidc_data] starts, when
    it was called in [w] and the order got the identifier [id]. *)
Definition nsidc_started (w : world) (api id : string) : world :=
  World (net w) (S (S (calls w)))
    (trace w ++ [ENet (Urlopen api);
                 EPrint [VStr "Order status URL: "; VStr (nsidc_status_url id)];
                 ENet (Urlopen (nsidc_status_url id))])
    (fs_with_outputs w) (cwd w) (heap w).

(** What is left of [request_nsidc_data] when the first status is known. *)
Definition nsidc_rest (fuel : nat) (out : path) (id : string) (status : option string)
    : M world unit :=
  let! polled := nsidc_poll fuel (nsidc_status_url id) status None in
  nsidc_report_errors polled.1 polled.2 ;;!
  nsidc_download out id polled.1 ;;!
  on_fs (flatten out).

(** A projection of the world that printing and sending leave alone, and one
    that file-system actions leave alone. *)
Definition silent {X} (pr : world -> X) : Prop :=
  forall w n t, pr (World (net w) n t (fs w) (cwd w) (heap w)) = pr w.
Definition fs_blind {X} (pr : world -> X) : Prop :=
  forall w f, pr (World (net w) (calls w) (trace w) f (cwd w) (heap w)) = pr w.
Definition keeps {A X} (pr : world -> X) (m : M world A) : Prop :=
  forall w, pr (state_of (m w)) = pr w.

(** [root] has a child named [tag] whose first child element has the text
    [txt], and the children of [root] named [tag] before it have no children:
    the document holds [<tag><x>txt</x>...</tag>] where [findall] looks first. *)
Definition reads (root : element) (tag txt : string) : Prop :=
  exists before e c cs after,
    elem_children root = before ++ e :: after /\
    elem_tag e = tag /\ elem_children e = c :: cs /\ elem_text c = Some txt /\
    Forall (fun b => elem_tag b = tag -> elem_children b = []) before.

(** The scenario of the specification, with the status given as the text of
    [requestStatus] itself. *)
Definition scenario_order : element :=
  Elem "response" None [Elem "order" None [Elem "id" (Some "ORD1") []]].
Definition scenario_status_flat : element :=
  Elem "response" None [Elem "requestStatus" (Some "complete") []].
Definition scenario_status_nested : element :=
  Elem "response" None [Elem "requestStatus" None [Elem "status" (Some "complete") []]].

Definition scenario_flat : world :=
  fresh (fun i _ => match i with
                    | O => reply_ok (PXml scenario_order)
                    | _ => reply_ok (PXml scenario_status_flat)
                    end).

Definition scenario_nested : world :=
  fresh (fun i _ => match i with
                    | O => reply_ok (PXml scenario_order)
                    | 1%nat => reply_ok (PXml scenario_status_nested)
                    | _ => reply_ok (PZip [ZipMember ["g1"; "a.h5"] (Some "A")])
                    end).

(** An order that has failed by the time its status is first read. *)
Definition scenario_failed_at_once : world :=
  fresh (fun i _ => match i with
                    | O => reply_ok (PXml (order_xml "5000"))
                    | _ => reply_ok (PXml (status_xml "failed"))
                    end).




(** A request the services refuse: the transport fails, or the status is a
    client or server error. *)
Definition refused (w : world) (i : nat) (rq : request) : Prop :=
  (exists e, net w i rq = Fail e) \/
  (exists r, net w i rq = Resp r /\ 400 <= status_code r < 600).

Definition cmr_parameters : list (string * pyval) :=
  [("scroll", VStr "true"); ("page_size", VInt 100)].

(** CMR answers request number [i], the collection search for [params], with
    a feed whose first entry has the identifier [cid]. *)
Definition cmr_finds (w : world) (i : nat) (params : gmap string pyval) (cid : pyval) : Prop :=
  exists r cmr feed entry entries ids,
    net w i (Get "https://cmr.earthdata.nasa.gov/search/collections.json" (Some params))
      = Resp r /\
    content r = PJson cmr /\
    subscript cmr "feed" = inr feed /\
    subscript feed "entry" = inr entry /\
    iter_values entry = inr entries /\
    map_exn (fun el => subscript el "id") entries = inr (cid :: ids).

(** The values [request_harmony_data] derives. *)
Definition range_of (lo hi : string) : pyval := VStr ("(" +:+ lo +:+ ":" +:+ hi +:+ ")").
Definition time_of (t1 t2 : string) : pyval :=
  VStr ("(" +:+ dquote +:+ t1 +:+ dquote +:+ ":" +:+ dquote +:+ t2 +:+ dquote +:+ ")").

(** Stand-ins for the library functions, for the examples. *)
Definition str_demo (v : pyval) : string := match v with VStr s => s | _ => "" end.
Definition int_demo (s : string) : exn + Z := if String.eqb s "" then inl ValueError else inr 0.

Definition demo_parameters : gmap string pyval :=
  {[ "short_name" := VStr "ATL07";
     "bounding_box" := VStr "-50,70,-45,75";
     "temporal" := VStr "2019-06-01T00:00:00Z,2019-06-02T00:00:00Z" ]}.

Definition cmr_doc : pyval :=
  VDict [("feed", VDict [("entry", VList [VDict [("id", VStr "C1-NSIDC")]])])].

Definition with_dict (w : world) (d : gmap string pyval) : world :=
  World (net w) (calls w) (trace w) (fs w) (cwd w) {[ 0%nat := d ]}.

(** A caller with one dictionary, and services that are down, answer 404, or
    answer every request with the CMR document. *)
Definition scenario_down : world :=
  with_dict (fresh (fun _ _ => Fail TransportError)) demo_parameters.
Definition scenario_404 : world :=
  with_dict (fresh (fun _ _ => Resp (Response 404 [] (PRaw "")))) demo_parameters.
Definition scenario_cmr : world :=
  with_dict (fresh (always (PJson cmr_doc))) demo_parameters.

(** ** Harmony links *)



Definition href_of (link : pyval) : option string :=
  match link with
  | VDict kvs => match assoc "href" kvs with Some (VStr u) => Some u | _ => None end
  | _ => None
  end.

(** What follows the last slash of a URL. *)
Definition file_name_of (url : string) : string := List.last (split_on slash url) "".





(** The Harmony scenario of the specification: job 123, running at 40 percent
    when first polled, at 100 percent when polled again, with one data link. *)
Definition granule_url : string :=
  "https://harmony.earthdata.nasa.gov/service-results/staging/granule.nc".


(** ** Flattening *)

(** [k] lies strictly below the folder [p]. *)
Definition below (p k : path) : Prop := exists n rest, k = p ++ n :: rest.

(** [k] lies at least two levels below [out]: it is not an entry of [out]. *)
Definition deep (out k : path) : Prop := (length out + 2 <= length k)%nat.

(** Where the clean-up walk moves the file [k]. *)
Definition target (out k : path) : path := out ++ [Fs.basename k].

(** The entries of the region [R] of [f] are gone in [f'], its files are
    entries of [out], and nothing else has changed. *)
Definition moved (out : path) (R : path -> Prop) (f f' : gmap path node) : Prop :=
  (forall k, R k -> f' !! k = None) /\
  (forall k d, R k -> f !! k = Some (NFile d) -> f' !! target out k = Some (NFile d)) /\
  (forall k, ~ R k ->
     (forall k0 d, R k0 -> f !! k0 = Some (NFile d) -> k <> target out k0) ->
     f' !! k = f !! k).

(** No two files of the region have the same name. *)
Definition distinct_names (f : gmap path node) (U : path -> Prop) : Prop :=
  forall k1 k2 d1 d2, U k1 -> U k2 ->
    f !! k1 = Some (NFile d1) -> f !! k2 = Some (NFile d2) ->
    Fs.basename k1 = Fs.basename k2 -> k1 = k2.

(** No file of the region has the name of an entry of [out]. *)
Definition fresh_names (out : path) (f : gmap path node) (U : path -> Prop) : Prop :=
  forall k d, U k -> f !! k = Some (NFile d) -> f !! target out k = None.

(** Every entry of the region lies in a folder. *)
Definition parents_ok (f : gmap path node) (U : path -> Prop) : Prop :=
  forall q n, U (q ++ [n]) -> is_Some (f !! (q ++ [n])) -> f !! q = Some NDir.

(** The union of the regions of the elements of a list. *)
Definition regions {A} (R : A -> path -> Prop) (xs : list A) (k : path) : Prop :=
  exists x, x ∈ xs /\ R x k.

(** What the walk needs of a folder [p] below [out] to flatten it with
    [n] levels of fuel. *)
Definition walk_ready (out p : path) (f : gmap path node) (n : nat) : Prop :=
  f !! p = Some NDir /\
  parents_ok f (below p) /\
  distinct_names f (below p) /\
  fresh_names out f (below p) /\
  (forall k, p `prefix_of` k -> is_Some (f !! k) -> (length k < length p + n)%nat) /\
  Fs.is_dir f out = true.

(** The folders directly in [out], with all they hold. *)
Definition top_folders (out : path) (f : gmap path node) (k : path) : Prop :=
  exists d, f !! (out ++ [d]) = Some NDir /\ (out ++ [d]) `prefix_of` k.

(** ** Extraction *)

(** [f'] is [f] with the folders on the way from [out] to [out ++ r]. *)
Definition grown (out r : path) (f f' : gmap path node) : Prop :=
  (forall k x, f !! k = Some x -> f' !! k = Some x) /\
  (forall r', r' <> [] -> r' `prefix_of` r -> f' !! (out ++ r') = Some NDir) /\
  (forall k x, f' !! k = Some x ->
     f !! k = Some x \/
     (x = NDir /\ exists r', r' <> [] /\ r' `prefix_of` r /\ k = out ++ r')).

(** The file a member is extracted to. *)
Definition file_data (m : zip_member) : payload := PRaw (default "" (zm_data m)).
Definition file_entry (m : zip_member) : string * node :=
  (Fs.basename (zm_name m), NFile (file_data m)).

(** [f] is [f0] with the members [ms] extracted under [out]: the members are
    files, the files below [out] are members, the folders below [out] lead to
    members, nothing else has changed, and every entry lies in a folder. *)
Definition extracted (out : path) (ms : list zip_member) (f0 f : gmap path node) : Prop :=
  (forall m, m ∈ ms -> f !! (out ++ zm_name m) = Some (NFile (file_data m))) /\
  (forall k d, below out k -> f !! k = Some (NFile d) ->
     exists m, m ∈ ms /\ k = out ++ zm_name m /\ d = file_data m) /\
  (forall k, below out k -> f !! k = Some NDir ->
     exists m n rest, m ∈ ms /\ out ++ zm_name m = k ++ n :: rest) /\
  (forall k, ~ below out k -> f !! k = f0 !! k) /\
  parents_ok f (below out).

(** An archive of files, *)
Definition files_only (ms : list zip_member) : Prop :=
  forall m, m ∈ ms -> zm_name m <> [] /\ is_Some (zm_data m).
(** none of which lies where another one needs a folder, *)
Definition prefix_free (ms : list zip_member) : Prop :=
  forall m1 m2 n rest, m1 ∈ ms -> m2 ∈ ms -> zm_name m2 <> zm_name m1 ++ n :: rest.
(** with pairwise distinct file names, *)
Definition names_distinct (ms : list zip_member) : Prop :=
  NoDup (map (fun m => Fs.basename (zm_name m)) ms).
(** none of which is the name of a top-level folder of the archive. *)
Definition names_clear (ms : list zip_member) : Prop :=
  forall m1 m2 a b rest, m1 ∈ ms -> m2 ∈ ms ->
    zm_name m2 = a :: b :: rest -> Fs.basename (zm_name m1) <> a.

(** Archives: one with files at several depths, one with the same file name
    in two granule folders. *)
Definition archive_demo : list zip_member :=
  [ZipMember ["g1"; "a.h5"] (Some "A");
   ZipMember ["g2"; "sub"; "b.h5"] (Some "B");
   ZipMember ["readme.txt"] (Some "R")].

Definition archive_clash : list zip_member :=
  [ZipMember ["g1"; "a.h5"] (Some "A");
   ZipMember ["g2"; "a.h5"] (Some "B")].

Definition home_outputs : gmap path node :=
  {[ ["home"] := NDir; ["home"; "Outputs"] := NDir ]}.

(** An order that is complete at once and delivers [archive_clash]. *)
Definition scenario_clash : world :=
  fresh (fun i _ => match i with
                    | O => reply_ok (PXml (order_xml "5000"))
                    | 1%nat => reply_ok (PXml (status_xml "complete"))
                    | _ => reply_ok (PZip archive_clash)
                    end).

(** ** The CMR searches *)

(** The status of a response is no client or server error:
    [raise_for_status] lets it pass. *)
Definition accepted (r : response) : Prop := ~ (400 <= status_code r < 600).

(** What [search_granules] uploads: nothing, or the content of the file
    [geojson] under its name. *)
Definition shapefile (f : gmap path node) (geojson : option path)
    (files : option (path * payload)) : Prop :=
  match geojson with
  | None => files = None
  | Some g => g <> [] /\ exists d, f !! g = Some (NFile d) /\ files = Some (g, d)
  end.

Definition granules_url (fmt : string) : string :=
  "https://cmr.earthdata.nasa.gov/search/granules" +:+ "." +:+ fmt.
Definition collections_url (fmt : string) : string :=
  "https://cmr.earthdata.nasa.gov/search/collections" +:+ "." +:+ fmt.

(** [float(granule['granule_size'])]. *)
Definition granule_size {Float : Type} (py_float : pyval -> exn + Float)
    (granule : pyval) : exn + Float :=
  match subscript granule "granule_size" with
  | inl e => inl e
  | inr v => py_float v
  end.

(** The world once the search has been sent: the token is in the caller's
    dictionary, the request is on the trace. *)
Definition searched (w : world) (sp : loc) (d : gmap string pyval) (token : pyval)
    (rq : request) (printed : list event) : world :=
  World (net w) (S (calls w)) (trace w ++ ENet rq :: printed) (fs w) (cwd w)
        (<[sp := <["token" := token]> d]> (heap w)).

(** A page of two granules, of 1.5 MB and 2.5 MB, with sizes counted in
    tenths. *)
Definition tenths_demo (v : pyval) : exn + Z :=
  match v with
  | VStr "1.5" => inr 15
  | VStr "2.5" => inr 25
  | _ => inl ValueError
  end.
Definition sum_demo (xs : list Z) : string :=
  if foldr Z.add 0 xs =? 40 then "4.00" else "?".
Definition hits_demo (s : string) : exn + Z :=
  if String.eqb s "2" then inr 2 else if String.eqb s "0" then inr 0 else inl ValueError.

Definition granules_doc : pyval :=
  VDict [("feed", VDict [("entry",
    VList [VDict [("id", VStr "G1"); ("granule_size", VStr "1.5")];
           VDict [("id", VStr "G2"); ("granule_size", VStr "2.5")]])])].

Definition scenario_granules (hits : string) : world :=
  with_dict (fresh (fun _ _ => Resp (Response 200 [("CMR-Hits", hits)] (PJson granules_doc))))
            demo_parameters.


(** What [response['feed']['entry'][0]['associations']] reads in the
    document CMR returns for a collection search. *)
Definition first_associations (doc : pyval) : exn + pyval :=
  match subscript doc "feed" with
  | inl e => inl e
  | inr feed =>
      match subscript feed "entry" with
      | inl e => inl e
      | inr entry =>
          match subscript0 entry with
          | inl e => inl e
          | inr entry0 => subscript entry0 "associations"
          end
      end
  end.

(** The address at which [search_services] looks a service up. *)
Definition service_url (py_str : pyval -> string) (service : pyval) : string :=
  "https://cmr.earthdata.nasa.gov/search/services" +:+ "." +:+ "umm_json"
    +:+ "?concept-id=" +:+ py_str service.

(** What [search_services] shows of a service document:
    [response['items'][0]['umm']['ServiceOptions']], when the key is there. *)
Definition service_options (doc : pyval) : exn + option pyval :=
  match subscript doc "items" with
  | inl e => inl e
  | inr items =>
      match subscript0 items with
      | inl e => inl e
      | inr item0 =>
          match subscript item0 "umm" with
          | inl e => inl e
          | inr umm =>
              match py_in "ServiceOptions" umm with
              | inl e => inl e
              | inr false => inr None
              | inr true =>
                  match subscript umm "ServiceOptions" with
                  | inl e => inl e
                  | inr options => inr (Some options)
                  end
              end
          end
      end
  end.

(** From request number [i] on, the services [services] are looked up one
    after the other, and [shown] is what their documents have to show. *)
Fixpoint services_answer (py_str : pyval -> string) (oracle : nat -> request -> reply)
    (i : nat) (services : list pyval) (shown : list (option pyval)) : Prop :=
  match services, shown with
  | [], [] => True
  | s :: services', o :: shown' =>
      (exists r doc, oracle i (Get (service_url py_str s) None) = Resp r /\
                     content r = PJson doc /\ service_options doc = inr o) /\
      services_answer py_str oracle (S i) services' shown'
  | _, _ => False
  end.

Fixpoint services_trace (py_str : pyval -> string)
    (services : list pyval) (shown : list (option pyval)) : list event :=
  match services, shown with
  | s :: services', o :: shown' =>
      ENet (Get (service_url py_str s) None)
        :: match o with Some v => [EPPrint v] | None => [] end
        ++ services_trace py_str services' shown'
  | _, _ => []
  end.

(** One turn of the loop of [search_services] over the services. *)
Definition show_service (py_str : pyval -> string) (item : exn + pyval) : M world unit :=
  let! service := lift item in
  let! response := requests_send (Get (service_url py_str service) None) in
  let! response := lift (json_loads (content response)) in
  let! items := lift (subscript response "items") in
  let! item0 := lift (subscript0 items) in
  let! umm := lift (subscript item0 "umm") in
  let! has_options := lift (py_in "ServiceOptions" umm) in
  if has_options : bool then
    let! response_items := lift (subscript response "items") in
    let! response_item0 := lift (subscript0 response_items) in
    let! response_umm := lift (subscript response_item0 "umm") in
    let! options := lift (subscript response_umm "ServiceOptions") in
    pprint options
  else ret tt.

(** What is left of [search_services] when the response has passed the
    status check. *)
Definition services_rest (py_str : pyval -> string) (py_int : string -> exn + Z)
    (response : response) : M world pyval :=
  let! h := lift (header response "CMR-Hits") in
  let! hits := lift (py_int h) in
  if 0 <? hits then
    let! response := lift (json_loads (content response)) in
    let! feed := lift (subscript response "feed") in
    let! entry := lift (subscript feed "entry") in
    let! entry0 := lift (subscript0 entry) in
    let! associations := lift (subscript entry0 "associations") in
    let! has_services := lift (py_in "services" associations) in
    (if has_services : bool then
       let! services := lift (subscript associations "services") in
       let! items := lift (indexed_items py_str services) in
       for_each items (show_service py_str)
     else
       print [VStr "Found no services"]) ;;!
    ret VNone
  else
    print [VStr "Found no hits"] ;;! ret VNone.

(** Whenever [m] returns, what it returns satisfies [P]. *)
Definition returns_only {S A} (P : A -> Prop) (m : M S A) : Prop :=
  forall s a s', m s = Ok a s' -> P a.

(** A collection with two services, the first of which has options. *)
Definition collections_doc : pyval :=
  VDict [("feed", VDict [("entry",
    VList [VDict [("id", VStr "C1-NSIDC");
                  ("associations", VDict [("services", VList [VStr "S1"; VStr "S2"])])]])])].

Definition plain_collections_doc : pyval :=
  VDict [("feed", VDict [("entry",
    VList [VDict [("id", VStr "C1-NSIDC");
                  ("associations", VDict [("variables", VList [VStr "V1"])])]])])].

Definition service_doc (umm : list (string * pyval)) : pyval :=
  VDict [("items", VList [VDict [("umm", VDict umm)]])].

Definition subsetter : pyval := VDict [("Subset", VDict [])].

Definition scenario_services (doc : pyval) : world :=
  with_dict
    (fresh (fun i _ =>
              match i with
              | 0%nat => Resp (Response 200 [("CMR-Hits", "2")] (PJson doc))
              | 1%nat => reply_ok (PJson (service_doc [("Name", VStr "one");
                                                       ("ServiceOptions", subsetter)]))
              | _ => reply_ok (PJson (service_doc [("Name", VStr "two")]))
              end))
    demo_parameters.

(** ** The NSIDC client *)

(** [urlopen] of [url], as request number [i], raises [e]: the transport
    fails, or the status is outside 2xx. *)
Definition urlopen_raises (w : world) (i : nat) (url : string) (e : exn) : Prop :=
  net w i (Urlopen url) = Fail e \/
  exists r, net w i (Urlopen url) = Resp r /\ ok2xx r = false /\
            e = HTTPStatusError (status_code r).

(** The world once [request_nsidc_data] has made sure of its folder and has
    sent the order. *)
Definition nsidc_ordered (w : world) (api : string) : world :=
  World (net w) (S (calls w)) (trace w ++ [ENet (Urlopen api)])
        (fs_with_outputs w) (cwd w) (heap w).

(** What the error report of an order shows: the texts under
    [processInfo]. *)
Definition error_messages (root : element) : pyval :=
  VList (map of_text (map elem_text (findall_children_of root "processInfo"))).

(** An answer that is no order: NSIDC's exception report. *)
Definition exception_xml : element :=
  Elem "ServiceExceptionReport" None
    [Elem "ServiceException" (Some "Invalid request") []].

Definition errors_xml : element :=
  Elem "eesi:agentResponse" None
    [Elem "requestStatus" None [Elem "status" (Some "complete_with_errors") []];
     Elem "processInfo" None [Elem "message" (Some "Granule G2 failed") []]].

(** An order that is pending when first asked about, and complete with
    errors the next time. *)
Definition scenario_with_errors : world :=
  fresh (fun i _ => match i with
                    | O => reply_ok (PXml (order_xml "5000"))
                    | 1%nat => reply_ok (PXml (status_xml "pending"))
                    | 2%nat => reply_ok (PXml errors_xml)
                    | _ => reply_ok (PZip [ZipMember ["g1"; "a.h5"] (Some "A")])
                    end).

(** An output folder that holds a file of an earlier order next to a granule
    folder. *)
Definition kept_fs : gmap path node :=
  {[ ["home"] := NDir;
     ["home"; "Outputs"] := NDir;
     ["home"; "Outputs"; "old.h5"] := NFile (PRaw "O");
     ["home"; "Outputs"; "g1"] := NDir;
     ["home"; "Outputs"; "g1"; "a.h5"] := NFile (PRaw "A") ]}.

(** ** What a computation leaves alone *)

(** Every run of [m] takes a state to one related to it by [R]. *)
Definition within {S A} (R : S -> S -> Prop) (m : M S A) : Prop :=
  forall s, R s (state_of (m s)).

(** [f'] differs from [f] in [out] and below it at most, when [out] and
    the folder it lies in exist; they exist in [f'] as well then. *)
Definition confined (out : path) (f f' : gmap path node) : Prop :=
  Fs.path_exists f out = true -> Fs.path_exists f (Fs.dirname out) = true ->
  Fs.path_exists f' out = true /\
  forall p, ~ out `prefix_of` p -> f' !! p = f !! p.

Definition confined_world (out : path) (w w' : world) : Prop :=
  confined out (fs w) (fs w').

(** ** Harmony *)

(** The trace of [w'] continues that of [w]. *)
Definition trace_grows (w w' : world) : Prop := exists t, trace w' = trace w ++ t.

(** What [request_harmony_data] needs to get as far as its request: the
    caller's dictionary [d], a collection [cid] that CMR finds for it, a
    bounding box of at least four parts and a time range of at least two. *)
Definition harmony_inputs (w : world) (sp : loc) (d : gmap string pyval) (cid : pyval)
    (b0 b1 b2 b3 t1 t2 : string) : Prop :=
  heap w !! sp = Some d /\
  cmr_finds w (calls w) d cid /\
  (exists bb more, d !! "bounding_box" = Some (VStr bb) /\
                   split_on comma bb = b0 :: b1 :: b2 :: b3 :: more) /\
  (exists tp more, d !! "temporal" = Some (VStr tp) /\
                   split_on comma tp = t1 :: t2 :: more).

Definition cmr_collections_request (d : gmap string pyval) : request :=
  Get "https://cmr.earthdata.nasa.gov/search/collections.json" (Some d).

(** The caller's dictionary when the ranges have been written into it, and
    the world at that point. *)
Definition harmony_dict (d : gmap string pyval) (cid : pyval)
    (b0 b1 b2 b3 t1 t2 : string) : gmap string pyval :=
  <["time" := time_of t1 t2]>
    (<["lon" := range_of b0 b2]>
      (<["lat" := range_of b1 b3]>
        (<["collection_id" := cid]> d))).

Definition harmony_prepared (w : world) (sp : loc) (d : gmap string pyval) (cid : pyval)
    (b0 b1 b2 b3 t1 t2 : string) : world :=
  World (net w) (S (calls w)) (trace w ++ [ENet (cmr_collections_request d)])
        (fs w) (cwd w) (<[sp := harmony_dict d cid b0 b1 b2 b3 t1 t2]> (heap w)).

(** The address of the coverage request, and of a job. *)
Definition coverage_url (py_str : pyval -> string) (cid : pyval)
    (b0 b1 b2 b3 t1 t2 : string) : string :=
  "https://harmony.earthdata.nasa.gov" +:+ "/" +:+ py_str cid
    +:+ "/ogc-api-coverages/1.0.0/collections/all/coverage/rangeset?&subset=lat"
    +:+ py_str (range_of b1 b3) +:+ "&subset=lon" +:+ py_str (range_of b0 b2)
    +:+ "&subset=time" +:+ py_str (time_of t1 t2).

Definition job_url (py_str : pyval -> string) (jobID : pyval) : string :=
  "https://harmony.earthdata.nasa.gov" +:+ "/jobs/" +:+ py_str jobID.

(** A job that has failed at 40 percent when it is first asked about. *)
Definition scenario_harmony_failed : world :=
  with_dict
    (fresh (fun i _ =>
              match i with
              | 0%nat => reply_ok (PJson cmr_doc)
              | 1%nat => reply_ok (PJson (VDict [("jobID", VStr "123")]))
              | _ => reply_ok (PJson (job_doc "failed" 40 []))
              end))
    demo_parameters.

(** A search that finds nothing, and a caller who gives no bounding box. *)
Definition empty_cmr_doc : pyval := VDict [("feed", VDict [("entry", VList [])])].

Definition scenario_no_collection : world :=
  with_dict (fresh (always (PJson empty_cmr_doc))) demo_parameters.

Definition scenario_no_box : world :=
  with_dict (fresh (always (PJson cmr_doc))) {[ "short_name" := VStr "ATL07" ]}.

(** A working directory that holds a granule already, and services that
    are down. *)
Definition scenario_fetch_fails : world :=
  World (fun _ _ => Fail TransportError) 0 []
        {[ ["home"] := NDir; ["home"; "granule.nc"] := NFile (PRaw "OLD") ]}
        ["home"] ∅.



(** ** The set-up functions *)

Definition ip_request : call := HttpGet "https://ipinfo.io/ip".

Definition token_headers : list (string * string) :=
  [("Content-Type", "application/xml"); ("Accept", "application/json")].

(** The request for a token that [setup_cmr_token_auth] sends from the desk
    [s], when the address service has answered [r]: the user name is the
    next line typed, the password the one after it. *)
Definition token_request (py_text : payload -> string) (endpoint : string)
    (s : desk) (r : response) : call :=
  HttpPost ("https://" +:+ endpoint +:+ "/legacy-services/rest/tokens")
           (TOKEN_DATA (keyboard s (prompted s)) (keyboard s (S (prompted s)))
                       (strip (py_text (content r))))
           token_headers.

(** The desk when the token has been asked for. *)
Definition token_asked (py_text : payload -> string) (endpoint : string)
    (s : desk) (r : response) : desk :=
  Desk (services s) (S (S (sent s))) (keyboard s) (S (S (prompted s)))
       (screen s ++ [Called ip_request; Asked "Username: "; AskedHidden "Password: ";
                     Called (token_request py_text endpoint s r)])
       (disk s) (home s) (system_name s) (installed s).

(** Where [setup_earthdata_login_auth] looks for the user's netrc file. *)
Definition netrc_path (s : desk) : path :=
  home s ++ [if String.eqb (system_name s) "Windows" then "_netrc" else ".netrc"].

(** What the netrc file of the desk has for a host, if it can be read. *)
Definition netrc_gives (netrc_parse : payload -> exn + list (string * netrc_entry))
    (s : desk) (host : string) (e : option netrc_entry) : Prop :=
  exists body hosts,
    disk s !! netrc_path s = Some (NFile body) /\
    netrc_parse body = inr hosts /\
    authenticators hosts host = e.

Definition with_opener (s : desk) (o : opener) : desk :=
  Desk (services s) (sent s) (keyboard s) (prompted s) (screen s)
       (disk s) (home s) (system_name s) (Some o).

(** The desk after the user has been asked for the credentials. *)
Definition login_asked (s : desk) (endpoint : string) : desk :=
  Desk (services s) (sent s) (keyboard s) (S (S (prompted s)))
       (screen s ++
          [Printed "Please provide your Earthdata Login credentials for access.";
           Printed ("Your info will only be passed to " +:+ endpoint
                      +:+ " and will not be exposed in Jupyter.");
           Asked "Username: "; AskedHidden "Password: "])
       (disk s) (home s) (system_name s)
       (Some (Opener [Credentials endpoint (keyboard s (prompted s))
                                  (keyboard s (S (prompted s)))] [])).

(** Stand-ins and desks for the examples. *)
Definition text_demo (b : payload) : string := match b with PRaw s => s | _ => "" end.

Definition newline : string := String (ascii_of_nat 10) EmptyString.

Definition typing (i : nat) : string :=
  match i with 0%nat => "alice" | _ => "secret" end.

Definition token_doc : pyval := VDict [("token", VDict [("id", VStr "TOKEN-1")])].
Definition denied_doc : pyval := VDict [("errors", VList [VStr "Invalid username or password"])].

Definition desk_of (srv : nat -> call -> reply) (files : gmap path node) : desk :=
  Desk srv 0 typing 0 [] files ["home"; "alice"] "Linux" None.

Definition token_services (doc : pyval) : nat -> call -> reply :=
  fun i _ => match i with
             | 0%nat => reply_ok (PRaw ("203.0.113.7" +:+ newline))
             | _ => reply_ok (PJson doc)
             end.

(** A netrc file is given by the hosts it lists. *)
Definition netrc_demo (b : payload) : exn + list (string * netrc_entry) :=
  match b with
  | PRaw "urs" => inr [("urs.earthdata.nasa.gov", ("bob", "", "hunter2"))]
  | PRaw "other" => inr [("example.org", ("carol", "", "pw"))]
  | _ => inl ParseError
  end.

Definition netrc_disk (content : string) : gmap path node :=
  {[ ["home"] := NDir; ["home"; "alice"] := NDir;
     ["home"; "alice"; ".netrc"] := NFile (PRaw content) ]}.

(** From [w] to [w'] the working directory is the same, and the file system
    has changed by files written directly into it at most. *)
Definition only_writes_in_cwd (w w' : world) : Prop :=
  cwd w' = cwd w /\
  forall p, fs w' !! p = fs w !! p \/
            exists n d, p = cwd w ++ [n] /\ fs w' !! p = Some (NFile d).

(** * Proofs *)

(** ** Traces *)

Lemma actions_app t u : actions (t ++ u) = actions t ++ actions u.
Proof. apply List.filter_app. Qed.


(** ** Polling loops *)

Lemma nsidc_poll_terminal fuel url s root w :
  nsidc_terminal s -> nsidc_poll fuel url (Some s) root w = Ok (Some s, root) w.
Proof.
  intros [ -> | [ -> | -> ] ]; destruct fuel; reflexivity.
Qed.

Lemma still_running_terminal job :
  harmony_terminal job -> still_running job = inr false.
Proof.
  intros (st & Hst & H). unfold still_running. rewrite Hst.
  destruct H as [ -> | (p & -> & Hp)]; [done|].
  destruct (eq_str st "running"); [|done].
  simpl. f_equal. apply Z.ltb_ge. lia.
Qed.

Lemma harmony_poll_terminal fuel url job w :
  harmony_terminal job -> harmony_poll fuel url job w = Ok job w.
Proof.
  intros Hs%still_running_terminal.
  destruct fuel; simpl; unfold bind; rewrite Hs; reflexivity.
Qed.

Lemma nsidc_poll_forever url n :
  forall w status root,
    in_progress status = true ->
    nsidc_never_done w url ->
    exists w',
      nsidc_poll n url status root w = Running w' /\
      net w' = net w /\ calls w' = (calls w + n)%nat /\
      actions (trace w') = actions (trace w) ++ concat (replicate n (poll_turn url)).
Proof.
  induction n as [|n IH]; intros w status root Hst Hnet.
  - exists w. simpl. rewrite Hst. rewrite app_nil_r. repeat split; lia.
  - destruct (Hnet (calls w)) as (root' & s & (r & Hr & Hok & Hc) & Hfirst & Hs).
    simpl. rewrite Hst.
    unfold bind, print, sleep, emit, urlopen, send, bind. simpl.
    rewrite Hr, Hok. simpl. rewrite Hc. simpl.
    unfold first_text in Hfirst. rewrite Hfirst. simpl.
    match goal with |- context [nsidc_poll n url ?st ?rt ?W] =>
      destruct (IH W st rt) as (w' & Hrun & Hn & Hcalls & Hact) end.
    { destruct Hs as [ -> | -> ]; reflexivity. }
    { exact Hnet. }
    exists w'. rewrite Hrun. split; [done|]. split; [exact Hn|]. split.
    + simpl in Hcalls. lia.
    + rewrite Hact. simpl. rewrite !actions_app. simpl. rewrite <- !app_assoc.
      reflexivity.
Qed.

Lemma harmony_poll_forever url n :
  forall w job p,
    subscript job "status" = inr (VStr "running") ->
    subscript job "progress" = inr (VInt p) -> p < 100 ->
    harmony_never_done w url ->
    exists w',
      harmony_poll n url job w = Running w' /\
      net w' = net w /\ calls w' = (calls w + n)%nat /\
      actions (trace w') = actions (trace w) ++ concat (replicate n (poll_turn url)).
Proof.
  induction n as [|n IH]; intros w job p Hst Hpr Hp Hnet.
  - exists w. simpl. unfold bind, still_running. rewrite Hst, Hpr. simpl.
    replace (p <? 100) with true by (symmetry; apply Z.ltb_lt; lia).
    rewrite app_nil_r. repeat split; lia.
  - destruct (Hnet (calls w)) as (job' & p' & (r & Hr & Hok & Hc) & Hst' & Hpr' & Hp').
    simpl. unfold bind at 1. unfold still_running. rewrite Hst, Hpr. simpl.
    replace (p <? 100) with true by (symmetry; apply Z.ltb_lt; lia).
    unfold bind, print, sleep, emit, urlopen, send, bind. simpl.
    rewrite Hr, Hok. simpl. rewrite Hc. simpl. rewrite Hst'. simpl.
    match goal with |- context [harmony_poll n url ?j ?W] =>
      destruct (IH W j p' Hst' Hpr' Hp') as (w' & Hrun & Hn & Hcalls & Hact) end.
    { exact Hnet. }
    exists w'. rewrite Hrun. split; [done|]. split; [exact Hn|]. split.
    + simpl in Hcalls. lia.
    + rewrite Hact. simpl. rewrite !actions_app. simpl. rewrite <- !app_assoc.
      reflexivity.
Qed.

(** A poll that reports a terminal state is the last one. *)
Lemma nsidc_poll_last fuel url status root w root' s :
  in_progress status = true ->
  answers w (calls w) url (PXml root') ->
  first_text root' "requestStatus" = inr (Some s) ->
  nsidc_terminal s ->
  exists w',
    nsidc_poll (S fuel) url status root w = Ok (Some s, Some root') w' /\
    calls w' = S (calls w) /\
    actions (trace w') = actions (trace w) ++ poll_turn url.
Proof.
  intros Hst (r & Hr & Hok & Hc) Hfirst Hs.
  simpl. rewrite Hst.
  unfold bind, print, sleep, emit, urlopen, send, bind. simpl.
  rewrite Hr, Hok. simpl. rewrite Hc. simpl.
  unfold first_text in Hfirst. rewrite Hfirst. simpl.
  rewrite nsidc_poll_terminal by done.
  eexists. split; [reflexivity|]. split; [reflexivity|].
  simpl. rewrite !actions_app. simpl. rewrite <- !app_assoc. reflexivity.
Qed.

Lemma harmony_poll_last fuel url job p w job' :
  subscript job "status" = inr (VStr "running") ->
  subscript job "progress" = inr (VInt p) -> p < 100 ->
  answers w (calls w) url (PJson job') ->
  harmony_terminal job' ->
  exists w',
    harmony_poll (S fuel) url job w = Ok job' w' /\
    calls w' = S (calls w) /\
    actions (trace w') = actions (trace w) ++ poll_turn url.
Proof.
  intros Hst Hpr Hp (r & Hr & Hok & Hc) Hterm.
  simpl. unfold bind at 1. unfold still_running. rewrite Hst, Hpr. simpl.
  replace (p <? 100) with true by (symmetry; apply Z.ltb_lt; lia).
  unfold bind, print, sleep, emit, urlopen, send, bind. simpl.
  rewrite Hr, Hok. simpl. rewrite Hc. simpl.
  destruct Hterm as (st' & Hst' & Hterm). rewrite Hst'. simpl.
  rewrite harmony_poll_terminal by (exists st'; done).
  eexists. split; [reflexivity|]. split; [reflexivity|].
  simpl. rewrite !actions_app. simpl. rewrite <- !app_assoc. reflexivity.
Qed.

(** C1. A terminal state ends the polling loop: on NSIDC for [complete],
    [complete_with_errors] and [failed], on Harmony when the status is not
    [running] or the progress has reached 100.  The loop returns the snapshot
    it was given and leaves the world as it is, so no further poll is sent;
    and when a poll brings the terminal state, that poll is the last and its
    snapshot is the loop's result. *)
Theorem poll_exits_on_terminal
    (fuel : nat) (url : string) (w : world)
    (s : string) (root : option element) (job : pyval)
    (status0 : option string) (root' : element)
    (url_h : string) (w_h : world) (job0 : pyval) (p0 : Z) :
  nsidc_terminal s ->
  harmony_terminal job ->
  in_progress status0 = true ->
  answers w (calls w) url (PXml root') ->
  first_text root' "requestStatus" = inr (Some s) ->
  subscript job0 "status" = inr (VStr "running") ->
  subscript job0 "progress" = inr (VInt p0) -> p0 < 100 ->
  answers w_h (calls w_h) url_h (PJson job) ->
  nsidc_poll fuel url (Some s) root w = Ok (Some s, root) w /\
  harmony_poll fuel url_h job w_h = Ok job w_h /\
  (exists w', nsidc_poll (S fuel) url status0 root w = Ok (Some s, Some root') w' /\
              calls w' = S (calls w) /\
              actions (trace w') = actions (trace w) ++ poll_turn url) /\
  (exists w', harmony_poll (S fuel) url_h job0 w_h = Ok job w' /\
              calls w' = S (calls w_h) /\
              actions (trace w') = actions (trace w_h) ++ poll_turn url_h).
Proof.
  intros Hs Hjob Hst0 Hans Hfirst Hst Hpr Hp Hans_h.
  split; [by apply nsidc_poll_terminal|].
  split; [by apply harmony_poll_terminal|].
  split; [by apply nsidc_poll_last|].
  by eapply harmony_poll_last.
Qed.

Lemma poll_exits_on_terminal_witness :
  let w := fresh (always (PXml (status_xml "failed"))) in
  let w_h := fresh (always (PJson (job_doc "running" 100 []))) in
  nsidc_poll 3 "u" (Some "failed") None w = Ok (Some "failed", None) w /\
  harmony_poll 3 "j" (job_doc "running" 100 []) w_h = Ok (job_doc "running" 100 []) w_h /\
  (exists w', nsidc_poll 4 "u" (Some "pending") None w
                = Ok (Some "failed", Some (status_xml "failed")) w' /\
              calls w' = S (calls w) /\
              actions (trace w') = actions (trace w) ++ poll_turn "u") /\
  (exists w', harmony_poll 4 "j" (job_doc "running" 40 []) w_h
                = Ok (job_doc "running" 100 []) w' /\
              calls w' = S (calls w_h) /\
              actions (trace w') = actions (trace w_h) ++ poll_turn "j").
Proof.
  intros w w_h.
  apply (poll_exits_on_terminal 3 "u" w "failed" None (job_doc "running" 100 [])
           (Some "pending") (status_xml "failed") "j" w_h (job_doc "running" 40 []) 40).
  - right; right; reflexivity.
  - exists (VStr "running"). split; [reflexivity|]. right. exists 100. split; [reflexivity|lia].
  - reflexivity.
  - eexists. split; [reflexivity|]. split; reflexivity.
  - reflexivity.
  - reflexivity.
  - reflexivity.
  - lia.
  - eexists. split; [reflexivity|]. split; reflexivity.
Defined.

(** C2. While the state is not terminal the loop goes on: each turn pauses
    for exactly 10 seconds and then sends exactly one status request, and
    there is no bound on the turns.  Against services that never report a
    terminal state, the loop is still running after [n] turns, for every [n]. *)
Theorem poll_never_gives_up
    (n : nat) (url : string) (w : world) (status : option string) (root : option element)
    (url_h : string) (w_h : world) (job : pyval) (p : Z) :
  in_progress status = true ->
  nsidc_never_done w url ->
  subscript job "status" = inr (VStr "running") ->
  subscript job "progress" = inr (VInt p) -> p < 100 ->
  harmony_never_done w_h url_h ->
  (exists w', nsidc_poll n url status root w = Running w' /\
              calls w' = (calls w + n)%nat /\
              actions (trace w') =
                actions (trace w) ++ concat (replicate n [ESleep 10; ENet (Urlopen url)])) /\
  (exists w', harmony_poll n url_h job w_h = Running w' /\
              calls w' = (calls w_h + n)%nat /\
              actions (trace w') =
                actions (trace w_h) ++ concat (replicate n [ESleep 10; ENet (Urlopen url_h)])).
Proof.
  intros Hst Hnet Hjs Hjp Hp Hnet_h. split.
  - destruct (nsidc_poll_forever url n w status root Hst Hnet) as (w' & H1 & _ & H2 & H3).
    by exists w'.
  - destruct (harmony_poll_forever url_h n w_h job p Hjs Hjp Hp Hnet_h)
      as (w' & H1 & _ & H2 & H3).
    by exists w'.
Qed.

Lemma poll_never_gives_up_witness :
  let w := fresh (always (PXml (status_xml "processing"))) in
  let w_h := fresh (always (PJson (job_doc "running" 40 []))) in
  (exists w', nsidc_poll 5 "u" (Some "pending") None w = Running w' /\
              calls w' = (calls w + 5)%nat /\
              actions (trace w') =
                actions (trace w) ++ concat (replicate 5 [ESleep 10; ENet (Urlopen "u")])) /\
  (exists w', harmony_poll 5 "j" (job_doc "running" 40 []) w_h = Running w' /\
              calls w' = (calls w_h + 5)%nat /\
              actions (trace w') =
                actions (trace w_h) ++ concat (replicate 5 [ESleep 10; ENet (Urlopen "j")])).
Proof.
  intros w w_h.
  apply (poll_never_gives_up 5 "u" w (Some "pending") None "j" w_h (job_doc "running" 40 []) 40).
  - reflexivity.
  - intros i. exists (status_xml "processing"), "processing".
    split; [eexists; split; [reflexivity|split; reflexivity]|].
    split; [reflexivity|]. by right.
  - reflexivity.
  - reflexivity.
  - lia.
  - intros i. exists (job_doc "running" 40 []), 40.
    split; [eexists; split; [reflexivity|split; reflexivity]|].
    split; [reflexivity|]. split; [reflexivity|lia].
Defined.

(** ** What a computation leaves alone *)

Lemma keeps_ret {A X} (pr : world -> X) (a : A) : keeps pr (ret a).
Proof. by intros w. Qed.

Lemma keeps_raise {A X} (pr : world -> X) e : keeps pr (@raise world A e).
Proof. by intros w. Qed.

Lemma keeps_running {A X} (pr : world -> X) : keeps pr (@running world A).
Proof. by intros w. Qed.

Lemma keeps_lift {A X} (pr : world -> X) (r : exn + A) : keeps pr (lift r).
Proof. by destruct r. Qed.

Lemma keeps_bind {A B X} (pr : world -> X) (m : M world A) (k : A -> M world B) :
  keeps pr m -> (forall a, keeps pr (k a)) -> keeps pr (bind m k).
Proof.
  intros Hm Hk w. unfold bind. specialize (Hm w).
  destruct (m w) as [a w'|e w'|w']; simpl in *; [|done..].
  by rewrite Hk.
Qed.

Lemma keeps_try {A X} (pr : world -> X) (m : M world A) c h :
  keeps pr m -> (forall e, keeps pr (h e)) -> keeps pr (try_except m c h).
Proof.
  intros Hm Hh w. unfold try_except. specialize (Hm w).
  destruct (m w) as [a w'|e w'|w']; simpl in *; [done| |done].
  destruct (c e); [|done]. by rewrite Hh.
Qed.

Lemma keeps_for_each {A X} (pr : world -> X) (xs : list A) body :
  (forall x, keeps pr (body x)) -> keeps pr (for_each xs body).
Proof.
  intros Hb. induction xs as [|x xs IH]; [apply keeps_ret|].
  simpl. apply keeps_bind; [apply Hb|]. intros _. apply IH.
Qed.

Lemma keeps_emit {X} (pr : world -> X) e : silent pr -> keeps pr (emit e).
Proof. intros Hs w. apply Hs. Qed.

Lemma keeps_send {X} (pr : world -> X) rq : silent pr -> keeps pr (send rq).
Proof. intros Hs w. apply Hs. Qed.

Lemma keeps_on_fs {A X} (pr : world -> X) (m : M Fs.t A) : fs_blind pr -> keeps pr (on_fs m).
Proof. intros Hs w. unfold on_fs. destruct (m (fs w)); apply Hs. Qed.

Lemma keeps_get {X} (pr : world -> X) : keeps pr get.
Proof. by intros w. Qed.

Lemma keeps_getdict {X} (pr : world -> X) d : keeps pr (getdict d).
Proof. intros w. unfold getdict. by destruct (heap w !! d). Qed.

Lemma silent_heap : silent heap. Proof. by intros w n t. Qed.
Lemma silent_fs : silent fs. Proof. by intros w n t. Qed.
Lemma silent_cwd : silent cwd. Proof. by intros w n t. Qed.
Lemma silent_net : silent net. Proof. by intros w n t. Qed.
Lemma fs_blind_heap : fs_blind heap. Proof. by intros w f. Qed.
Lemma fs_blind_cwd : fs_blind cwd. Proof. by intros w f. Qed.
Lemma fs_blind_net : fs_blind net. Proof. by intros w f. Qed.
Lemma fs_blind_trace : fs_blind trace. Proof. by intros w f. Qed.
Lemma fs_blind_calls : fs_blind calls. Proof. by intros w f. Qed.

Create HintDb keeps.
#[local] Hint Resolve silent_heap silent_fs silent_cwd silent_net
  fs_blind_heap fs_blind_cwd fs_blind_net fs_blind_trace fs_blind_calls : keeps.

(** Decompose a computation along its binds and case distinctions. *)
Ltac keeps_step :=
  match goal with
  | |- keeps _ (bind _ _) => apply keeps_bind; [|intros ?]
  | |- keeps _ (ret _) => apply keeps_ret
  | |- keeps _ (raise _) => apply keeps_raise
  | |- keeps _ running => apply keeps_running
  | |- keeps _ (lift _) => apply keeps_lift
  | |- keeps _ (try_except _ _ _) => apply keeps_try; [|intros ?]
  | |- keeps _ (for_each _ _) => apply keeps_for_each; intros ?
  | |- keeps _ (emit _) => apply keeps_emit; auto with keeps
  | |- keeps _ (print _) => apply keeps_emit; auto with keeps
  | |- keeps _ (print_f _) => apply keeps_emit; auto with keeps
  | |- keeps _ (pprint _) => apply keeps_emit; auto with keeps
  | |- keeps _ (sleep _) => apply keeps_emit; auto with keeps
  | |- keeps _ (send _) => apply keeps_send; auto with keeps
  | |- keeps _ (on_fs _) => apply keeps_on_fs; auto with keeps
  | |- keeps _ get => apply keeps_get
  | |- keeps _ (getdict _) => apply keeps_getdict
  | |- keeps _ (match ?x with _ => _ end) => destruct x
  | |- keeps _ (if ?x then _ else _) => destruct x
  end.

Lemma keeps_urlopen {X} (pr : world -> X) url : silent pr -> keeps pr (urlopen url).
Proof. intros Hs. unfold urlopen. repeat keeps_step. Qed.

Lemma keeps_requests_send {X} (pr : world -> X) rq : silent pr -> keeps pr (requests_send rq).
Proof. intros Hs. unfold requests_send. repeat keeps_step. Qed.

Lemma keeps_nsidc_poll {X} (pr : world -> X) fuel url :
  silent pr -> forall status root, keeps pr (nsidc_poll fuel url status root).
Proof.
  intros Hs. induction fuel as [|n IH]; intros status root; simpl.
  - repeat keeps_step.
  - destruct (in_progress status); [|apply keeps_ret].
    repeat first [apply keeps_urlopen; assumption | apply IH | keeps_step].
Qed.

Lemma keeps_harmony_poll {X} (pr : world -> X) fuel url :
  silent pr -> forall job, keeps pr (harmony_poll fuel url job).
Proof.
  intros Hs. induction fuel as [|n IH]; intros job; simpl.
  - repeat keeps_step.
  - repeat first [apply keeps_urlopen; assumption | apply IH | keeps_step].
Qed.

(** ** The file system *)

Lemma child_name_spec top p n : Fs.child_name top p = Some n <-> p = top ++ [n].
Proof.
  revert p. induction top as [|a top IH]; intros p.
  - destruct p as [|b [|c p]]; simpl; split; intros H; by simplify_eq.
  - destruct p as [|b p]; simpl; [split; intros H; by simplify_eq|].
    destruct (String.eqb_spec a b) as [->|Hne].
    + rewrite IH. split; intros H; by simplify_eq.
    + split; intros H; by simplify_eq.
Qed.

Lemma elem_of_entries (f : Fs.t) top n nd :
  (n, nd) ∈ Fs.entries f top <-> f !! (top ++ [n]) = Some nd.
Proof.
  unfold Fs.entries. rewrite list_elem_of_omap. split.
  - intros ([k v] & Hin & Hg). apply elem_of_map_to_list in Hin. simpl in Hg.
    destruct (Fs.child_name top k) as [m|] eqn:Hc; [|done].
    simplify_eq. apply child_name_spec in Hc. by subst.
  - intros Hl. exists (top ++ [n], nd). split; [by apply elem_of_map_to_list|].
    simpl. by rewrite (proj2 (child_name_spec top (top ++ [n]) n) eq_refl).
Qed.

Lemma NoDup_entries (f : Fs.t) top : NoDup (Fs.entries f top).*1.
Proof.
  unfold Fs.entries.
  pose proof (NoDup_fst_map_to_list f) as Hnd.
  induction (map_to_list f) as [|[k v] l IH]; simpl; [constructor|].
  inversion Hnd as [|? ? Hk Hl]; subst.
  destruct (Fs.child_name top k) as [m|] eqn:Hc; [|by apply IH].
  simpl. constructor; [|by apply IH].
  apply child_name_spec in Hc. subst k.
  intros Hin. apply Hk.
  apply list_elem_of_fmap in Hin as ([m' nd] & -> & Hin).
  apply list_elem_of_omap in Hin as ([k' v'] & Hin & Hg). simpl in Hg.
  destruct (Fs.child_name top k') as [m''|] eqn:Hc'; [|done].
  simplify_eq. apply child_name_spec in Hc'. subst k'.
  apply list_elem_of_fmap. by exists (top ++ [m'], nd).
Qed.

Lemma dirname_snoc p n : Fs.dirname (p ++ [n]) = p.
Proof. apply removelast_last. Qed.

Lemma basename_snoc p n : Fs.basename (p ++ [n]) = n.
Proof. apply last_last. Qed.

Lemma snoc_not_nil {A} (p : list A) n : p ++ [n] <> [].
Proof. by destruct p. Qed.

Lemma is_dir_exists f p : Fs.is_dir f p = true -> Fs.path_exists f p = true.
Proof.
  destruct p as [|a p]; [done|]. simpl.
  destruct (f !! (a :: p)) as [[]|] eqn:H; [done| |done].
  intros _. apply bool_decide_eq_true. by eexists.
Qed.

Lemma is_dir_snoc f p n : Fs.is_dir f (p ++ [n]) = true <-> f !! (p ++ [n]) = Some NDir.
Proof.
  unfold Fs.is_dir. destruct (p ++ [n]) eqn:E; [by destruct p|].
  destruct (f !! (s :: l)) as [[]|]; split; intros; by simplify_eq.
Qed.

Lemma path_exists_snoc f p n :
  Fs.path_exists f (p ++ [n]) = true <-> is_Some (f !! (p ++ [n])).
Proof.
  unfold Fs.path_exists. destruct (p ++ [n]) eqn:E; [by destruct p|].
  apply bool_decide_eq_true.
Qed.

Lemma mkdir_ok f p n :
  Fs.path_exists f (p ++ [n]) = false -> Fs.is_dir f p = true ->
  Fs.mkdir (p ++ [n]) f = Ok tt (<[p ++ [n] := NDir]> f).
Proof.
  intros He Hd. unfold Fs.mkdir, bind, get. rewrite He, dirname_snoc.
  by rewrite (is_dir_exists _ _ Hd), Hd.
Qed.

(** ** The NSIDC client *)

Lemma nsidc_prelude fuel api w root1 id root2 status :
  Fs.is_dir (fs w) (cwd w) = true ->
  answers w (calls w) api (PXml root1) ->
  first_text root1 "order" = inr (Some id) ->
  answers w (S (calls w)) (nsidc_status_url id) (PXml root2) ->
  first_text root2 "requestStatus" = inr status ->
  request_nsidc_data fuel api w =
    nsidc_rest fuel (outputs_dir w) id status (nsidc_started w api id).
Proof.
  intros Hcwd (r1 & Hr1 & Hok1 & Hc1) Hid (r2 & Hr2 & Hok2 & Hc2) Hst.
  unfold first_text, nsidc_status_url in *. simpl in Hr2.
  assert (on_fs (Fs.mkdir (outputs_dir w)) w =
          if Fs.path_exists (fs w) (outputs_dir w) then Raise (OSError EEXIST) w
          else Ok tt (with_fs w (<[outputs_dir w := NDir]> (fs w)))) as Hmk.
  { unfold on_fs, outputs_dir.
    destruct (Fs.path_exists (fs w) (cwd w ++ ["Outputs"])) eqn:Hex.
    - unfold Fs.mkdir, bind, get. rewrite Hex. by destruct w.
    - by rewrite mkdir_ok. }
  unfold request_nsidc_data, nsidc_rest, nsidc_started, fs_with_outputs.
  unfold bind at 1. unfold get at 1. unfold bind at 1.
  destruct (Fs.path_exists (fs w) (outputs_dir w)) eqn:Hex.
  - unfold bind, ret, urlopen, send, print, emit, bind. simpl.
    rewrite Hr1, Hok1. simpl. rewrite Hc1. simpl. rewrite Hid. simpl.
    rewrite Hr2, Hok2. simpl. rewrite Hc2. simpl. rewrite Hst. simpl.
    rewrite <- !app_assoc. simpl. by destruct w.
  - rewrite Hmk.
    unfold bind, ret, urlopen, send, print, emit, bind. simpl.
    rewrite Hr1, Hok1. simpl. rewrite Hc1. simpl. rewrite Hid. simpl.
    rewrite Hr2, Hok2. simpl. rewrite Hc2. simpl. rewrite Hst. simpl.
    rewrite <- !app_assoc. simpl. reflexivity.
Qed.

Lemma reads_first_text root tag txt :
  reads root tag txt -> first_text root tag = inr (Some txt).
Proof.
  intros (before & e & c & cs & after & Hch & Htag & Hec & Htxt & Hbefore).
  unfold first_text, findall_children_of. rewrite Hch.
  rewrite List.filter_app, flat_map_app. simpl.
  rewrite Htag, String.eqb_refl. simpl. rewrite Hec.
  assert (flat_map elem_children
            (List.filter (fun e0 => String.eqb (elem_tag e0) tag) before) = []) as ->.
  { clear Hch. induction Hbefore as [|b before Hb _ IH]; [done|]. simpl.
    destruct (String.eqb_spec (elem_tag b) tag) as [Ht|_]; [|exact IH].
    simpl. by rewrite (Hb Ht), IH. }
  simpl. unfold index. simpl. by rewrite Htxt.
Qed.

Lemma report_errors_skip status root w :
  status_is status "complete_with_errors" = false ->
  status_is status "failed" = false ->
  nsidc_report_errors status root w = Ok tt w.
Proof. intros H1 H2. unfold nsidc_report_errors. by rewrite H1, H2. Qed.

Lemma report_errors_unbound status w :
  status_is status "complete_with_errors" || status_is status "failed" = true ->
  nsidc_report_errors status None w = Raise (UnboundLocalError "loop_root") w.
Proof. intros H. unfold nsidc_report_errors. by rewrite H. Qed.


(** The download block sends one request, for the zip of the order, and
    nothing after it but a line of text. *)
Lemma download_trace out id status w :
  status_is status "complete" || status_is status "complete_with_errors" = true ->
  exists rest,
    trace (state_of ((nsidc_download out id status ;;! on_fs (flatten out)) w)) =
      trace w ++ [EPrint [VStr "Job status is "; of_text status];
                  EPrint [VStr "Zip download URL: "; VStr (nsidc_zip_url id)];
                  EPrint [VStr "Beginning download of zipped output..."];
                  ENet (Urlopen (nsidc_zip_url id))] ++ rest /\
    actions rest = [].
Proof.
  intros Hst. unfold nsidc_download. rewrite Hst.
  unfold bind, print, emit, urlopen, send, bind. simpl.
  fold (nsidc_zip_url id).
  destruct (net w (calls w) (Urlopen (nsidc_zip_url id))) as [e|r]; simpl.
  { exists []. by rewrite <- !app_assoc. }
  destruct (ok2xx r); simpl; [|exists []; by rewrite <- !app_assoc].
  destruct (ZipFile (content r)) as [e|z]; simpl; [exists []; by rewrite <- !app_assoc|].
  unfold on_fs. simpl.
  destruct (Fs.extractall out z (fs w)) as [[] f|e f|f]; simpl;
    [|exists []; by rewrite <- !app_assoc..].
  exists [EPrint [VStr "Download is complete."]].
  destruct (flatten out f); simpl; by rewrite <- !app_assoc.
Qed.



Lemma for_each_unchanged {S A} (xs : list A) (body : A -> M S unit) s :
  (forall x, x ∈ xs -> body x s = Ok tt s) -> for_each xs body s = Ok tt s.
Proof.
  induction xs as [|x xs IH]; intros H; [done|].
  simpl. unfold bind. rewrite H by left. apply IH. intros y Hy. apply H. by right.
Qed.

Lemma elem_of_nondirs n ents :
  n ∈ Fs.nondirs ents -> exists nd, (n, nd) ∈ ents.
Proof.
  unfold Fs.nondirs. intros ([m nd] & -> & Hin)%list_elem_of_fmap.
  apply list_elem_of_In, filter_In in Hin as [Hin _].
  exists nd. by apply list_elem_of_In.
Qed.

(** In a folder that holds files only, every move is refused (the file is
    already there), the refusal is swallowed, and nothing changes. *)
Lemma flatten_flat (f : Fs.t) out :
  Fs.subdirs (Fs.entries f out) = [] -> flatten out f = Ok tt f.
Proof.
  intros Hflat. unfold flatten, Fs.walk, bind, get. simpl.
  unfold bind, get. destruct (Fs.is_dir f out) eqn:Hd; [|done].
  rewrite Hflat. simpl. unfold flatten_step, bind. simpl.
  rewrite for_each_unchanged; [done|].
  intros file (nd & Hin)%elem_of_nondirs. apply elem_of_entries in Hin.
  unfold try_except, Fs.move, bind, get. rewrite Hd.
  rewrite bool_decide_eq_false_2.
  2:{ intros Heq. apply (f_equal length) in Heq. rewrite length_app in Heq. simpl in Heq. lia. }
  rewrite basename_snoc.
  by rewrite (proj2 (path_exists_snoc f out file)).
Qed.

(** C8 (as the code has it).  When the submission response holds
    [<order><id>ORD1</id></order>] under its root, the order identifier is
    [ORD1]: the status is asked at [.../egi/request/ORD1].  When the status
    response holds [complete] as the text of the first child element of
    [<requestStatus>], the state is final at once (no pause, no further
    status request), and the next request is for the zip at the esir base URL
    followed by [ORD1.zip]. *)
Theorem nsidc_scenario_ORD1 (fuel : nat) (api : string) (w : world) (root1 root2 : element) :
  Fs.is_dir (fs w) (cwd w) = true ->
  answers w (calls w) api (PXml root1) ->
  reads root1 "order" "ORD1" ->
  answers w (S (calls w)) "https://n5eil02u.ecs.nsidc.org/egi/request/ORD1" (PXml root2) ->
  reads root2 "requestStatus" "complete" ->
  exists rest,
    trace (state_of (request_nsidc_data fuel api w)) =
      trace w ++
      [ENet (Urlopen api);
       EPrint [VStr "Order status URL: ";
               VStr "https://n5eil02u.ecs.nsidc.org/egi/request/ORD1"];
       ENet (Urlopen "https://n5eil02u.ecs.nsidc.org/egi/request/ORD1");
       EPrint [VStr "Job status is "; VStr "complete"];
       EPrint [VStr "Zip download URL: ";
               VStr "https://n5eil02u.ecs.nsidc.org/esir/ORD1.zip"];
       EPrint [VStr "Beginning download of zipped output..."];
       ENet (Urlopen "https://n5eil02u.ecs.nsidc.org/esir/ORD1.zip")] ++ rest /\
    actions rest = [].
Proof.
  intros Hcwd Ha1 Hr1%reads_first_text Ha2 Hr2%reads_first_text.
  rewrite (nsidc_prelude fuel api w root1 "ORD1" root2 (Some "complete")) by done.
  unfold nsidc_rest. unfold bind at 1.
  rewrite nsidc_poll_terminal by (by left).
  cbn [fst snd]. unfold bind at 1. rewrite report_errors_skip by done.
  destruct (download_trace (outputs_dir w) "ORD1" (Some "complete")
              (nsidc_started w api "ORD1") eq_refl) as (rest & Ht & Hrest).
  exists rest. split; [|done].
  rewrite Ht. simpl. rewrite <- !app_assoc. reflexivity.
Qed.

Lemma nsidc_scenario_ORD1_witness :
  exists rest,
    trace (state_of (request_nsidc_data 0 "https://n5eil02u.ecs.nsidc.org/egi/request?x"
                       scenario_nested)) =
      [ENet (Urlopen "https://n5eil02u.ecs.nsidc.org/egi/request?x");
       EPrint [VStr "Order status URL: ";
               VStr "https://n5eil02u.ecs.nsidc.org/egi/request/ORD1"];
       ENet (Urlopen "https://n5eil02u.ecs.nsidc.org/egi/request/ORD1");
       EPrint [VStr "Job status is "; VStr "complete"];
       EPrint [VStr "Zip download URL: ";
               VStr "https://n5eil02u.ecs.nsidc.org/esir/ORD1.zip"];
       EPrint [VStr "Beginning download of zipped output..."];
       ENet (Urlopen "https://n5eil02u.ecs.nsidc.org/esir/ORD1.zip")] ++ rest /\
    actions rest = [].
Proof.
  apply (nsidc_scenario_ORD1 0 "https://n5eil02u.ecs.nsidc.org/egi/request?x"
           scenario_nested scenario_order scenario_status_nested).
  - reflexivity.
  - eexists. split; [reflexivity|]. split; reflexivity.
  - exists [], (Elem "order" None [Elem "id" (Some "ORD1") []]),
      (Elem "id" (Some "ORD1") []), [], [].
    repeat split; constructor.
  - eexists. split; [reflexivity|]. split; reflexivity.
  - exists [], (Elem "requestStatus" None [Elem "status" (Some "complete") []]),
      (Elem "status" (Some "complete") []), [], [].
    repeat split; constructor.
Defined.

(** With the status as the text of [<requestStatus>] itself, as the
    scenario of the specification writes it, [findall("./requestStatus/")]
    finds no element: reading the first status raises [IndexError], and the
    zip is never asked for. *)
Lemma nsidc_scenario_flat_status :
  exists w',
    request_nsidc_data 0 "https://n5eil02u.ecs.nsidc.org/egi/request?x" scenario_flat
      = Raise IndexError w' /\
    requests_of (trace w') =
      [Urlopen "https://n5eil02u.ecs.nsidc.org/egi/request?x";
       Urlopen "https://n5eil02u.ecs.nsidc.org/egi/request/ORD1"].
Proof.
  eexists. split; [vm_compute; reflexivity|]. vm_compute. reflexivity.
Qed.

(** C6.  An order whose very first status is [failed] or
    [complete_with_errors]: the block that should collect and print the
    messages reads [loop_root], which only the loop body binds, and the
    function raises [UnboundLocalError] without printing any message. *)
Theorem nsidc_failed_at_first_check
    (fuel : nat) (api : string) (w : world) (root1 root2 : element) (id s : string) :
  Fs.is_dir (fs w) (cwd w) = true ->
  answers w (calls w) api (PXml root1) ->
  first_text root1 "order" = inr (Some id) ->
  answers w (S (calls w)) (nsidc_status_url id) (PXml root2) ->
  first_text root2 "requestStatus" = inr (Some s) ->
  s = "complete_with_errors" \/ s = "failed" ->
  request_nsidc_data fuel api w =
    Raise (UnboundLocalError "loop_root") (nsidc_started w api id).
Proof.
  intros Hcwd Ha1 Hr1 Ha2 Hr2 Hs.
  rewrite (nsidc_prelude fuel api w root1 id root2 (Some s)) by done.
  unfold nsidc_rest. unfold bind at 1.
  rewrite nsidc_poll_terminal by (destruct Hs; [right; by left|right; by right]).
  cbn [fst snd]. unfold bind at 1. rewrite report_errors_unbound; [done|].
  destruct Hs as [ -> | -> ]; reflexivity.
Qed.

Lemma nsidc_failed_at_first_check_witness :
  request_nsidc_data 7 "req" scenario_failed_at_once =
    Raise (UnboundLocalError "loop_root") (nsidc_started scenario_failed_at_once "req" "5000").
Proof.
  apply (nsidc_failed_at_first_check 7 "req" scenario_failed_at_once
           (order_xml "5000") (status_xml "failed") "5000" "failed").
  - reflexivity.
  - eexists. split; [reflexivity|]. split; reflexivity.
  - reflexivity.
  - eexists. split; [reflexivity|]. split; reflexivity.
  - reflexivity.
  - by right.
Defined.





(** ** The CMR searches *)

Lemma bind_Ok {S A B} (m : M S A) (k : A -> M S B) s a s' :
  m s = Ok a s' -> bind m k s = k a s'.
Proof. intros H. unfold bind. by rewrite H. Qed.

Lemma bind_Raise {S A B} (m : M S A) (k : A -> M S B) s e s' :
  m s = Raise e s' -> bind m k s = Raise e s'.
Proof. intros H. unfold bind. by rewrite H. Qed.

Lemma setitem_ok d k v w m :
  heap w !! d = Some m ->
  setitem d k v w = Ok tt (with_heap w (<[d := <[k := v]> m]> (heap w))).
Proof. intros H. unfold setitem. by rewrite H. Qed.

Lemma getdict_ok d w m : heap w !! d = Some m -> getdict d w = Ok m w.
Proof. intros H. unfold getdict. by rewrite H. Qed.

Lemma getitem_ok d k w m v :
  heap w !! d = Some m -> m !! k = Some v -> getitem d k w = Ok v w.
Proof. intros H Hk. unfold getitem, bind. by rewrite (getdict_ok _ _ _ H), Hk. Qed.

(** When the request is refused, the exception reaches the first [except]
    clause, whose class name is not bound in the module. *)
Lemma cmr_try_refused w rq :
  refused w (calls w) rq ->
  let w' := World (net w) (S (calls w)) (trace w ++ [ENet rq]) (fs w) (cwd w) (heap w) in
  (exists e, requests_send rq w = Raise e w' /\ cmr_except e w' = Raise (NameError "HTTPError") w') \/
  (exists r, requests_send rq w = Ok r w' /\
             try_except (raise_for_status r) (fun _ => true) cmr_except w'
               = Raise (NameError "HTTPError") w').
Proof.
  intros [(e & He)|(r & Hr & Hcode)]; cbn zeta.
  - left. exists e. unfold requests_send, bind, send. rewrite He. done.
  - right. exists r. unfold requests_send, bind, send. rewrite Hr. split; [done|].
    unfold try_except, raise_for_status.
    replace (400 <=? status_code r) with true by (symmetry; apply Z.leb_le; lia).
    replace (status_code r <? 600) with true by (symmetry; apply Z.ltb_lt; lia).
    done.
Qed.

Section Searches.
Context (py_str : pyval -> string) (py_int : string -> exn + Z)
        (Float : Type) (py_float : pyval -> exn + Float)
        (fmt_sum_2f : list Float -> string).

Lemma search_granules_refused sp token fmt w d :
  heap w !! sp = Some d ->
  let rq := Post ("https://cmr.earthdata.nasa.gov/search/granules" +:+ "." +:+ fmt)
              cmr_parameters (<["token" := token]> d) None in
  refused w (calls w) rq ->
  search_granules py_int Float py_float fmt_sum_2f sp token None fmt w =
    Raise (NameError "HTTPError")
      (World (net w) (S (calls w)) (trace w ++ [ENet rq]) (fs w) (cwd w)
             (<[sp := <["token" := token]> d]> (heap w))).
Proof.
  intros Hd rq Href.
  unfold search_granules.
  rewrite (bind_Ok _ _ _ _ _ (setitem_ok sp "token" token w d Hd)).
  unfold bind at 1. unfold ret at 1. cbv beta iota.
  set (w1 := with_heap w _).
  assert (heap w1 !! sp = Some (<["token" := token]> d)) as Hd1
    by (simpl; apply lookup_insert_eq).
  assert (refused w1 (calls w1) rq) as Href1 by exact Href.
  destruct (cmr_try_refused w1 rq Href1) as [(e & Hsend & Hexc)|(r & Hsend & Hexc)].
  - match goal with |- bind ?m _ _ = _ =>
      assert (m w1 = Raise (NameError "HTTPError")
                       (World (net w1) (S (calls w1)) (trace w1 ++ [ENet rq])
                              (fs w1) (cwd w1) (heap w1))) as Htry end.
    { unfold try_except.
      rewrite (bind_Ok _ _ _ _ _ (getdict_ok _ _ _ Hd1)).
      fold cmr_parameters. fold rq.
      rewrite (bind_Raise _ _ _ _ _ Hsend).
      by rewrite (bind_Raise _ _ _ _ _ Hexc). }
    by rewrite (bind_Raise _ _ _ _ _ Htry).
  - match goal with |- bind ?m _ _ = _ =>
      assert (m w1 = Ok (Some r)
                       (World (net w1) (S (calls w1)) (trace w1 ++ [ENet rq])
                              (fs w1) (cwd w1) (heap w1))) as Htry end.
    { unfold try_except.
      rewrite (bind_Ok _ _ _ _ _ (getdict_ok _ _ _ Hd1)).
      fold cmr_parameters. fold rq.
      by rewrite (bind_Ok _ _ _ _ _ Hsend). }
    rewrite (bind_Ok _ _ _ _ _ Htry).
    by rewrite (bind_Raise _ _ _ _ _ Hexc).
Qed.

Lemma search_services_refused sp token fmt w d :
  heap w !! sp = Some d ->
  let rq := Post ("https://cmr.earthdata.nasa.gov/search/collections" +:+ "." +:+ fmt)
              cmr_parameters (<["token" := token]> d) None in
  refused w (calls w) rq ->
  search_services py_str py_int sp token fmt w =
    Raise (NameError "HTTPError")
      (World (net w) (S (calls w)) (trace w ++ [ENet rq]) (fs w) (cwd w)
             (<[sp := <["token" := token]> d]> (heap w))).
Proof.
  intros Hd rq Href.
  unfold search_services.
  rewrite (bind_Ok _ _ _ _ _ (setitem_ok sp "token" token w d Hd)).
  set (w1 := with_heap w _).
  assert (heap w1 !! sp = Some (<["token" := token]> d)) as Hd1
    by (simpl; apply lookup_insert_eq).
  assert (refused w1 (calls w1) rq) as Href1 by exact Href.
  destruct (cmr_try_refused w1 rq Href1) as [(e & Hsend & Hexc)|(r & Hsend & Hexc)].
  - match goal with |- bind ?m _ _ = _ =>
      assert (m w1 = Raise (NameError "HTTPError")
                       (World (net w1) (S (calls w1)) (trace w1 ++ [ENet rq])
                              (fs w1) (cwd w1) (heap w1))) as Htry end.
    { unfold try_except.
      rewrite (bind_Ok _ _ _ _ _ (getdict_ok _ _ _ Hd1)).
      fold cmr_parameters. fold rq.
      rewrite (bind_Raise _ _ _ _ _ Hsend).
      by rewrite (bind_Raise _ _ _ _ _ Hexc). }
    by rewrite (bind_Raise _ _ _ _ _ Htry).
  - match goal with |- bind ?m _ _ = _ =>
      assert (m w1 = Ok (Some r)
                       (World (net w1) (S (calls w1)) (trace w1 ++ [ENet rq])
                              (fs w1) (cwd w1) (heap w1))) as Htry end.
    { unfold try_except.
      rewrite (bind_Ok _ _ _ _ _ (getdict_ok _ _ _ Hd1)).
      fold cmr_parameters. fold rq.
      by rewrite (bind_Ok _ _ _ _ _ Hsend). }
    rewrite (bind_Ok _ _ _ _ _ Htry).
    by rewrite (bind_Raise _ _ _ _ _ Hexc).
Qed.

(** C7.  When the request of a CMR search is refused (the transport
    fails, or the status is 4xx or 5xx), the exception meets
    [except HTTPError], a name the module never binds: the search raises
    [NameError] to its caller, and prints nothing. *)
Theorem cmr_search_refused_raises
    (sp : loc) (token : pyval) (fmt : string) (w : world) (d : gmap string pyval) :
  heap w !! sp = Some d ->
  let rq_g := Post ("https://cmr.earthdata.nasa.gov/search/granules" +:+ "." +:+ fmt)
                cmr_parameters (<["token" := token]> d) None in
  let rq_s := Post ("https://cmr.earthdata.nasa.gov/search/collections" +:+ "." +:+ fmt)
                cmr_parameters (<["token" := token]> d) None in
  refused w (calls w) rq_g ->
  refused w (calls w) rq_s ->
  search_granules py_int Float py_float fmt_sum_2f sp token None fmt w =
    Raise (NameError "HTTPError")
      (World (net w) (S (calls w)) (trace w ++ [ENet rq_g]) (fs w) (cwd w)
             (<[sp := <["token" := token]> d]> (heap w))) /\
  search_services py_str py_int sp token fmt w =
    Raise (NameError "HTTPError")
      (World (net w) (S (calls w)) (trace w ++ [ENet rq_s]) (fs w) (cwd w)
             (<[sp := <["token" := token]> d]> (heap w))).
Proof.
  intros Hd rq_g rq_s Hg Hs. split.
  - by apply search_granules_refused.
  - by apply search_services_refused.
Qed.

Lemma bind_lift {S A B} (r : exn + A) (k : A -> M S B) s a :
  r = inr a -> bind (lift r) k s = k a s.
Proof. by intros ->. Qed.

Lemma keeps_heap_search_granules sp token geojson fmt w d :
  heap w !! sp = Some d ->
  heap (state_of (search_granules py_int Float py_float fmt_sum_2f sp token geojson fmt w))
    = <[sp := <["token" := token]> d]> (heap w).
Proof.
  intros Hd. unfold search_granules.
  rewrite (bind_Ok _ _ _ _ _ (setitem_ok sp "token" token w d Hd)).
  match goal with |- heap (state_of (?m ?W)) = _ =>
    transitivity (heap W); [|reflexivity]; generalize W;
    change (keeps heap m) end.
  unfold cmr_except, load_global, raise_for_status, local, Fs.read_file.
  repeat first [apply keeps_requests_send; auto with keeps | keeps_step].
Qed.

Lemma keeps_heap_download_link link : keeps heap (download_link link).
Proof.
  unfold download_link, open_wb.
  repeat first [apply keeps_urlopen; auto with keeps | keeps_step].
Qed.

Lemma keeps_heap_harmony_job fuel sp : keeps heap (harmony_job py_str fuel sp).
Proof.
  unfold harmony_job, getitem, harmony_fetch.
  repeat first [apply keeps_urlopen; auto with keeps
               | apply keeps_harmony_poll; auto with keeps
               | apply keeps_heap_download_link
               | keeps_step].
Qed.

Lemma harmony_parameters fuel sp token w d cid bb b0 b1 b2 b3 more tp t1 t2 more' :
  heap w !! sp = Some d ->
  cmr_finds w (calls w) d cid ->
  d !! "bounding_box" = Some (VStr bb) ->
  split_on comma bb = b0 :: b1 :: b2 :: b3 :: more ->
  d !! "temporal" = Some (VStr tp) ->
  split_on comma tp = t1 :: t2 :: more' ->
  heap (state_of (request_harmony_data py_str fuel sp token w)) =
    <[sp := <["time" := time_of t1 t2]>
              (<["lon" := range_of b0 b2]>
                (<["lat" := range_of b1 b3]>
                  (<["collection_id" := cid]> d)))]> (heap w).
Proof.
  intros Hd (r & cmr & feed & entry & entries & ids & Hr & Hc & Hfeed & Hentry & Hit & Hids)
    Hbb Hsbb Htp Hstp.
  unfold request_harmony_data.
  rewrite (bind_Ok _ _ _ _ _ (getdict_ok _ _ _ Hd)).
  assert (requests_send
            (Get "https://cmr.earthdata.nasa.gov/search/collections.json" (Some d)) w
          = Ok r (World (net w) (S (calls w))
                    (trace w ++ [ENet (Get "https://cmr.earthdata.nasa.gov/search/collections.json"
                                           (Some d))])
                    (fs w) (cwd w) (heap w))) as Hsend.
  { unfold requests_send, bind, send. by rewrite Hr. }
  rewrite (bind_Ok _ _ _ _ _ Hsend). set (w0 := World _ _ _ _ _ _).
  rewrite (bind_lift _ _ _ cmr) by (by rewrite Hc).
  rewrite (bind_lift _ _ _ _ Hfeed), (bind_lift _ _ _ _ Hentry), (bind_lift _ _ _ _ Hit).
  rewrite (bind_lift _ _ _ _ Hids).
  rewrite (bind_lift _ _ _ cid) by done.
  assert (heap w0 !! sp = Some d) as Hd0 by exact Hd.
  rewrite (bind_Ok _ _ _ _ _ (setitem_ok sp "collection_id" cid w0 d Hd0)).
  set (w1 := with_heap w0 _). set (d1 := <["collection_id" := cid]> d).
  assert (heap w1 !! sp = Some d1) as Hd1 by (simpl; apply lookup_insert_eq).
  assert (d1 !! "bounding_box" = Some (VStr bb)) as Hbb1
    by (unfold d1; by rewrite lookup_insert_ne).
  rewrite (bind_Ok _ _ _ _ _ (getitem_ok _ _ _ _ _ Hd1 Hbb1)).
  rewrite (bind_lift _ _ _ (b0 :: b1 :: b2 :: b3 :: more)) by (simpl; by rewrite Hsbb).
  rewrite (bind_lift _ _ _ b1) by done.
  rewrite (bind_Ok _ _ _ _ _ (getitem_ok _ _ _ _ _ Hd1 Hbb1)).
  rewrite (bind_lift _ _ _ (b0 :: b1 :: b2 :: b3 :: more)) by (simpl; by rewrite Hsbb).
  rewrite (bind_lift _ _ _ b3) by done.
  rewrite (bind_Ok _ _ _ _ _ (setitem_ok sp "lat" _ w1 d1 Hd1)).
  set (w2 := with_heap w1 _). set (d2 := <["lat" := _]> d1).
  assert (heap w2 !! sp = Some d2) as Hd2 by (simpl; apply lookup_insert_eq).
  assert (d2 !! "bounding_box" = Some (VStr bb)) as Hbb2
    by (unfold d2; by rewrite lookup_insert_ne).
  rewrite (bind_Ok _ _ _ _ _ (getitem_ok _ _ _ _ _ Hd2 Hbb2)).
  rewrite (bind_lift _ _ _ (b0 :: b1 :: b2 :: b3 :: more)) by (simpl; by rewrite Hsbb).
  rewrite (bind_lift _ _ _ b0) by done.
  rewrite (bind_Ok _ _ _ _ _ (getitem_ok _ _ _ _ _ Hd2 Hbb2)).
  rewrite (bind_lift _ _ _ (b0 :: b1 :: b2 :: b3 :: more)) by (simpl; by rewrite Hsbb).
  rewrite (bind_lift _ _ _ b2) by done.
  rewrite (bind_Ok _ _ _ _ _ (setitem_ok sp "lon" _ w2 d2 Hd2)).
  set (w3 := with_heap w2 _). set (d3 := <["lon" := _]> d2).
  assert (heap w3 !! sp = Some d3) as Hd3 by (simpl; apply lookup_insert_eq).
  assert (d3 !! "temporal" = Some (VStr tp)) as Htp3
    by (unfold d3, d2, d1; by rewrite !lookup_insert_ne).
  rewrite (bind_Ok _ _ _ _ _ (getitem_ok _ _ _ _ _ Hd3 Htp3)).
  rewrite (bind_lift _ _ _ (t1 :: t2 :: more')) by (simpl; by rewrite Hstp).
  rewrite (bind_lift _ _ _ t1) by done.
  rewrite (bind_Ok _ _ _ _ _ (getitem_ok _ _ _ _ _ Hd3 Htp3)).
  rewrite (bind_lift _ _ _ (t1 :: t2 :: more')) by (simpl; by rewrite Hstp).
  rewrite (bind_lift _ _ _ t2) by done.
  rewrite (bind_Ok _ _ _ _ _ (setitem_ok sp "time" _ w3 d3 Hd3)).
  rewrite keeps_heap_harmony_job. simpl.
  by rewrite !insert_insert_eq.
Qed.

(** C9.  The dictionary the caller passes is changed in place.
    [search_granules] sets its key [token] and nothing else, whatever
    happens afterwards; [request_harmony_data] sets [collection_id], [lat],
    [lon] and [time] in the same dictionary, and every other key keeps its
    value. *)
Theorem search_parameters_mutated
    (fuel : nat) (sp : loc) (token : pyval) (geojson : option path) (fmt : string)
    (w w_h : world) (d d_h : gmap string pyval) (cid : pyval)
    (bb b0 b1 b2 b3 : string) (more : list string)
    (tp t1 t2 : string) (more' : list string) :
  heap w !! sp = Some d ->
  heap w_h !! sp = Some d_h ->
  cmr_finds w_h (calls w_h) d_h cid ->
  d_h !! "bounding_box" = Some (VStr bb) ->
  split_on comma bb = b0 :: b1 :: b2 :: b3 :: more ->
  d_h !! "temporal" = Some (VStr tp) ->
  split_on comma tp = t1 :: t2 :: more' ->
  heap (state_of (search_granules py_int Float py_float fmt_sum_2f sp token geojson fmt w))
    = <[sp := <["token" := token]> d]> (heap w) /\
  heap (state_of (request_harmony_data py_str fuel sp token w_h)) =
    <[sp := <["time" := time_of t1 t2]>
              (<["lon" := range_of b0 b2]>
                (<["lat" := range_of b1 b3]>
                  (<["collection_id" := cid]> d_h)))]> (heap w_h).
Proof.
  intros Hd Hd_h Hcmr Hbb Hsbb Htp Hstp. split.
  - by apply keeps_heap_search_granules.
  - by eapply harmony_parameters.
Qed.

End Searches.

Lemma cmr_search_refused_raises_witness :
  let d := <["token" := VStr "tok"]> demo_parameters in
  let rq_g := Post "https://cmr.earthdata.nasa.gov/search/granules.json" cmr_parameters d None in
  let rq_s := Post "https://cmr.earthdata.nasa.gov/search/collections.json" cmr_parameters d None in
  search_granules int_demo unit (fun _ => inr tt) (fun _ => "0.00")
      0%nat (VStr "tok") None "json" scenario_404 =
    Raise (NameError "HTTPError")
      (World (net scenario_404) 1 [ENet rq_g] (fs scenario_404) ["home"] {[ 0%nat := d ]}) /\
  search_services str_demo int_demo 0%nat (VStr "tok") "json" scenario_404 =
    Raise (NameError "HTTPError")
      (World (net scenario_404) 1 [ENet rq_s] (fs scenario_404) ["home"] {[ 0%nat := d ]}).
Proof.
  intros d rq_g rq_s.
  pose proof (cmr_search_refused_raises str_demo int_demo unit (fun _ => inr tt)
                (fun _ => "0.00") 0%nat (VStr "tok") "json" scenario_404 demo_parameters
                eq_refl) as H.
  cbn zeta in H.
  destruct H as [Hg Hs].
  - right. eexists. split; [reflexivity|]. simpl. lia.
  - right. eexists. split; [reflexivity|]. simpl. lia.
  - split.
    + rewrite Hg. f_equal.
    + rewrite Hs. f_equal.
Defined.

Lemma search_parameters_mutated_witness :
  heap (state_of (search_granules int_demo unit (fun _ => inr tt) (fun _ => "0.00")
                    0%nat (VStr "tok") None "json" scenario_down))
    = <[0%nat := <["token" := VStr "tok"]> demo_parameters]> (heap scenario_down) /\
  heap (state_of (request_harmony_data str_demo 2 0%nat (VStr "tok") scenario_cmr)) =
    <[0%nat := <["time" := time_of "2019-06-01T00:00:00Z" "2019-06-02T00:00:00Z"]>
                (<["lon" := range_of "-50" "-45"]>
                  (<["lat" := range_of "70" "75"]>
                    (<["collection_id" := VStr "C1-NSIDC"]> demo_parameters)))]>
      (heap scenario_cmr).
Proof.
  apply (search_parameters_mutated str_demo int_demo unit (fun _ => inr tt) (fun _ => "0.00")
           2 0%nat (VStr "tok") None "json" scenario_down scenario_cmr
           demo_parameters demo_parameters (VStr "C1-NSIDC")
           "-50,70,-45,75" "-50" "70" "-45" "75" []
           "2019-06-01T00:00:00Z,2019-06-02T00:00:00Z"
           "2019-06-01T00:00:00Z" "2019-06-02T00:00:00Z" []).
  - reflexivity.
  - reflexivity.
  - do 6 eexists. repeat split; reflexivity.
  - reflexivity.
  - reflexivity.
  - reflexivity.
  - reflexivity.
Defined.

(** ** Harmony downloads *)

Lemma write_file_ok (f : Fs.t) p n d :
  Fs.is_dir f (p ++ [n]) = false -> Fs.is_dir f p = true ->
  Fs.write_file (p ++ [n]) d f = Ok tt (<[p ++ [n] := NFile d]> f).
Proof.
  intros Hf Hd. unfold Fs.write_file, bind, get.
  by rewrite Hf, dirname_snoc, (is_dir_exists _ _ Hd), Hd.
Qed.



Lemma snoc_neq {A} (p : list A) n : p ++ [n] <> p.
Proof.
  intros H. apply (f_equal length) in H. rewrite length_app in H. simpl in H. lia.
Qed.


Lemma eqb_false s t : s <> t -> String.eqb s t = false.
Proof. intros H. by apply String.eqb_neq. Qed.

Lemma split_on_not_nil c s : split_on c s <> [].
Proof. destruct s as [|a s]; simpl; [done|]. by repeat case_match. Qed.

Lemma index_last_split url : index_last (split_on slash url) = inr (file_name_of url).
Proof.
  unfold index_last, file_name_of.
  pose proof (split_on_not_nil slash url) as Hne.
  induction (split_on slash url) as [|x l IH] using rev_ind; [done|].
  by rewrite last_snoc, last_last.
Qed.

Lemma on_fs_ok {A} (m : M Fs.t A) w a f' :
  m (fs w) = Ok a f' -> on_fs m w = Ok a (with_fs w f').
Proof. intros H. unfold on_fs. by rewrite H. Qed.












(** ** The clean-up walk *)

Section Flatten.
Variable out : path.

Lemma target_length k : length (target out k) = (length out + 1)%nat.
Proof. unfold target. by rewrite length_app. Qed.

Lemma deep_not_target k k0 : deep out k -> k <> target out k0.
Proof.
  intros Hd ->. unfold deep in Hd. rewrite target_length in Hd. lia.
Qed.

Lemma moved_nothing f : moved out (fun _ => False) f f.
Proof. repeat split; intros; done. Qed.

Lemma moved_iff R R' f f' :
  (forall k, R k <-> R' k) -> moved out R f f' -> moved out R' f f'.
Proof.
  intros Heq (H1 & H2 & H3). split; [|split].
  - intros k Hk. apply H1. by apply Heq.
  - intros k d Hk. apply H2. by apply Heq.
  - intros k Hk Ht. apply H3.
    + intros HR. apply Hk. by apply Heq.
    + intros k0 d HR. apply Ht. by apply Heq.
Qed.

(** A region that holds no file and no folder may be added. *)
Lemma moved_widen R R' f f' :
  (forall k, R k -> R' k) ->
  (forall k, R' k -> R k \/ (f !! k = None /\ deep out k)) ->
  moved out R f f' -> moved out R' f f'.
Proof.
  intros Hsub Hrest (H1 & H2 & H3). split; [|split].
  - intros k Hk. destruct (Hrest k Hk) as [HR|[Hnone Hdeep]]; [by apply H1|].
    destruct (f' !! k) as [nd|] eqn:E; [|done].
    assert (R k -> False) as HnR by (intros HR; rewrite (H1 k HR) in E; done).
    rewrite H3 in E; [congruence|done|].
    intros k0 d _ _. by apply deep_not_target.
  - intros k d Hk Hf. apply H2; [|done].
    destruct (Hrest k Hk) as [HR|[Hnone _]]; [done|congruence].
  - intros k Hk Ht. apply H3.
    + intros HR. by apply Hk, Hsub.
    + intros k0 d HR. apply Ht. by apply Hsub.
Qed.

(** One region after another. *)
Lemma moved_compose R1 R2 (U : path -> Prop) f f1 f2 :
  moved out R1 f f1 -> moved out R2 f1 f2 ->
  (forall k, R1 k -> U k) -> (forall k, R2 k -> U k) ->
  (forall k k0 d, U k -> U k0 -> f !! k0 = Some (NFile d) -> k <> target out k0) ->
  (forall k, R1 k -> R2 k -> False) ->
  distinct_names f U ->
  moved out (fun k => R1 k \/ R2 k) f f2.
Proof.
  intros (A1 & A2 & A3) (B1 & B2 & B3) HU1 HU2 Hnt Hdisj Hinj.
  assert (forall k, R2 k -> f1 !! k = f !! k) as Hsame.
  { intros k Hk. apply A3; [by intros ?; eapply Hdisj|].
    intros k0 d Hk0 Hf0. apply (Hnt k k0 d); auto. }
  split; [|split].
  - intros k [Hk|Hk]; [|by apply B1].
    rewrite B3; [by apply A1|by intros ?; eapply Hdisj|].
    intros k0 d Hk0 Hf0. rewrite (Hsame _ Hk0) in Hf0. apply (Hnt k k0 d); auto.
  - intros k d [Hk|Hk] Hf.
    + rewrite B3; [by apply (A2 k)| |].
      * intros Ht. apply (Hnt (target out k) k d); auto.
      * intros k0 d0 Hk0 Hf0 Heq. rewrite (Hsame _ Hk0) in Hf0.
        unfold target in Heq. apply app_inv_head in Heq. simplify_eq.
        assert (k = k0) as -> by (eapply Hinj; eauto).
        by eapply Hdisj.
    + apply B2; [done|]. by rewrite (Hsame _ Hk).
  - intros k Hk Ht.
    rewrite B3.
    + apply A3; [tauto|]. intros k0 d Hk0 Hf0. apply (Ht k0 d); tauto.
    + tauto.
    + intros k0 d Hk0 Hf0. rewrite (Hsame _ Hk0) in Hf0. apply (Ht k0 d); tauto.
Qed.

Lemma regions_snoc {A} (R : A -> path -> Prop) xs x k :
  regions R (xs ++ [x]) k <-> regions R xs k \/ R x k.
Proof.
  unfold regions. split.
  - intros (y & Hy & HR). apply elem_of_app in Hy as [Hy|Hy]; [left; eauto|].
    apply list_elem_of_singleton in Hy as ->. by right.
  - intros [(y & Hy & HR)|HR].
    + exists y. split; [apply elem_of_app; by left|done].
    + exists x. split; [apply elem_of_app; right; by apply list_elem_of_singleton|done].
Qed.

(** A loop each turn of which clears a region of its own. *)
Lemma for_each_moved {A} (xs : list A) (act : A -> M Fs.t unit)
    (R : A -> path -> Prop) (R0 U : path -> Prop) f :
  NoDup xs ->
  (forall k, R0 k -> U k) ->
  (forall x k, x ∈ xs -> R x k -> U k) ->
  (forall k k0 d, U k -> U k0 -> f !! k0 = Some (NFile d) -> k <> target out k0) ->
  (forall x k, x ∈ xs -> R0 k -> R x k -> False) ->
  (forall x y k, x ∈ xs -> y ∈ xs -> x <> y -> R x k -> R y k -> False) ->
  distinct_names f U ->
  (forall done x todo g,
     xs = done ++ x :: todo ->
     moved out (fun k => R0 k \/ regions R done k) f g ->
     exists g', act x g = Ok tt g' /\ moved out (R x) g g') ->
  forall g0, moved out R0 f g0 ->
  exists f', for_each xs act g0 = Ok tt f' /\
             moved out (fun k => R0 k \/ regions R xs k) f f'.
Proof.
  intros Hnd HU0 HU Hdeep Hd0 Hd Hinj Hstep g0 Hg0.
  assert (forall todo done g,
            xs = done ++ todo ->
            moved out (fun k => R0 k \/ regions R done k) f g ->
            exists f', for_each todo act g = Ok tt f' /\
                       moved out (fun k => R0 k \/ regions R xs k) f f') as Hgen.
  { induction todo as [|x todo IH]; intros done g Hxs Hg.
    - exists g. rewrite app_nil_r in Hxs. subst. done.
    - destruct (Hstep done x todo g Hxs Hg) as (g' & Hact & Hmv).
      assert (x ∈ xs) as Hx by (subst xs; apply elem_of_app; right; by left).
      assert (x ∉ done) as Hxd.
      { subst xs. apply NoDup_app in Hnd as (_ & Hnd & _).
        intros Hin. apply (Hnd x Hin). by left. }
      destruct (IH (done ++ [x]) g') as (f' & Hrun & Hmv').
      { by rewrite <- app_assoc. }
      { eapply moved_iff; [|eapply (moved_compose _ _ U); [exact Hg|exact Hmv|..]].
        - intros k. rewrite regions_snoc. tauto.
        - intros k [Hk|(y & Hy & Hk)]; [by apply HU0|].
          apply (HU y); [|done]. subst xs. apply elem_of_app. by left.
        - intros k Hk. by apply (HU x).
        - exact Hdeep.
        - intros k [Hk|(y & Hy & Hk)] Hkx; [by eapply Hd0|].
          apply (Hd y x k); try done.
          + subst xs. apply elem_of_app. by left.
          + intros ->. done.
        - exact Hinj. }
      exists f'. simpl. by rewrite (bind_Ok _ _ _ _ _ Hact). }
  apply (Hgen xs [] g0); [done|].
  eapply moved_iff; [|exact Hg0].
  intros k. split; [tauto|]. intros [Hk|(y & Hy & _)]; [done|].
  by apply elem_of_nil in Hy.
Qed.

Lemma path_exists_None (g : Fs.t) p n :
  g !! (p ++ [n]) = None -> Fs.path_exists g (p ++ [n]) = false.
Proof.
  intros H. destruct (Fs.path_exists g (p ++ [n])) eqn:E; [|done].
  apply path_exists_snoc in E as [x Hx]. congruence.
Qed.

Lemma is_dir_None (g : Fs.t) p n :
  g !! (p ++ [n]) = None -> Fs.is_dir g (p ++ [n]) = false.
Proof.
  intros H. destruct (Fs.is_dir g (p ++ [n])) eqn:E; [|done].
  apply is_dir_snoc in E. congruence.
Qed.

Lemma deep_neq_out k : deep out k -> k <> out.
Proof. intros Hd ->. unfold deep in Hd. lia. Qed.

(** Moving a file whose name is free in [out]. *)
Lemma move_file_moved (g : Fs.t) src d :
  g !! src = Some (NFile d) -> Fs.is_dir g out = true -> deep out src ->
  g !! target out src = None ->
  let g' := <[target out src := NFile d]> (delete src g) in
  Fs.move src out g = Ok tt g' /\ moved out (fun k => k = src) g g'.
Proof.
  intros Hsrc Hout Hdeep Hfree g'. split.
  - unfold Fs.move, bind, get. rewrite Hout.
    rewrite bool_decide_eq_false_2 by (by apply deep_neq_out).
    fold (target out src). unfold target in *.
    rewrite (path_exists_None _ _ _ Hfree).
    unfold Fs.rename, bind, get. rewrite Hsrc, (is_dir_None _ _ _ Hfree).
    by rewrite dirname_snoc, Hout.
  - assert (target out src <> src) as Hne.
    { intros Heq. symmetry in Heq. revert Heq. by apply deep_not_target. }
    subst g'. split; [|split].
    + intros k ->. rewrite lookup_insert_ne by done. apply lookup_delete_eq.
    + intros k d' -> Hk. simplify_eq. apply lookup_insert_eq.
    + intros k Hk Ht.
      rewrite lookup_insert_ne by (intros Heq; by apply (Ht src d)).
      by rewrite lookup_delete_ne by (intros Heq; by apply Hk).
Qed.

(** A move that is refused, and the refusal swallowed. *)
Lemma move_refused (g : Fs.t) src :
  Fs.is_dir g out = true -> src <> out ->
  is_Some (g !! target out src) ->
  try_except (Fs.move src out) is_OSError (fun _ => ret tt) g = Ok tt g.
Proof.
  intros Hout Hne Hex. unfold try_except, Fs.move, bind, get. rewrite Hout.
  rewrite bool_decide_eq_false_2 by done.
  fold (target out src). unfold target in *.
  by rewrite (proj2 (path_exists_snoc g out (Fs.basename src)) Hex).
Qed.

(** Removing a folder that has no entry. *)
Lemma rmdir_moved (g : Fs.t) p :
  g !! p = Some NDir -> (forall n, g !! (p ++ [n]) = None) ->
  Fs.rmdir p g = Ok tt (delete p g) /\ moved out (fun k => k = p) g (delete p g).
Proof.
  intros Hp Hempty. split.
  - unfold Fs.rmdir, bind, get. rewrite Hp.
    destruct (Fs.entries g p) as [|[n nd] l] eqn:E; [done|].
    assert ((n, nd) ∈ Fs.entries g p) as Hin by (rewrite E; left).
    apply elem_of_entries in Hin. by rewrite Hempty in Hin.
  - split; [|split].
    + intros k ->. apply lookup_delete_eq.
    + intros k d -> Hk. congruence.
    + intros k Hk _. by rewrite lookup_delete_ne by (intros Heq; by apply Hk).
Qed.

Lemma below_length p k : below p k -> (length p + 1 <= length k)%nat.
Proof. intros (n & rest & ->). rewrite length_app. simpl. lia. Qed.

Lemma below_child p d k : below (p ++ [d]) k -> below p k.
Proof. intros (n & rest & ->). exists d, (n :: rest). by rewrite <- app_assoc. Qed.

Lemma below_child_length p d k : below (p ++ [d]) k -> (length p + 2 <= length k)%nat.
Proof. intros H%below_length. rewrite length_app in H. simpl in H. lia. Qed.

Lemma below_child_inj p d d' k : below (p ++ [d]) k -> below (p ++ [d']) k -> d = d'.
Proof.
  intros (n & rest & ->) (n' & rest' & Heq).
  rewrite <- !app_assoc in Heq. apply app_inv_head in Heq. by simplify_eq.
Qed.

Lemma below_cases p k : below p k -> exists n, k = p ++ [n] \/ below (p ++ [n]) k.
Proof.
  intros (n & rest & ->). exists n. destruct rest as [|m rest]; [by left|].
  right. exists m, rest. by rewrite <- app_assoc.
Qed.

Lemma below_parent c q n : below c (q ++ [n]) -> q = c \/ below c q.
Proof.
  intros (m & rest & Heq).
  destruct rest as [|x rest _] using rev_ind.
  - left. by apply app_inj_tail in Heq as [-> _].
  - right. exists m, rest.
    change (q ++ [n] = c ++ (m :: rest) ++ [x]) in Heq.
    rewrite app_assoc in Heq. by apply app_inj_tail in Heq as [-> _].
Qed.

Lemma below_prefix p k : below p k -> p `prefix_of` k.
Proof. intros (n & rest & ->). by eexists. Qed.

Lemma moved_agree (R : path -> Prop) (f g : Fs.t) (k : path) :
  moved out R f g -> ~ R k ->
  deep out k \/ (forall k0 d, R k0 -> f !! k0 = Some (NFile d) -> k <> target out k0) ->
  g !! k = f !! k.
Proof.
  intros (_ & _ & H3) Hk [Hd|Ht]; apply H3; try done.
  intros k0 d _ _. by apply deep_not_target.
Qed.

Lemma is_dir_agree (f g : Fs.t) p : g !! p = f !! p -> Fs.is_dir g p = Fs.is_dir f p.
Proof. intros H. destruct p; [done|]. simpl. by rewrite H. Qed.

(** [out] is neither in a region of deep paths nor a target. *)
Lemma moved_out_dir (R : path -> Prop) (f g : Fs.t) :
  moved out R f g -> (forall k, R k -> deep out k) -> Fs.is_dir g out = Fs.is_dir f out.
Proof.
  intros (_ & _ & H3) Hdeep. apply is_dir_agree, H3.
  - intros H%Hdeep. unfold deep in H. lia.
  - intros k0 d _ _ Heq. apply (f_equal length) in Heq.
    rewrite target_length in Heq. lia.
Qed.

Lemma elem_of_subdirs (f : Fs.t) p n :
  n ∈ Fs.subdirs (Fs.entries f p) <-> f !! (p ++ [n]) = Some NDir.
Proof.
  unfold Fs.subdirs. rewrite list_elem_of_fmap. split.
  - intros ([m nd] & -> & Hin). apply list_elem_of_In, filter_In in Hin as [Hin Hd].
    apply list_elem_of_In, elem_of_entries in Hin. simpl in *. by destruct nd.
  - intros Hl. exists (n, NDir). split; [done|].
    apply list_elem_of_In, filter_In. split; [|done].
    apply list_elem_of_In, elem_of_entries. done.
Qed.

Lemma elem_of_nondirs_iff (f : Fs.t) p n :
  n ∈ Fs.nondirs (Fs.entries f p) <-> exists d, f !! (p ++ [n]) = Some (NFile d).
Proof.
  unfold Fs.nondirs. rewrite list_elem_of_fmap. split.
  - intros ([m nd] & -> & Hin). apply list_elem_of_In, filter_In in Hin as [Hin Hd].
    apply list_elem_of_In, elem_of_entries in Hin. simpl in *.
    destruct nd as [d|]; [by exists d|done].
  - intros (d & Hl). exists (n, NFile d). split; [done|].
    apply list_elem_of_In, filter_In. split; [|done].
    apply list_elem_of_In, elem_of_entries. done.
Qed.

Lemma NoDup_filter_fst {A B} (P : A * B -> bool) (l : list (A * B)) :
  NoDup l.*1 -> NoDup (List.filter P l).*1.
Proof.
  induction l as [|x l IH]; simpl; [done|].
  intros Hnd. apply NoDup_cons in Hnd as [Hx Hnd].
  destruct (P x); simpl; [|by apply IH].
  apply NoDup_cons. split; [|by apply IH].
  intros Hin. apply Hx.
  apply list_elem_of_fmap in Hin as (y & -> & Hy).
  apply list_elem_of_In, filter_In in Hy as [Hy _].
  apply list_elem_of_fmap. exists y. split; [done|]. by apply list_elem_of_In.
Qed.

Lemma NoDup_subdirs (f : Fs.t) p : NoDup (Fs.subdirs (Fs.entries f p)).
Proof. apply NoDup_filter_fst, NoDup_entries. Qed.

Lemma NoDup_nondirs (f : Fs.t) p : NoDup (Fs.nondirs (Fs.entries f p)).
Proof. apply NoDup_filter_fst, NoDup_entries. Qed.

(** An entry below [p] has an ancestor directly in [p]. *)
Lemma ancestor_in (f : Fs.t) p n rest :
  parents_ok f (below p) ->
  is_Some (f !! (p ++ n :: rest)) ->
  match rest with
  | [] => is_Some (f !! (p ++ [n]))
  | _ => f !! (p ++ [n]) = Some NDir
  end.
Proof.
  intros Hpar. induction rest as [|x rest IH] using rev_ind; [done|].
  intros Hk.
  assert (f !! (p ++ n :: rest) = Some NDir) as Hparent.
  { apply (Hpar (p ++ n :: rest) x).
    - exists n, (rest ++ [x]). by rewrite <- app_assoc.
    - by rewrite <- app_assoc. }
  destruct rest as [|y rest]; [by destruct (_ ++ _)|].
  assert (f !! (p ++ [n]) = Some NDir) as H by (apply IH; by eexists).
  by destruct ((y :: rest) ++ [x]).
Qed.

Lemma prefix_snoc_cases (c k : path) :
  c `prefix_of` k -> k = c \/ below c k.
Proof.
  intros [r ->]. destruct r as [|n rest]; [left; by rewrite app_nil_r|].
  right. by exists n, rest.
Qed.

(** The walk of the subfolders of [p], one after the other. *)
Lemma walk_children (n : nat) (p q : path) (f : Fs.t) :
  p = out ++ q ->
  parents_ok f (below p) ->
  distinct_names f (fun k => below p k /\ deep out k) ->
  fresh_names out f (fun k => below p k /\ deep out k) ->
  (forall k, below p k -> is_Some (f !! k) -> (length k <= length p + n)%nat) ->
  Fs.is_dir f out = true ->
  (forall q' g, q' <> [] -> walk_ready out (out ++ q') g n ->
     exists g', Fs.walk_up n (out ++ q') (flatten_step out) g = Ok tt g' /\
                moved out (below (out ++ q')) g g') ->
  exists f1,
    for_each (Fs.subdirs (Fs.entries f p))
      (fun d => Fs.walk_up n (p ++ [d]) (flatten_step out)) f = Ok tt f1 /\
    moved out (regions (fun d => below (p ++ [d])) (Fs.subdirs (Fs.entries f p))) f f1.
Proof.
  intros Hp Hpar Hinj Hfresh Hbound Hout Hrec.
  set (dirs := Fs.subdirs (Fs.entries f p)).
  set (U := fun k => below p k /\ deep out k).
  assert (forall d k, below (p ++ [d]) k -> U k) as HU.
  { intros d k Hk. split; [by eapply below_child|].
    apply below_child_length in Hk. unfold deep. subst p.
    rewrite length_app in Hk. lia. }
  destruct (for_each_moved dirs
              (fun d => Fs.walk_up n (p ++ [d]) (flatten_step out))
              (fun d => below (p ++ [d])) (fun _ => False) U f)
    with (g0 := f) as (f1 & Hrun & Hmv).
  - apply NoDup_subdirs.
  - done.
  - intros d k _. apply HU.
  - intros k k0 d [_ Hd] _ _. by apply deep_not_target.
  - done.
  - intros x y k _ _ Hne Hx Hy. apply Hne. by eapply below_child_inj.
  - exact Hinj.
  - intros done d todo g Hxs Hg.
    assert (d ∈ dirs) as Hd by (rewrite Hxs; apply elem_of_app; right; by left).
    assert (d ∉ done) as Hnd.
    { pose proof (NoDup_subdirs f p) as Hn. fold dirs in Hn. rewrite Hxs in Hn.
      apply NoDup_app in Hn as (_ & Hn & _). intros Hin. apply (Hn d Hin). by left. }
    apply elem_of_subdirs in Hd.
    set (c := p ++ [d]) in *.
    assert (forall k, c `prefix_of` k ->
              ~ (False \/ regions (fun d0 => below (p ++ [d0])) done k)) as Hnotin.
    { intros k Hk [[]|(y & Hy & Hb)].
      apply prefix_snoc_cases in Hk as [->|Hk].
      - apply below_child_length in Hb. unfold c in Hb. rewrite length_app in Hb.
        simpl in Hb. lia.
      - assert (d = y) as -> by (by eapply below_child_inj). done. }
    assert (forall k0 d0, (False \/ regions (fun d1 => below (p ++ [d1])) done k0) ->
              f !! k0 = Some (NFile d0) -> U k0 /\ ~ below c k0) as Hdone.
    { intros k0 d0 [[]|(y & Hy & Hb)] _. split; [by eapply HU|].
      intros Hc. assert (d = y) as -> by (by eapply below_child_inj). done. }
    assert (forall k, c `prefix_of` k -> g !! k = f !! k) as Hagree.
    { intros k Hk. eapply moved_agree; [exact Hg|by apply Hnotin|].
      destruct (prefix_snoc_cases _ _ Hk) as [->|Hb].
      - right. intros k0 d0 Hk0 Hf0 Heq.
        destruct (Hdone k0 d0 Hk0 Hf0) as [HU0 _].
        pose proof (Hfresh k0 d0 HU0 Hf0) as Hn. rewrite <- Heq in Hn. congruence.
      - left. by apply (HU d). }
    assert (forall k1 d1, below c k1 -> f !! k1 = Some (NFile d1) ->
              g !! target out k1 = None) as Hfresh_g.
    { intros k1 d1 Hb Hf1.
      rewrite <- (Hfresh k1 d1 (HU d k1 Hb) Hf1).
      eapply moved_agree; [exact Hg| |].
      - intros [[]|(y & Hy & Hby)]. apply below_child_length in Hby.
        rewrite target_length in Hby. subst p. rewrite length_app in Hby. lia.
      - right. intros k0 d0 Hk0 Hf0 Heq.
        destruct (Hdone k0 d0 Hk0 Hf0) as [HU0 Hnb]. apply Hnb.
        unfold target in Heq. apply app_inv_head in Heq. simplify_eq.
        assert (k1 = k0) as <-; [|done].
        eapply Hinj; eauto. by apply (HU d). }
    assert (Fs.is_dir g out = true) as Hout_g.
    { rewrite <- Hout. eapply moved_out_dir; [exact Hg|].
      intros k [[]|(y & Hy & Hb)]. by apply (HU y). }
    assert (c = out ++ (q ++ [d])) as Hc by (unfold c; subst p; by rewrite app_assoc).
    rewrite Hc. apply Hrec; [by destruct q|]. rewrite <- Hc.
    split; [|split; [|split; [|split; [|split]]]].
    + by rewrite Hagree.
    + intros q' n' Hb Hs. rewrite Hagree in Hs by (by apply below_prefix).
      destruct (below_parent _ _ _ Hb) as [->|Hq'].
      * by rewrite Hagree.
      * rewrite Hagree by (by apply below_prefix).
        apply (Hpar q' n'); [|done]. by eapply below_child.
    + intros k1 k2 d1 d2 H1 H2 Hf1 Hf2.
      rewrite Hagree in Hf1 by (by apply below_prefix).
      rewrite Hagree in Hf2 by (by apply below_prefix).
      apply (Hinj k1 k2 d1 d2); try done; by apply (HU d).
    + intros k1 d1 Hb Hf1. rewrite Hagree in Hf1 by (by apply below_prefix).
      by eapply Hfresh_g.
    + intros k Hk Hs. rewrite Hagree in Hs by done.
      assert (below p k) as Hbk.
      { destruct Hk as [r ->]. exists d, r. unfold c. by rewrite <- app_assoc. }
      specialize (Hbound k Hbk Hs). unfold c. rewrite length_app. simpl. lia.
    + exact Hout_g.
  - apply moved_nothing.
  - exists f1. split; [exact Hrun|].
    eapply moved_iff; [|exact Hmv]. intros k. fold dirs. tauto.
Qed.

Lemma try_except_Ok {S A} (m : M S A) c h s a s' :
  m s = Ok a s' -> try_except m c h s = Ok a s'.
Proof. intros H. unfold try_except. by rewrite H. Qed.

Lemma is_dir_lookup (f : Fs.t) (p : path) : f !! p = Some NDir -> Fs.is_dir f p = true.
Proof. intros H. destruct p; [done|]. simpl. by rewrite H. Qed.

(** The body of the walk in a folder [p] below [out], once the subfolders
    of [p] are flattened: the files of [p] go to [out], the subfolders,
    now empty, are removed. *)
Lemma flatten_step_nested (p q : path) (f f1 : Fs.t) :
  p = out ++ q -> q <> [] ->
  parents_ok f (below p) ->
  distinct_names f (below p) ->
  fresh_names out f (below p) ->
  Fs.is_dir f out = true ->
  moved out (regions (fun d => below (p ++ [d])) (Fs.subdirs (Fs.entries f p))) f f1 ->
  exists f3,
    flatten_step out p (Fs.subdirs (Fs.entries f p)) (Fs.nondirs (Fs.entries f p)) f1
      = Ok tt f3 /\
    moved out (below p) f f3.
Proof.
  intros Hp Hq Hpar Hinj Hfresh Hout Hmv1.
  set (dirs := Fs.subdirs (Fs.entries f p)) in *.
  set (files := Fs.nondirs (Fs.entries f p)).
  set (Rb := fun d => below (p ++ [d])) in *.
  set (Rk := fun (n : string) (k : path) => k = p ++ [n]).
  assert (forall k, below p k -> deep out k) as Hdeep.
  { intros k Hk%below_length. unfold deep. subst p. rewrite length_app in Hk.
    destruct q; [done|]. simpl in Hk. lia. }
  assert (forall k k0 (d : payload), below p k -> below p k0 ->
            f !! k0 = Some (NFile d) -> k <> target out k0) as Hnt.
  { intros k k0 d Hk _ _. by apply deep_not_target, Hdeep. }
  assert (forall n, below p (p ++ [n])) as Hent by (intros n; by exists n, []).
  assert (forall d k, Rb d k -> Rk d k -> False) as Hbk.
  { intros d k Hb ->. apply below_child_length in Hb. rewrite length_app in Hb.
    simpl in Hb. lia. }
  assert (forall d n k, Rb d k -> Rk n k -> False) as Hbk'.
  { intros d n k Hb ->. apply below_child_length in Hb. rewrite length_app in Hb.
    simpl in Hb. lia. }
  (* the files *)
  destruct (for_each_moved files
              (fun file => try_except (Fs.move (p ++ [file]) out) is_OSError
                             (fun _ => ret tt))
              Rk (regions Rb dirs) (below p) f)
    with (g0 := f1) as (f2 & Hrun2 & Hmv2).
  { apply NoDup_nondirs. }
  { intros k (d & _ & Hb). by eapply below_child. }
  { intros x k _ ->. apply Hent. }
  { exact Hnt. }
  { intros x k _ (d & _ & Hb) Hk. by eapply Hbk'. }
  { intros x y k _ _ Hne -> Heq. apply Hne. by apply app_inv_head in Heq; simplify_eq. }
  { exact Hinj. }
  { intros done file todo g Hxs Hg.
    assert (file ∈ files) as Hfile by (rewrite Hxs; apply elem_of_app; right; by left).
    assert (file ∉ done) as Hnd.
    { pose proof (NoDup_nondirs f p) as Hn. fold files in Hn. rewrite Hxs in Hn.
      apply NoDup_app in Hn as (_ & Hn & _). intros Hin. apply (Hn file Hin). by left. }
    apply elem_of_nondirs_iff in Hfile as (d & Hfd).
    set (k := p ++ [file]) in *.
    assert (forall k', (regions Rb dirs k' \/ regions Rk done k') -> below p k') as Hreg.
    { intros k' [(y & _ & Hb)|(y & _ & ->)]; [by eapply below_child|apply Hent]. }
    assert (~ (regions Rb dirs k \/ regions Rk done k)) as Hnotin.
    { intros [(y & _ & Hb)|(y & Hy & Hk)]; [by eapply (Hbk' y file k)|].
      unfold Rk, k in Hk. apply app_inv_head in Hk. by simplify_eq. }
    assert (g !! k = Some (NFile d)) as Hgk.
    { rewrite <- Hfd. eapply moved_agree; [exact Hg|exact Hnotin|].
      left. apply Hdeep, Hent. }
    assert (g !! target out k = None) as Hgt.
    { rewrite <- (Hfresh k d (Hent file) Hfd).
      eapply moved_agree; [exact Hg| |].
      - intros Hin%Hreg%Hdeep. unfold deep in Hin. rewrite target_length in Hin. lia.
      - right. intros k0 d0 Hk0 Hf0 Heq. apply Hnotin.
        unfold target in Heq. apply app_inv_head in Heq. simplify_eq.
        assert (k = k0) as ->; [|done].
        eapply Hinj; eauto. }
    assert (Fs.is_dir g out = true) as Hgo.
    { rewrite <- Hout. eapply moved_out_dir; [exact Hg|]. intros k' Hk'. by apply Hdeep, Hreg. }
    destruct (move_file_moved g k d Hgk Hgo (Hdeep _ (Hent file)) Hgt) as [Hmove Hmoved].
    eexists. split; [by apply try_except_Ok|exact Hmoved]. }
  { exact Hmv1. }
  (* the subfolders *)
  destruct (for_each_moved dirs (fun name => Fs.rmdir (p ++ [name]))
              Rk (fun k => regions Rb dirs k \/ regions Rk files k) (below p) f)
    with (g0 := f2) as (f3 & Hrun3 & Hmv3).
  { apply NoDup_subdirs. }
  { intros k [(d & _ & Hb)|(y & _ & ->)]; [by eapply below_child|apply Hent]. }
  { intros x k _ ->. apply Hent. }
  { exact Hnt. }
  { intros x k Hx [(d & _ & Hb)|(y & Hy & ->)] Hk; [by eapply Hbk'|].
    unfold Rk in Hk. apply app_inv_head in Hk. simplify_eq.
    apply elem_of_subdirs in Hx. apply elem_of_nondirs_iff in Hy as (d & Hy). congruence. }
  { intros x y k _ _ Hne -> Heq. apply Hne. by apply app_inv_head in Heq; simplify_eq. }
  { exact Hinj. }
  { intros done name todo g Hxs Hg.
    assert (name ∈ dirs) as Hname by (rewrite Hxs; apply elem_of_app; right; by left).
    assert (name ∉ done) as Hnd.
    { pose proof (NoDup_subdirs f p) as Hn. fold dirs in Hn. rewrite Hxs in Hn.
      apply NoDup_app in Hn as (_ & Hn & _). intros Hin. apply (Hn name Hin). by left. }
    pose proof Hname as Hfd. apply elem_of_subdirs in Hfd.
    exists (delete (p ++ [name]) g). apply rmdir_moved.
    - rewrite <- Hfd. eapply moved_agree; [exact Hg| |left; apply Hdeep, Hent].
      intros [[(y & _ & Hb)|(y & Hy & Hk)]|(y & Hy & Hk)].
      + by eapply (Hbk' y name).
      + unfold Rk in Hk. apply app_inv_head in Hk. simplify_eq.
        apply elem_of_nondirs_iff in Hy as (d & Hy). congruence.
      + unfold Rk in Hk. apply app_inv_head in Hk. by simplify_eq.
    - intros n'. destruct Hg as (Hg1 & _). apply Hg1. left. left.
      exists name. split; [done|]. by exists n', []. }
  { exact Hmv2. }
  exists f3. split.
  { unfold flatten_step. by rewrite (bind_Ok _ _ _ _ _ Hrun2). }
  eapply moved_widen; [| |exact Hmv3].
  - intros k [[(d & _ & Hb)|(y & _ & ->)]|(y & _ & ->)];
      [by eapply below_child|apply Hent..].
  - intros k Hk. destruct (f !! k) as [nd|] eqn:Hfk; [left|right; by auto].
    destruct Hk as (n & rest & ->).
    pose proof (ancestor_in f p n rest Hpar (mk_is_Some _ _ Hfk)) as Hanc.
    destruct rest as [|m rest].
    + destruct nd as [d|].
      * left. right. exists n. split; [|done]. apply elem_of_nondirs_iff. by exists d.
      * right. exists n. split; [|done]. by apply elem_of_subdirs.
    + left. left. exists n. split; [by apply elem_of_subdirs|].
      exists m, rest. by rewrite <- app_assoc.
Qed.

(** The walk of a folder below [out]. *)
Lemma walk_nested (n : nat) :
  forall (q : path) (f : Fs.t),
    q <> [] -> walk_ready out (out ++ q) f n ->
    exists f', Fs.walk_up n (out ++ q) (flatten_step out) f = Ok tt f' /\
               moved out (below (out ++ q)) f f'.
Proof.
  induction n as [|n IH]; intros q f Hq (Hp & Hpar & Hinj & Hfresh & Hbound & Hout).
  { assert (out ++ q `prefix_of` out ++ q) as Hrefl by done.
    specialize (Hbound (out ++ q) Hrefl (mk_is_Some _ _ Hp)). lia. }
  set (p := out ++ q) in *.
  destruct (walk_children n p q f) as (f1 & Hrun1 & Hmv1); try done.
  { intros k1 k2 d1 d2 [H1 _] [H2 _]. by apply Hinj. }
  { intros k d [Hk _]. by apply Hfresh. }
  { intros k Hk Hs. specialize (Hbound k (below_prefix _ _ Hk) Hs). lia. }
  destruct (flatten_step_nested p q f f1) as (f3 & Hrun3 & Hmv3); try done.
  exists f3. split; [|done].
  simpl. unfold bind at 1, get. rewrite (is_dir_lookup _ _ Hp).
  by rewrite (bind_Ok _ _ _ _ _ Hrun1).
Qed.

Lemma depth_bound (f : Fs.t) (k : path) :
  is_Some (f !! k) -> (length k <= Fs.depth f)%nat.
Proof.
  unfold Fs.depth. revert k.
  apply (map_fold_weak_ind
           (fun r (m : Fs.t) => forall k, is_Some (m !! k) -> (length k <= r)%nat)).
  - intros k [x Hx]. by rewrite lookup_empty in Hx.
  - intros i x m r Hi IH k Hk.
    destruct (decide (i = k)) as [->|Hne]; [lia|].
    rewrite lookup_insert_ne in Hk by done. specialize (IH k Hk). lia.
Qed.

(** The walk of [out] itself: its folders are flattened and removed, its own
    files stay where they are. *)
Lemma flatten_top (f : Fs.t) :
  Fs.is_dir f out = true ->
  parents_ok f (below out) ->
  distinct_names f (fun k => below out k /\ deep out k) ->
  fresh_names out f (fun k => below out k /\ deep out k) ->
  exists f', flatten out f = Ok tt f' /\ moved out (top_folders out f) f f'.
Proof.
  intros Hout Hpar Hinj Hfresh.
  set (dirs := Fs.subdirs (Fs.entries f out)).
  set (files := Fs.nondirs (Fs.entries f out)).
  set (Rb := fun d => below (out ++ [d])).
  set (Rk := fun (n : string) (k : path) => k = out ++ [n]).
  set (U := top_folders out f).
  destruct (walk_children (Fs.depth f) out [] f) as (f1 & Hrun1 & Hmv1); try done.
  { by rewrite app_nil_r. }
  { intros k _ Hs%depth_bound. lia. }
  { apply walk_nested. }
  fold dirs Rb in Hrun1, Hmv1.
  assert (forall d k, Rb d k -> below out k /\ deep out k) as Hbd.
  { intros d k Hb. split; [by eapply below_child|].
    apply below_child_length in Hb. unfold deep. lia. }
  assert (forall k0 (d : payload), U k0 -> f !! k0 = Some (NFile d) ->
            below out k0 /\ deep out k0) as Hfile.
  { intros k0 d (d0 & Hd0 & Hpre) Hf0.
    apply prefix_snoc_cases in Hpre as [->|Hb]; [congruence|by eapply Hbd]. }
  assert (forall k k0 (d : payload), U k -> U k0 -> f !! k0 = Some (NFile d) ->
            k <> target out k0) as Hnt.
  { intros k k0 d (d1 & Hd1 & Hpre) Hk0 Hf0.
    pose proof (Hfresh k0 d (Hfile _ _ Hk0 Hf0) Hf0) as Hnone.
    apply prefix_snoc_cases in Hpre as [->|Hb].
    - intros Heq. rewrite <- Heq in Hnone. congruence.
    - apply deep_not_target. by eapply Hbd. }
  (* the files of [out] stay *)
  assert (Fs.is_dir f1 out = true) as Hout1.
  { rewrite <- Hout. eapply moved_out_dir; [exact Hmv1|].
    intros k (d & _ & Hb). by eapply Hbd. }
  assert (for_each files
            (fun file => try_except (Fs.move (out ++ [file]) out) is_OSError
                           (fun _ => ret tt)) f1 = Ok tt f1) as Hrun2.
  { apply for_each_unchanged. intros file Hfile1.
    apply elem_of_nondirs_iff in Hfile1 as (d & Hfd).
    apply move_refused; [done|apply snoc_neq|].
    unfold target. rewrite basename_snoc.
    assert (f1 !! (out ++ [file]) = f !! (out ++ [file])) as ->; [|by eexists].
    eapply moved_agree; [exact Hmv1| |].
    - intros (y & _ & Hb). apply below_child_length in Hb.
      rewrite length_app in Hb. simpl in Hb. lia.
    - right. intros k0 d0 (y & _ & Hb) Hf0 Heq.
      pose proof (Hfresh k0 d0 (Hbd _ _ Hb) Hf0) as Hnone.
      rewrite <- Heq in Hnone. congruence. }
  (* the folders of [out] go *)
  destruct (for_each_moved dirs (fun name => Fs.rmdir (out ++ [name]))
              Rk (regions Rb dirs) U f)
    with (g0 := f1) as (f3 & Hrun3 & Hmv3).
  { apply NoDup_subdirs. }
  { intros k (d & Hd & Hb). exists d. split; [by apply elem_of_subdirs|].
    by apply below_prefix. }
  { intros x k Hx ->. exists x. split; [by apply elem_of_subdirs|done]. }
  { exact Hnt. }
  { intros x k _ (d & _ & Hb) ->. apply below_child_length in Hb.
    rewrite length_app in Hb. simpl in Hb. lia. }
  { intros x y k _ _ Hne -> Heq. apply Hne. by apply app_inv_head in Heq; simplify_eq. }
  { intros k1 k2 d1 d2 H1 H2 Hf1 Hf2 Hb. eapply Hinj; eauto. }
  { intros done name todo g Hxs Hg.
    assert (name ∈ dirs) as Hname by (rewrite Hxs; apply elem_of_app; right; by left).
    assert (name ∉ done) as Hnd.
    { pose proof (NoDup_subdirs f out) as Hn. fold dirs in Hn. rewrite Hxs in Hn.
      apply NoDup_app in Hn as (_ & Hn & _). intros Hin. apply (Hn name Hin). by left. }
    pose proof Hname as Hfd. apply elem_of_subdirs in Hfd.
    exists (delete (out ++ [name]) g). apply rmdir_moved.
    - rewrite <- Hfd. eapply moved_agree; [exact Hg| |].
      + intros [(y & _ & Hb)|(y & Hy & Hk)].
        * apply below_child_length in Hb. rewrite length_app in Hb. simpl in Hb. lia.
        * unfold Rk in Hk. apply app_inv_head in Hk. by simplify_eq.
      + right. intros k0 d0 Hk0 Hf0 Heq.
        assert (U k0) as HU0.
        { destruct Hk0 as [(y & Hy & Hb)|(y & Hy & ->)].
          - exists y. split; [by apply elem_of_subdirs|by apply below_prefix].
          - exists y. split; [|done].
            assert (y ∈ dirs) as Hyd by (rewrite Hxs; apply elem_of_app; by left).
            by apply elem_of_subdirs. }
        pose proof (Hfresh k0 d0 (Hfile _ _ HU0 Hf0) Hf0) as Hnone.
        rewrite <- Heq in Hnone. congruence.
    - intros n'. destruct Hg as (Hg1 & _). apply Hg1. left.
      exists name. split; [done|]. by exists n', []. }
  { exact Hmv1. }
  exists f3. split.
  - unfold flatten, Fs.walk. unfold bind at 1, get.
    simpl. unfold bind at 1, get. rewrite Hout.
    fold dirs files. rewrite (bind_Ok _ _ _ _ _ Hrun1).
    unfold flatten_step. by rewrite (bind_Ok _ _ _ _ _ Hrun2).
  - eapply moved_iff; [|exact Hmv3]. intros k. split.
    + intros [(d & Hd & Hb)|(d & Hd & ->)].
      * exists d. split; [by apply elem_of_subdirs|by apply below_prefix].
      * exists d. split; [by apply elem_of_subdirs|done].
    + intros (d & Hd & Hpre). apply elem_of_subdirs in Hd.
      apply prefix_snoc_cases in Hpre as [->|Hb].
      * right. by exists d.
      * left. by exists d.
Qed.

(** *** Extraction *)

Lemma prefix_snoc_inv (r' r0 : path) (x : string) :
  r' `prefix_of` r0 ++ [x] -> r' = r0 ++ [x] \/ r' `prefix_of` r0.
Proof.
  intros [t Ht]. destruct t as [|y t _] using rev_ind.
  - left. by rewrite app_nil_r in Ht.
  - right. rewrite app_assoc in Ht. apply app_inj_tail in Ht as [-> _]. by exists t.
Qed.

Lemma ancestors_dirs (f : Fs.t) (r1 : path) (y : string) (rest : path) :
  parents_ok f (below out) -> r1 <> [] ->
  is_Some (f !! (out ++ r1 ++ y :: rest)) ->
  f !! (out ++ r1) = Some NDir.
Proof.
  intros Hpar Hr1. induction rest as [|z rest IH] using rev_ind; intros Hs.
  - apply (Hpar (out ++ r1) y).
    + destruct r1 as [|a r1]; [done|]. exists a, (r1 ++ [y]).
      by rewrite <- !app_assoc.
    + by rewrite <- app_assoc.
  - apply IH. exists NDir.
    apply (Hpar (out ++ r1 ++ y :: rest) z).
    + destruct r1 as [|a r1]; [done|]. exists a, (r1 ++ y :: rest ++ [z]).
      by rewrite <- !app_assoc.
    + by rewrite <- !app_assoc.
Qed.

Lemma path_exists_out (f : Fs.t) : f !! out = Some NDir -> Fs.path_exists f out = true.
Proof. intros H. by apply is_dir_exists, is_dir_lookup. Qed.

Lemma path_exists_app (f : Fs.t) (r : path) :
  r <> [] -> Fs.path_exists f (out ++ r) = bool_decide (is_Some (f !! (out ++ r))).
Proof.
  intros Hr. unfold Fs.path_exists.
  destruct (out ++ r) eqn:E; [|done]. by apply app_eq_nil in E as [_ ->].
Qed.

(** The folders already on the way to an entry that exists. *)
Lemma grown_already (f : Fs.t) (r : path) :
  f !! out = Some NDir -> parents_ok f (below out) ->
  (forall r' d, r' `prefix_of` r -> f !! (out ++ r') <> Some (NFile d)) ->
  Fs.path_exists f (out ++ r) = true ->
  grown out r f f.
Proof.
  intros Hout Hpar Hnofile Hex. split; [done|]. split; [|by left].
  intros r' Hr' [t Ht].
  assert (r <> []) as Hr by (intros ->; by destruct r').
  rewrite path_exists_app in Hex by done. apply bool_decide_eq_true in Hex.
  destruct t as [|y t].
  - rewrite app_nil_r in Ht. subst r'. destruct Hex as [[d|] Hx]; [|done].
    by destruct (Hnofile r d).
  - subst r. by eapply ancestors_dirs.
Qed.

Lemma makedirs_grown (f : Fs.t) (r : path) :
  f !! out = Some NDir -> parents_ok f (below out) ->
  (forall r' d, r' `prefix_of` r -> f !! (out ++ r') <> Some (NFile d)) ->
  r <> [] -> f !! (out ++ r) = None ->
  exists f', Fs.makedirs (out ++ r) f = Ok tt f' /\ grown out r f f'.
Proof.
  intros Hout Hpar. induction r as [|x r0 IH] using rev_ind; [done|].
  intros Hnofile _ Hnone. rewrite app_assoc in Hnone.
  unfold Fs.makedirs. rewrite app_assoc, rev_unit. simpl.
  rewrite rev_involutive. unfold bind at 1, get.
  assert (forall r', r' `prefix_of` r0 -> r' `prefix_of` r0 ++ [x]) as Hpre.
  { intros r' [t ->]. exists (t ++ [x]). by rewrite app_assoc. }
  assert (forall r', r' `prefix_of` r0 -> out ++ r' <> (out ++ r0) ++ [x]) as Hlen.
  { intros r' [t ->] Heq. apply (f_equal length) in Heq.
    rewrite !length_app in Heq. simpl in Heq. lia. }
  assert (forall f1, grown out r0 f f1 -> Fs.is_dir f1 (out ++ r0) = true ->
            exists f', Fs.mkdir ((out ++ r0) ++ [x]) f1 = Ok tt f' /\
                       grown out (r0 ++ [x]) f f') as Hlast.
  { intros f1 (G1 & G2 & G3) Hd.
    assert (f1 !! ((out ++ r0) ++ [x]) = None) as Hn1.
    { destruct (f1 !! ((out ++ r0) ++ [x])) as [y|] eqn:E; [|done].
      destruct (G3 _ _ E) as [Hy|(_ & r' & _ & Hp & Heq)]; [congruence|].
      symmetry in Heq. by apply Hlen in Heq. }
    rewrite mkdir_ok; [|by apply path_exists_None|done].
    eexists. split; [done|]. split; [|split].
    - intros k y Hk. rewrite lookup_insert_ne; [by apply G1|]. intros <-. congruence.
    - intros r' Hr' [->|Hp]%prefix_snoc_inv.
      + rewrite app_assoc. apply lookup_insert_eq.
      + rewrite lookup_insert_ne by (symmetry; by apply Hlen). by apply G2.
    - intros k y Hk. destruct (decide (k = (out ++ r0) ++ [x])) as [->|Hne].
      + rewrite lookup_insert_eq in Hk. simplify_eq. right. split; [done|].
        exists (r0 ++ [x]). split; [by destruct r0|]. split; [done|by rewrite app_assoc].
      + rewrite lookup_insert_ne in Hk by done.
        destruct (G3 _ _ Hk) as [Hy|(-> & r' & Hr' & Hp & ->)]; [by left|].
        right. split; [done|]. exists r'. split; [done|]. split; [by apply Hpre|done]. }
  destruct (Fs.path_exists f (out ++ r0)) eqn:Hex.
  - assert (grown out r0 f f) as Hg.
    { destruct r0 as [|a r0].
      - split; [done|]. split; [|by left]. intros r' Hr' [t Ht]. by destruct r'.
      - apply grown_already; try done. intros r' d Hr'. by apply Hnofile, Hpre. }
    assert (Fs.is_dir f (out ++ r0) = true) as Hd.
    { destruct r0 as [|a r0]; [rewrite app_nil_r; by apply is_dir_lookup|].
      destruct Hg as (_ & G2 & _). by apply is_dir_lookup, G2. }
    rewrite (bind_Ok _ _ f tt f) by done. by apply Hlast.
  - assert (r0 <> []) as Hr0.
    { intros ->. rewrite app_nil_r, path_exists_out in Hex; done. }
    rewrite path_exists_app in Hex by done. apply bool_decide_eq_false in Hex.
    assert (f !! (out ++ r0) = None) as Hn0.
    { destruct (f !! (out ++ r0)) eqn:E; [|done]. destruct Hex. by eexists. }
    destruct IH as (f1 & Hrun & Hg); try done.
    { intros r' d Hr'. by apply Hnofile, Hpre. }
    unfold Fs.makedirs in Hrun.
    rewrite (bind_Ok _ _ f tt f1) by (by apply try_except_Ok).
    apply Hlast; [done|]. destruct Hg as (_ & G2 & _). by apply is_dir_lookup, G2.
Qed.

(** [extract_member] makes sure of the folder of the member. *)
Lemma ensure_upperdirs (f : Fs.t) (r : path) :
  f !! out = Some NDir -> parents_ok f (below out) ->
  (forall r' d, r' `prefix_of` r -> f !! (out ++ r') <> Some (NFile d)) ->
  exists f',
    (if Fs.path_exists f (out ++ r) then ret tt else Fs.makedirs (out ++ r)) f = Ok tt f' /\
    grown out r f f'.
Proof.
  intros Hout Hpar Hnofile.
  destruct (Fs.path_exists f (out ++ r)) eqn:Hex.
  - exists f. split; [done|]. by apply grown_already.
  - assert (r <> []) as Hr.
    { intros ->. rewrite app_nil_r, path_exists_out in Hex; done. }
    apply makedirs_grown; try done.
    rewrite path_exists_app in Hex by done. apply bool_decide_eq_false in Hex.
    destruct (f !! (out ++ r)) eqn:E; [|done]. destruct Hex. by eexists.
Qed.

Lemma not_below_self (p : path) : ~ below p p.
Proof. intros H%below_length. lia. Qed.

Lemma below_app (r : path) : r <> [] -> below out (out ++ r).
Proof. destruct r as [|a r]; [done|]. intros _. by exists a, r. Qed.

Lemma extracted_nothing (f0 : Fs.t) :
  (forall k, below out k -> f0 !! k = None) -> extracted out [] f0 f0.
Proof.
  intros Hempty. split; [|split; [|split; [|split]]].
  - intros m Hm. by apply elem_of_nil in Hm.
  - intros k d Hk Hf. by rewrite Hempty in Hf.
  - intros k Hk Hf. by rewrite Hempty in Hf.
  - done.
  - intros q n Hb [x Hx]. by rewrite Hempty in Hx.
Qed.

(** One member more. *)
Lemma extract_member_step (f0 f : Fs.t) (done : list zip_member) (m : zip_member) :
  f0 !! out = Some NDir ->
  extracted out done f0 f ->
  zm_name m <> [] -> is_Some (zm_data m) ->
  (forall m' n rest, m' ∈ done ->
     zm_name m <> zm_name m' ++ n :: rest /\ zm_name m' <> zm_name m ++ n :: rest) ->
  (forall m', m' ∈ done -> zm_name m' <> zm_name m) ->
  exists f', Fs.extract_member out m f = Ok tt f' /\ extracted out (done ++ [m]) f0 f'.
Proof.
  intros Hout0 (I1 & I6 & I3 & I4 & I5) Hname [d Hd] Hfree Hdiff.
  assert (f !! out = Some NDir) as Hout by (rewrite I4; [done|apply not_below_self]).
  destruct (zm_name m) as [|n r _] eqn:Hnm using rev_ind; [done|]. clear Hname.
  set (tgt := (out ++ r) ++ [n]).
  assert (out ++ r ++ [n] = tgt) as Htgt by (unfold tgt; by rewrite app_assoc).
  (* no file on the way *)
  assert (forall r' d', r' `prefix_of` r -> f !! (out ++ r') <> Some (NFile d')) as Hnofile.
  { intros r' d' [t Ht] Hf. destruct r' as [|a r'].
    - rewrite app_nil_r in Hf. congruence.
    - destruct (I6 _ _ (below_app (a :: r') ltac:(done)) Hf) as (m' & Hm' & Heq & _).
      apply app_inv_head in Heq.
      destruct (t ++ [n]) as [|y t'] eqn:Et; [by destruct t|].
      destruct (Hfree m' y t' Hm') as [Hbad _]. apply Hbad.
      rewrite <- Heq, Ht, <- Et. by rewrite <- app_assoc. }
  assert (f !! tgt = None) as Hfree_tgt.
  { destruct (f !! tgt) as [[d'|]|] eqn:E; [| |done].
    - destruct (I6 tgt d') as (m' & Hm' & Heq & _); [|done|].
      { unfold tgt. rewrite <- app_assoc. by apply below_app, snoc_not_nil. }
      rewrite <- Htgt in Heq. apply app_inv_head in Heq. by destruct (Hdiff m' Hm').
    - destruct (I3 tgt) as (m' & y & rest & Hm' & Heq); [|done|].
      { unfold tgt. rewrite <- app_assoc. by apply below_app, snoc_not_nil. }
      rewrite <- Htgt, <- app_assoc in Heq. apply app_inv_head in Heq.
      destruct (Hfree m' y rest Hm') as [_ Hbad]. by destruct Hbad. }
  destruct (ensure_upperdirs f r Hout I5 Hnofile) as (f1 & Hrun & G1 & G2 & G3).
  assert (forall k, (forall r', r' <> [] -> r' `prefix_of` r -> k <> out ++ r') ->
            f1 !! k = f !! k) as Hsame.
  { intros k Hk. destruct (f1 !! k) as [x|] eqn:E1.
    - destruct (G3 _ _ E1) as [Hx|(_ & r' & Hr' & Hp & ->)]; [done|]. by destruct (Hk r').
    - destruct (f !! k) as [x|] eqn:E; [|done]. rewrite (G1 _ _ E) in E1. done. }
  assert (forall r', r' `prefix_of` r -> tgt <> out ++ r') as Htlen.
  { intros r' [t ->] Heq. apply (f_equal length) in Heq. unfold tgt in Heq.
    rewrite !length_app in Heq. simpl in Heq. lia. }
  assert (f1 !! tgt = None) as Hfree1 by (rewrite Hsame; [done|intros r' _; apply Htlen]).
  assert (f1 !! (out ++ r) = Some NDir) as Hparent.
  { destruct r as [|a r]; [rewrite app_nil_r; by apply G1|]. by apply G2. }
  exists (<[tgt := NFile (PRaw d)]> f1). split.
  { unfold Fs.extract_member, bind at 1, get. rewrite Hnm, app_assoc, dirname_snoc.
    rewrite (bind_Ok _ _ f tt f1) by exact Hrun.
    rewrite Hd. apply write_file_ok; [by apply is_dir_None|by apply is_dir_lookup]. }
  assert (file_data m = PRaw d) as Hfd by (unfold file_data; by rewrite Hd).
  split; [|split; [|split; [|split]]].
  - intros m' [Hm'| ->%list_elem_of_singleton]%elem_of_app.
    + rewrite lookup_insert_ne.
      * by apply G1, I1.
      * rewrite <- Htgt. intros Heq. apply app_inv_head in Heq.
        by destruct (Hdiff m' Hm').
    + rewrite Hnm, Htgt, Hfd. apply lookup_insert_eq.
  - intros k d' Hk Hf'. destruct (decide (tgt = k)) as [<-|Hne].
    + rewrite lookup_insert_eq in Hf'. simplify_eq. exists m.
      split; [apply elem_of_app; right; by left|]. by rewrite Hnm, Htgt, Hfd.
    + rewrite lookup_insert_ne in Hf' by done.
      destruct (G3 _ _ Hf') as [Hx|(Hx & _)]; [|done].
      destruct (I6 _ _ Hk Hx) as (m' & Hm' & Heq & Hdata).
      exists m'. split; [apply elem_of_app; by left|done].
  - intros k Hk Hf'. destruct (decide (tgt = k)) as [<-|Hne].
    + by rewrite lookup_insert_eq in Hf'.
    + rewrite lookup_insert_ne in Hf' by done.
      destruct (G3 _ _ Hf') as [Hx|(_ & r' & Hr' & [t ->] & ->)].
      * destruct (I3 _ Hk Hx) as (m' & y & rest & Hm' & Heq).
        exists m', y, rest. split; [apply elem_of_app; by left|done].
      * destruct (t ++ [n]) as [|y t'] eqn:Et; [by destruct t|].
        exists m, y, t'. split; [apply elem_of_app; right; by left|].
        rewrite Hnm, <- Et. by rewrite <- !app_assoc.
  - intros k Hk. rewrite lookup_insert_ne.
    + rewrite <- I4 by done. apply Hsame. intros r' Hr' Hp ->.
      by apply Hk, below_app.
    + intros <-. apply Hk. unfold tgt. rewrite <- app_assoc. by apply below_app, snoc_not_nil.
  - intros q x Hb Hs. destruct (decide (tgt = q ++ [x])) as [Heq|Hne].
    + unfold tgt in Heq. apply app_inj_tail in Heq as [<- <-].
      rewrite lookup_insert_ne by apply snoc_neq. exact Hparent.
    + rewrite lookup_insert_ne in Hs by done. destruct Hs as [y Hy].
      destruct (G3 _ _ Hy) as [Hx|(_ & r' & Hr' & Hp & Heq)].
      * assert (f !! q = Some NDir) as Hq by (apply (I5 q x); [done|by eexists]).
        rewrite lookup_insert_ne by (intros <-; congruence). by apply G1.
      * destruct r' as [|x' r'' _] using rev_ind; [done|].
        rewrite app_assoc in Heq. apply app_inj_tail in Heq as [-> ->].
        assert (r'' `prefix_of` r) as Hp'.
        { destruct Hp as [t ->]. exists ([x'] ++ t). by rewrite <- app_assoc. }
        rewrite lookup_insert_ne by (by apply Htlen).
        destruct r'' as [|a r'']; [rewrite app_nil_r; by apply G1|]. by apply G2.
Qed.

(** All the members. *)
Lemma extractall_extracted (f0 : Fs.t) (ms : list zip_member) :
  f0 !! out = Some NDir ->
  (forall k, below out k -> f0 !! k = None) ->
  files_only ms -> prefix_free ms -> names_distinct ms ->
  exists f, Fs.extractall out ms f0 = Ok tt f /\ extracted out ms f0 f.
Proof.
  intros Hout Hempty Hfiles Hfree Hnd.
  assert (forall todo done f,
            ms = done ++ todo -> extracted out done f0 f ->
            exists f', for_each todo (Fs.extract_member out) f = Ok tt f' /\
                       extracted out ms f0 f') as Hgen.
  { induction todo as [|m todo IH]; intros done f Hms Hinv.
    - exists f. rewrite app_nil_r in Hms. by subst.
    - assert (m ∈ ms) as Hm by (subst ms; apply elem_of_app; right; by left).
      assert (forall m', m' ∈ done -> m' ∈ ms) as Hdone.
      { intros m' Hm'. subst ms. apply elem_of_app. by left. }
      destruct (extract_member_step f0 f done m) as (f' & Hrun & Hinv'); try done.
      + by apply Hfiles.
      + by apply Hfiles.
      + intros m' n rest Hm'. split; apply Hfree; auto.
      + intros m' Hm' Heq. unfold names_distinct in Hnd. rewrite Hms in Hnd.
        rewrite map_app in Hnd. apply NoDup_app in Hnd as (_ & Hnd & _).
        apply (Hnd (Fs.basename (zm_name m'))).
        * apply list_elem_of_fmap. by exists m'.
        * rewrite Heq. simpl. by left.
      + destruct (IH (done ++ [m]) f') as (f'' & Hrun' & Hinv''); [|done|].
        { by rewrite <- app_assoc. }
        exists f''. simpl. by rewrite (bind_Ok _ _ _ _ _ Hrun). }
  apply (Hgen ms [] f0); [done|]. by apply extracted_nothing.
Qed.


End Flatten.

(** *** The archive, extracted and flattened *)

Lemma basename_app (out r : path) : r <> [] -> Fs.basename (out ++ r) = Fs.basename r.
Proof.
  destruct r as [|x r _] using rev_ind; [done|]. intros _.
  unfold Fs.basename. by rewrite app_assoc, !last_last.
Qed.

Lemma basename_unique (ms : list zip_member) (m1 m2 : zip_member) :
  names_distinct ms -> m1 ∈ ms -> m2 ∈ ms ->
  Fs.basename (zm_name m1) = Fs.basename (zm_name m2) -> m1 = m2.
Proof.
  unfold names_distinct. induction ms as [|m ms IH]; intros Hnd H1 H2 Heq.
  { by apply elem_of_nil in H1. }
  simpl in Hnd. apply NoDup_cons in Hnd as [Hm Hnd].
  assert (forall m', m' ∈ ms -> Fs.basename (zm_name m') <> Fs.basename (zm_name m)) as Hne.
  { intros m' Hm' Hb. apply Hm. rewrite <- Hb. apply list_elem_of_fmap. by exists m'. }
  apply elem_of_cons in H1 as [->|H1]; apply elem_of_cons in H2 as [->|H2]; try done.
  - symmetry in Heq. by destruct (Hne m2 H2).
  - by destruct (Hne m1 H1).
  - by apply IH.
Qed.

Section Archive.
Variable out : path.
Variables (f0 f1 f2 : gmap path node) (ms : list zip_member).
Hypothesis Hfiles : files_only ms.
Hypothesis Hdistinct : names_distinct ms.
Hypothesis Hclear : names_clear ms.
Hypothesis Hextracted : extracted out ms f0 f1.
Hypothesis Hout : f1 !! out = Some NDir.

Lemma member_path (m : zip_member) :
  m ∈ ms -> Fs.basename (out ++ zm_name m) = Fs.basename (zm_name m).
Proof. intros Hm. apply basename_app. by apply Hfiles. Qed.

Lemma archive_distinct : distinct_names f1 (fun k => below out k /\ deep out k).
Proof.
  destruct Hextracted as (_ & I6 & _).
  intros k1 k2 d1 d2 [Hb1 _] [Hb2 _] Hf1 Hf2 Hbase.
  destruct (I6 _ _ Hb1 Hf1) as (m1 & Hm1 & -> & _).
  destruct (I6 _ _ Hb2 Hf2) as (m2 & Hm2 & -> & _).
  rewrite !member_path in Hbase by done.
  by rewrite (basename_unique ms m1 m2).
Qed.

Lemma archive_fresh : fresh_names out f1 (fun k => below out k /\ deep out k).
Proof.
  destruct Hextracted as (_ & I6 & I3 & _).
  intros k d [Hb Hdeep] Hf.
  destruct (I6 _ _ Hb Hf) as (m & Hm & -> & _).
  unfold target. rewrite member_path by done.
  set (b := Fs.basename (zm_name m)).
  assert (below out (out ++ [b])) as Hbb by (by exists b, []).
  destruct (f1 !! (out ++ [b])) as [[d'|]|] eqn:E; [| |done].
  - destruct (I6 _ _ Hbb E) as (m' & Hm' & Heq & _). apply app_inv_head in Heq.
    assert (m = m') as <-.
    { apply (basename_unique ms); try done. by rewrite <- Heq. }
    unfold deep in Hdeep. rewrite length_app, <- Heq in Hdeep. simpl in Hdeep. lia.
  - destruct (I3 _ Hbb E) as (m' & n & rest & Hm' & Heq).
    rewrite <- app_assoc in Heq. apply app_inv_head in Heq. simpl in Heq.
    by destruct (Hclear m m' b n rest).
Qed.

Hypothesis Hmoved : moved out (top_folders out f1) f1 f2.

Lemma top_files_not_targets (k k0 : path) (d : payload) :
  is_Some (f1 !! k) -> top_folders out f1 k0 -> f1 !! k0 = Some (NFile d) ->
  k <> target out k0.
Proof.
  intros [x Hx] (d0 & Hd0 & Hpre) Hf0 ->.
  apply prefix_snoc_cases in Hpre as [->|Hb]; [congruence|].
  rewrite (archive_fresh k0 d) in Hx; [done| |done].
  split; [by eapply below_child|].
  apply below_child_length in Hb. unfold deep. lia.
Qed.

(** Every member is a file of [out], under its own name. *)
Lemma member_flat (m : zip_member) :
  m ∈ ms -> f2 !! (out ++ [Fs.basename (zm_name m)]) = Some (NFile (file_data m)).
Proof.
  intros Hm. destruct Hextracted as (I1 & _ & _ & _ & I5).
  destruct Hmoved as (M1 & M2 & M3).
  pose proof (I1 m Hm) as Hfile.
  destruct (zm_name m) as [|a [|c rest]] eqn:Hnm.
  - by destruct (Hfiles m Hm).
  - change (Fs.basename [a]) with a. rewrite M3; [done| |].
    + intros (d0 & Hd0 & Hpre). apply prefix_snoc_cases in Hpre as [Heq|Hb].
      * rewrite <- Heq in Hd0. congruence.
      * apply below_child_length in Hb. rewrite length_app in Hb. simpl in Hb. lia.
    + intros k0 d Hk0 Hf0. by eapply top_files_not_targets.
  - pose proof (member_path m Hm) as Hmp. rewrite Hnm in Hmp. rewrite <- Hmp.
    apply (M2 (out ++ a :: c :: rest)); [|done].
    exists a. split; [|by exists (c :: rest); rewrite <- app_assoc].
    apply (ancestors_dirs out f1 [a] c rest); [done|done|by eexists].
Qed.

(** Every entry of [out] is such a file. *)
Lemma flat_member (n : string) (nd : node) :
  f2 !! (out ++ [n]) = Some nd -> exists m, m ∈ ms /\ (n, nd) = file_entry m.
Proof.
  intros Hf2. destruct Hextracted as (I1 & I6 & I3 & _ & I5).
  destruct Hmoved as (M1 & M2 & M3).
  assert (below out (out ++ [n])) as Hb by (by exists n, []).
  destruct (decide (n ∈ map (fun m => Fs.basename (zm_name m)) ms)) as [Hin|Hnin].
  - apply list_elem_of_fmap in Hin as (m & -> & Hm). exists m. split; [done|].
    rewrite (member_flat m Hm) in Hf2. by simplify_eq.
  - exfalso.
    assert (forall m, m ∈ ms -> Fs.basename (zm_name m) <> n) as Hno.
    { intros m Hm <-. apply Hnin, list_elem_of_fmap. by exists m. }
    destruct (f1 !! (out ++ [n])) as [[d|]|] eqn:E.
    + destruct (I6 _ _ Hb E) as (m & Hm & Heq & _). apply app_inv_head in Heq.
      apply (Hno m Hm). by rewrite <- Heq.
    + rewrite M1 in Hf2; [done|]. by exists n.
    + rewrite M3, E in Hf2; [done| |].
      * intros (d0 & Hd0 & Hpre). apply prefix_snoc_cases in Hpre as [Heq|Hb'].
        -- rewrite <- Heq in Hd0. congruence.
        -- apply below_child_length in Hb'. rewrite length_app in Hb'. simpl in Hb'. lia.
      * intros k0 d (d0 & Hd0 & Hpre) Hf0 Heq.
        apply prefix_snoc_cases in Hpre as [->|Hb0]; [congruence|].
        destruct (I6 k0 d) as (m & Hm & -> & _); [by eapply below_child|done|].
        unfold target in Heq. rewrite member_path in Heq by done.
        apply app_inv_head in Heq. simplify_eq. by apply (Hno m Hm).
Qed.

Lemma flat_entries : Fs.entries f2 out ≡ₚ map file_entry ms.
Proof.
  apply NoDup_Permutation.
  - eapply NoDup_fmap_1, NoDup_entries.
  - apply (NoDup_fmap_1 fst). rewrite <- list_fmap_compose. exact Hdistinct.
  - intros [n nd]. rewrite elem_of_entries. split.
    + intros (m & Hm & ->)%flat_member. apply list_elem_of_fmap. by exists m.
    + intros (m & Heq & Hm)%list_elem_of_fmap. unfold file_entry in Heq. simplify_eq.
      by apply member_flat.
Qed.

Lemma flat_no_subdirs : Fs.subdirs (Fs.entries f2 out) = [].
Proof.
  unfold Fs.subdirs.
  assert (List.filter (fun e : string * node => Fs.is_NDir e.2) (Fs.entries f2 out) = [])
    as ->; [|done].
  assert (forall e, e ∈ Fs.entries f2 out -> Fs.is_NDir e.2 = false) as Hall.
  { intros [n nd] (m & _ & Heq)%elem_of_entries%flat_member.
    unfold file_entry in Heq. by simplify_eq. }
  induction (Fs.entries f2 out) as [|e l IH]; [done|]. simpl.
  rewrite (Hall e) by left. apply IH. intros e' He'. apply Hall. by right.
Qed.

Lemma flat_nothing_deeper (k : path) : below out k -> deep out k -> f2 !! k = None.
Proof.
  intros (a & rest & ->) Hdeep. destruct Hextracted as (_ & _ & _ & _ & I5).
  destruct Hmoved as (M1 & _ & M3).
  destruct rest as [|c rest].
  { unfold deep in Hdeep. rewrite length_app in Hdeep. simpl in Hdeep. lia. }
  destruct (f1 !! (out ++ [a])) as [[d|]|] eqn:E.
  - assert (f1 !! (out ++ a :: c :: rest) = None) as Hn.
    { destruct (f1 !! (out ++ a :: c :: rest)) eqn:E'; [|done].
      rewrite (ancestors_dirs out f1 [a] c rest) in E; [done|done|done|by eexists]. }
    rewrite M3; [done| |].
    + intros (d0 & Hd0 & [t Ht]). rewrite <- app_assoc in Ht.
      apply app_inv_head in Ht. simpl in Ht. injection Ht as Ha _. subst d0.
      rewrite Hd0 in E. done.
    + intros k0 d0 _ _. by apply deep_not_target.
  - apply M1. exists a. split; [done|]. exists (c :: rest). by rewrite <- app_assoc.
  - assert (f1 !! (out ++ a :: c :: rest) = None) as Hn.
    { destruct (f1 !! (out ++ a :: c :: rest)) eqn:E'; [|done].
      rewrite (ancestors_dirs out f1 [a] c rest) in E; [done|done|done|by eexists]. }
    rewrite M3; [done| |].
    + intros (d0 & Hd0 & [t Ht]). rewrite <- app_assoc in Ht.
      apply app_inv_head in Ht. simpl in Ht. injection Ht as Ha _. subst d0.
      rewrite Hd0 in E. done.
    + intros k0 d0 _ _. by apply deep_not_target.
Qed.

End Archive.

(** Reading a raised outcome, and a run followed by one, off the outcome
    itself. *)
Lemma raises_leaving {S A : Type} (o : outcome S A) (e : exn) (P : S -> Prop) :
  match o with Raise e' s => e' = e /\ P s | _ => False end ->
  exists s, o = Raise e s /\ P s.
Proof. destruct o as [a s|e' s|s]; [done| |done]. intros [-> HP]. by exists s. Qed.

Lemma runs_then_raises {S : Type} (o : outcome S unit) (k : S -> outcome S unit)
    (e : exn) (P : S -> Prop) :
  match o with
  | Ok _ s1 => match k s1 with Raise e' s2 => e' = e /\ P s2 | _ => False end
  | _ => False
  end ->
  exists s1 s2, o = Ok tt s1 /\ k s1 = Raise e s2 /\ P s2.
Proof.
  destruct o as [[] s1|e' s1|s1]; [|done|done]. intros H.
  apply raises_leaving in H as (s2 & H1 & H2). by exists s1, s2.
Qed.

(** Two files of the same name in two folders of the archive ([N = 2]): the
    second move is refused and the refusal swallowed, but then the folder
    that still holds its file cannot be removed.  The walk raises, one file
    and one folder are left in the output folder; so it is for the whole
    function. *)
Lemma archive_clash_not_flattened :
  (exists f1 f2,
     Fs.extractall ["home"; "Outputs"] archive_clash home_outputs = Ok tt f1 /\
     flatten ["home"; "Outputs"] f1 = Raise (OSError ENOTEMPTY) f2 /\
     length (Fs.nondirs (Fs.entries f2 ["home"; "Outputs"])) = 1%nat /\
     length (Fs.subdirs (Fs.entries f2 ["home"; "Outputs"])) = 1%nat) /\
  (exists w',
     request_nsidc_data 0 "req" scenario_clash = Raise (OSError ENOTEMPTY) w' /\
     length (Fs.nondirs (Fs.entries (fs w') ["home"; "Outputs"])) = 1%nat /\
     length (Fs.subdirs (Fs.entries (fs w') ["home"; "Outputs"])) = 1%nat).
Proof.
  split.
  - apply (runs_then_raises _ (flatten ["home"; "Outputs"]) _
             (fun f2 =>
                length (Fs.nondirs (Fs.entries f2 ["home"; "Outputs"])) = 1%nat /\
                length (Fs.subdirs (Fs.entries f2 ["home"; "Outputs"])) = 1%nat)).
    vm_compute. done.
  - apply (raises_leaving _ _
             (fun w' =>
                length (Fs.nondirs (Fs.entries (fs w') ["home"; "Outputs"])) = 1%nat /\
                length (Fs.subdirs (Fs.entries (fs w') ["home"; "Outputs"])) = 1%nat)).
    vm_compute. done.
Qed.

(** C5 (as the code has it).  An archive of [N] files, nested at any
    depth, whose file names are pairwise distinct and are not names of its
    top-level folders, extracted into an empty output folder and flattened:
    both steps succeed, the output folder then holds exactly the [N] files,
    each under its own name, no folder, and nothing deeper. *)
Theorem archive_flattened (out : path) (f0 : gmap path node) (ms : list zip_member) :
  f0 !! out = Some NDir ->
  (forall k, below out k -> f0 !! k = None) ->
  files_only ms -> prefix_free ms -> names_distinct ms -> names_clear ms ->
  exists f1 f2,
    Fs.extractall out ms f0 = Ok tt f1 /\
    flatten out f1 = Ok tt f2 /\
    Fs.entries f2 out ≡ₚ map file_entry ms /\
    length (Fs.entries f2 out) = length ms /\
    Fs.subdirs (Fs.entries f2 out) = [] /\
    (forall k, below out k -> deep out k -> f2 !! k = None).
Proof.
  intros Hout Hempty Hfiles Hfree Hdistinct Hclear.
  destruct (extractall_extracted out f0 ms) as (f1 & Hrun1 & Hext); try done.
  assert (f1 !! out = Some NDir) as Hout1.
  { destruct Hext as (_ & _ & _ & I4 & _). rewrite I4; [done|apply not_below_self]. }
  destruct (flatten_top out f1) as (f2 & Hrun2 & Hmv).
  - by apply is_dir_lookup.
  - by destruct Hext as (_ & _ & _ & _ & I5).
  - by eapply archive_distinct.
  - by eapply archive_fresh.
  - exists f1, f2. split; [done|]. split; [done|].
    pose proof (flat_entries out f0 f1 f2 ms Hfiles Hdistinct Hclear Hext Hmv) as Hperm.
    split; [done|]. split; [|split].
    + by rewrite Hperm, length_map.
    + by eapply flat_no_subdirs.
    + intros k. by eapply flat_nothing_deeper.
Qed.

Lemma archive_flattened_witness :
  exists f1 f2,
    Fs.extractall ["home"; "Outputs"] archive_demo home_outputs = Ok tt f1 /\
    flatten ["home"; "Outputs"] f1 = Ok tt f2 /\
    Fs.entries f2 ["home"; "Outputs"] ≡ₚ
      [("a.h5", NFile (PRaw "A")); ("b.h5", NFile (PRaw "B"));
       ("readme.txt", NFile (PRaw "R"))] /\
    length (Fs.entries f2 ["home"; "Outputs"]) = 3%nat /\
    Fs.subdirs (Fs.entries f2 ["home"; "Outputs"]) = [] /\
    (forall k, below ["home"; "Outputs"] k -> deep ["home"; "Outputs"] k -> f2 !! k = None).
Proof.
  apply (archive_flattened ["home"; "Outputs"] home_outputs archive_demo).
  - reflexivity.
  - intros k (n & rest & ->). unfold home_outputs.
    rewrite lookup_insert_ne by done. by rewrite lookup_singleton_ne.
  - intros m Hm. unfold archive_demo in Hm.
    repeat (apply elem_of_cons in Hm as [->|Hm]); try (split; [done|by eexists]).
    by apply elem_of_nil in Hm.
  - intros m1 m2 n rest H1 H2. unfold archive_demo in H1, H2.
    repeat (apply elem_of_cons in H1 as [->|H1]); [| | |by apply elem_of_nil in H1];
      repeat (apply elem_of_cons in H2 as [->|H2]); try (by apply elem_of_nil in H2);
      simpl; intros Heq; by simplify_eq.
  - unfold names_distinct. simpl. apply (bool_decide_unpack _). by vm_compute.
  - intros m1 m2 a b rest H1 H2. unfold archive_demo in H1, H2.
    repeat (apply elem_of_cons in H1 as [->|H1]); [| | |by apply elem_of_nil in H1];
      repeat (apply elem_of_cons in H2 as [->|H2]); try (by apply elem_of_nil in H2);
      simpl; intros Heq; simplify_eq; done.
Defined.

(** * Further properties *)

(** ** [search_granules] *)

Lemma read_file_ok (f : Fs.t) (p : path) (d : payload) :
  p <> [] -> f !! p = Some (NFile d) -> Fs.read_file p f = Ok d f.
Proof.
  intros Hp Hf. unfold Fs.read_file, bind, get, Fs.is_dir.
  destruct p as [|a p]; [done|]. by rewrite Hf.
Qed.

Lemma read_file_missing (f : Fs.t) (p : path) :
  p <> [] -> f !! p = None -> Fs.read_file p f = Raise (OSError ENOENT) f.
Proof.
  intros Hp Hf. unfold Fs.read_file, bind, get, Fs.is_dir.
  destruct p as [|a p]; [done|]. by rewrite Hf.
Qed.

Section Granules.
Context (py_int : string -> exn + Z)
        (Float : Type) (py_float : pyval -> exn + Float)
        (fmt_sum_2f : list Float -> string).

(** The search up to the point where [hits] is read: the token is stored,
    the file is opened, the request is sent and its status passes. *)
Lemma search_granules_sent sp token geojson fmt w d files r :
  heap w !! sp = Some d ->
  shapefile (fs w) geojson files ->
  net w (calls w) (Post (granules_url fmt) cmr_parameters (<["token" := token]> d) files)
    = Resp r ->
  accepted r ->
  search_granules py_int Float py_float fmt_sum_2f sp token geojson fmt w =
    (let! h := lift (header r "CMR-Hits") in
     let! hits := lift (py_int h) in
     if 0 <? hits then
       print_f [VStr "Found "; VInt hits; VStr " files"] ;;!
       let! results := lift (json_loads (content r)) in
       let! feed := lift (subscript results "feed") in
       let! entry := lift (subscript feed "entry") in
       let! granules := lift (iter_values entry) in
       let! granule_sizes := lift (map_exn (granule_size py_float) granules) in
       print_f [VStr "The total size of all files is ";
                VStr (fmt_sum_2f granule_sizes); VStr " MB"] ;;!
       lift (json_loads (content r))
     else
       print [VStr "Found no hits"] ;;! ret VNone)
      (searched w sp d token
         (Post (granules_url fmt) cmr_parameters (<["token" := token]> d) files) []).
Proof.
  intros Hd Hfiles Hr Hacc.
  unfold search_granules.
  rewrite (bind_Ok _ _ _ _ _ (setitem_ok sp "token" token w d Hd)).
  set (w1 := with_heap w _).
  assert (heap w1 !! sp = Some (<["token" := token]> d)) as Hd1
    by (simpl; apply lookup_insert_eq).
  assert ((match geojson with
           | Some g => let! fh := on_fs (Fs.read_file g) in ret (Some (g, fh))
           | None => ret None
           end) w1 = Ok files w1) as Hopen.
  { destruct geojson as [g|]; simpl in Hfiles.
    - destruct Hfiles as (Hg & dd & Hf & ->).
      unfold bind, on_fs. simpl fs. by rewrite (read_file_ok _ _ _ Hg Hf).
    - by subst files. }
  rewrite (bind_Ok _ _ _ _ _ Hopen).
  set (rq := Post _ _ _ _).
  set (w2 := searched w sp d token rq []).
  match goal with |- bind ?m _ _ = _ => assert (m w1 = Ok (Some r) w2) as Htry end.
  { unfold try_except.
    rewrite (bind_Ok _ _ _ _ _ (getdict_ok _ _ _ Hd1)).
    assert (requests_send rq w1 = Ok r w2) as Hsend.
    { unfold requests_send, bind, send. simpl.
      unfold rq, granules_url, cmr_parameters in *. by rewrite Hr. }
    by rewrite (bind_Ok _ _ _ _ _ Hsend). }
  rewrite (bind_Ok _ _ _ _ _ Htry).
  assert (try_except (raise_for_status r) (fun _ => true) cmr_except w2 = Ok tt w2) as Hst.
  { unfold try_except, raise_for_status, accepted in *.
    destruct (400 <=? status_code r) eqn:H1; [|done].
    destruct (status_code r <? 600) eqn:H2; [|done].
    exfalso. apply Hacc. split; [by apply Z.leb_le|by apply Z.ltb_lt]. }
  rewrite (bind_Ok _ _ _ _ _ Hst).
  reflexivity.
Qed.

(** X1.  A search that finds granules returns the page CMR sent, whole:
    it sends one request, with the token among the search parameters and the
    shapefile when one is given, prints the number of hits read from the
    [CMR-Hits] header, and prints the total of the sizes of the granules of
    the page. *)
Theorem search_granules_returns_page
    (sp : loc) (token : pyval) (geojson : option path) (fmt : string) (w : world)
    (d : gmap string pyval) (files : option (path * payload))
    (r : response) (h : string) (hits : Z) (doc feed : pyval)
    (granules : list pyval) (sizes : list Float) :
  heap w !! sp = Some d ->
  shapefile (fs w) geojson files ->
  let rq := Post (granules_url fmt) cmr_parameters (<["token" := token]> d) files in
  net w (calls w) rq = Resp r ->
  accepted r ->
  header r "CMR-Hits" = inr h -> py_int h = inr hits -> 0 < hits ->
  content r = PJson doc ->
  subscript doc "feed" = inr feed ->
  subscript feed "entry" = inr (VList granules) ->
  map_exn (granule_size py_float) granules = inr sizes ->
  search_granules py_int Float py_float fmt_sum_2f sp token geojson fmt w =
    Ok doc
       (searched w sp d token rq
          [EPrintF [VStr "Found "; VInt hits; VStr " files"];
           EPrintF [VStr "The total size of all files is ";
                    VStr (fmt_sum_2f sizes); VStr " MB"]]).
Proof.
  intros Hd Hfiles rq Hr Hacc Hh Hint Hpos Hc Hfeed Hentry Hsizes.
  rewrite (search_granules_sent sp token geojson fmt w d files r) by done.
  fold rq.
  rewrite (bind_lift _ _ _ _ Hh), (bind_lift _ _ _ _ Hint).
  replace (0 <? hits) with true by (symmetry; by apply Z.ltb_lt).
  unfold print_f at 1, emit, bind at 1. cbv beta iota.
  rewrite Hc. simpl json_loads.
  rewrite (bind_lift _ _ _ doc) by done.
  rewrite (bind_lift _ _ _ _ Hfeed), (bind_lift _ _ _ _ Hentry).
  rewrite (bind_lift _ _ _ granules) by done.
  rewrite (bind_lift _ _ _ _ Hsizes).
  unfold print_f, emit, bind, lift, ret, searched, with_trace. simpl.
  by rewrite <- !app_assoc.
Qed.

(** X2.  With no hits the search prints so and returns [None]; the body of
    the response is not looked at. *)
Theorem search_granules_no_hits
    (sp : loc) (token : pyval) (geojson : option path) (fmt : string) (w : world)
    (d : gmap string pyval) (files : option (path * payload))
    (r : response) (h : string) (hits : Z) :
  heap w !! sp = Some d ->
  shapefile (fs w) geojson files ->
  let rq := Post (granules_url fmt) cmr_parameters (<["token" := token]> d) files in
  net w (calls w) rq = Resp r ->
  accepted r ->
  header r "CMR-Hits" = inr h -> py_int h = inr hits -> hits <= 0 ->
  search_granules py_int Float py_float fmt_sum_2f sp token geojson fmt w =
    Ok VNone (searched w sp d token rq [EPrint [VStr "Found no hits"]]).
Proof.
  intros Hd Hfiles rq Hr Hacc Hh Hint Hneg.
  rewrite (search_granules_sent sp token geojson fmt w d files r) by done.
  fold rq.
  rewrite (bind_lift _ _ _ _ Hh), (bind_lift _ _ _ _ Hint).
  replace (0 <? hits) with false by (symmetry; apply Z.ltb_ge; lia).
  unfold print, emit, bind, ret, searched, with_trace. simpl.
  by rewrite <- app_assoc.
Qed.


(** X4.  When [geojson] names a file that does not exist, the search fails
    on opening it: no request is sent, but the token is in the caller's
    dictionary already. *)
Theorem search_granules_missing_geojson
    (sp : loc) (token : pyval) (g : path) (fmt : string) (w : world)
    (d : gmap string pyval) :
  heap w !! sp = Some d ->
  g <> [] -> fs w !! g = None ->
  search_granules py_int Float py_float fmt_sum_2f sp token (Some g) fmt w =
    Raise (OSError ENOENT) (with_heap w (<[sp := <["token" := token]> d]> (heap w))).
Proof.
  intros Hd Hg Hf.
  unfold search_granules.
  rewrite (bind_Ok _ _ _ _ _ (setitem_ok sp "token" token w d Hd)).
  set (w1 := with_heap w _).
  assert (on_fs (Fs.read_file g) w1 = Raise (OSError ENOENT) w1) as Hopen.
  { unfold on_fs. simpl fs. by rewrite (read_file_missing _ _ Hg Hf). }
  by rewrite (bind_Raise _ _ _ _ _ (bind_Raise _ _ _ _ _ Hopen)).
Qed.















Lemma keeps_setitem {X} (pr : world -> X) d k v :
  (forall w h, pr (with_heap w h) = pr w) -> keeps pr (setitem d k v).
Proof.
  intros Hpr w. unfold setitem. destruct (heap w !! d); [|done]. apply Hpr.
Qed.





End Granules.

Lemma search_granules_returns_page_witness :
  search_granules hits_demo Z tenths_demo sum_demo 0%nat (VStr "tok") None "json"
      (scenario_granules "2") =
    Ok granules_doc
       (searched (scenario_granules "2") 0%nat demo_parameters (VStr "tok")
          (Post (granules_url "json") cmr_parameters
             (<["token" := VStr "tok"]> demo_parameters) None)
          [EPrintF [VStr "Found "; VInt 2; VStr " files"];
           EPrintF [VStr "The total size of all files is ";
                    VStr (sum_demo [15; 25]); VStr " MB"]]).
Proof.
  eapply (search_granules_returns_page hits_demo Z tenths_demo sum_demo
            0%nat (VStr "tok") None "json" (scenario_granules "2") demo_parameters None
            (Response 200 [("CMR-Hits", "2")] (PJson granules_doc)) "2" 2 granules_doc).
  - reflexivity.
  - reflexivity.
  - reflexivity.
  - unfold accepted. simpl. lia.
  - reflexivity.
  - reflexivity.
  - lia.
  - reflexivity.
  - reflexivity.
  - reflexivity.
  - reflexivity.
Defined.

Lemma search_granules_no_hits_witness :
  search_granules hits_demo Z tenths_demo sum_demo 0%nat (VStr "tok") None "json"
      (scenario_granules "0") =
    Ok VNone
       (searched (scenario_granules "0") 0%nat demo_parameters (VStr "tok")
          (Post (granules_url "json") cmr_parameters
             (<["token" := VStr "tok"]> demo_parameters) None)
          [EPrint [VStr "Found no hits"]]).
Proof.
  eapply (search_granules_no_hits hits_demo Z tenths_demo sum_demo
            0%nat (VStr "tok") None "json" (scenario_granules "0") demo_parameters None
            (Response 200 [("CMR-Hits", "0")] (PJson granules_doc)) "0" 0).
  - reflexivity.
  - reflexivity.
  - reflexivity.
  - unfold accepted. simpl. lia.
  - reflexivity.
  - reflexivity.
  - lia.
Defined.


Lemma search_granules_missing_geojson_witness :
  search_granules hits_demo Z tenths_demo sum_demo 0%nat (VStr "tok")
      (Some ["home"; "area.geojson"]) "json" scenario_cmr =
    Raise (OSError ENOENT)
      (with_heap scenario_cmr
         (<[0%nat := <["token" := VStr "tok"]> demo_parameters]> (heap scenario_cmr))).
Proof.
  apply (search_granules_missing_geojson hits_demo Z tenths_demo sum_demo
           0%nat (VStr "tok") ["home"; "area.geojson"] "json" scenario_cmr demo_parameters).
  - reflexivity.
  - done.
  - reflexivity.
Defined.

(** ** [search_services] *)

Lemma bind_Ok_inv {S A B} (m : M S A) (k : A -> M S B) s b s' :
  bind m k s = Ok b s' -> exists a s1, m s = Ok a s1 /\ k a s1 = Ok b s'.
Proof. unfold bind. destruct (m s) as [a s1|e s1|s1]; [|done|done]. by exists a, s1. Qed.

Lemma returns_bind {S A B} (P : B -> Prop) (m : M S A) (k : A -> M S B) :
  (forall a, returns_only P (k a)) -> returns_only P (bind m k).
Proof.
  intros Hk s b s' Hrun. apply bind_Ok_inv in Hrun as (a & s1 & _ & Hrun).
  by apply (Hk a s1 b s').
Qed.

Lemma returns_ret {S A} (P : A -> Prop) (a : A) : P a -> returns_only P (@ret S A a).
Proof. intros Ha s a' s' Hrun. by injection Hrun as <- _. Qed.

Section Services.
Context (py_str : pyval -> string) (py_int : string -> exn + Z).

(** The search up to the point where [hits] is read. *)
Lemma search_services_sent sp token fmt w d r :
  heap w !! sp = Some d ->
  net w (calls w) (Post (collections_url fmt) cmr_parameters (<["token" := token]> d) None)
    = Resp r ->
  accepted r ->
  search_services py_str py_int sp token fmt w =
    services_rest py_str py_int r
      (searched w sp d token
         (Post (collections_url fmt) cmr_parameters (<["token" := token]> d) None) []).
Proof.
  intros Hd Hr Hacc.
  unfold search_services.
  rewrite (bind_Ok _ _ _ _ _ (setitem_ok sp "token" token w d Hd)).
  set (w1 := with_heap w _).
  assert (heap w1 !! sp = Some (<["token" := token]> d)) as Hd1
    by (simpl; apply lookup_insert_eq).
  set (rq := Post _ _ _ _).
  set (w2 := searched w sp d token rq []).
  match goal with |- bind ?m _ _ = _ => assert (m w1 = Ok (Some r) w2) as Htry end.
  { unfold try_except.
    rewrite (bind_Ok _ _ _ _ _ (getdict_ok _ _ _ Hd1)).
    assert (requests_send rq w1 = Ok r w2) as Hsend.
    { unfold requests_send, bind, send. simpl.
      unfold rq, collections_url, cmr_parameters in *. by rewrite Hr. }
    by rewrite (bind_Ok _ _ _ _ _ Hsend). }
  rewrite (bind_Ok _ _ _ _ _ Htry).
  assert (try_except (raise_for_status r) (fun _ => true) cmr_except w2 = Ok tt w2) as Hst.
  { unfold try_except, raise_for_status, accepted in *.
    destruct (400 <=? status_code r) eqn:H1; [|done].
    destruct (status_code r <? 600) eqn:H2; [|done].
    exfalso. apply Hacc. split; [by apply Z.leb_le|by apply Z.ltb_lt]. }
  rewrite (bind_Ok _ _ _ _ _ Hst).
  reflexivity.
Qed.

Lemma first_associations_inv doc assocs :
  first_associations doc = inr assocs ->
  exists feed entry entry0,
    subscript doc "feed" = inr feed /\ subscript feed "entry" = inr entry /\
    subscript0 entry = inr entry0 /\ subscript entry0 "associations" = inr assocs.
Proof.
  unfold first_associations. intros H.
  destruct (subscript doc "feed") as [|feed] eqn:Hf; [done|].
  destruct (subscript feed "entry") as [|entry] eqn:He; [done|].
  destruct (subscript0 entry) as [|entry0] eqn:H0; [done|].
  by exists feed, entry, entry0.
Qed.

Lemma service_options_inv doc o :
  service_options doc = inr o ->
  exists items item0 umm has,
    subscript doc "items" = inr items /\ subscript0 items = inr item0 /\
    subscript item0 "umm" = inr umm /\ py_in "ServiceOptions" umm = inr has /\
    match o with
    | Some v => has = true /\ subscript umm "ServiceOptions" = inr v
    | None => has = false
    end.
Proof.
  unfold service_options. intros H.
  destruct (subscript doc "items") as [|items] eqn:Hi; [done|].
  destruct (subscript0 items) as [|item0] eqn:H0; [done|].
  destruct (subscript item0 "umm") as [|umm] eqn:Hu; [done|].
  destruct (py_in "ServiceOptions" umm) as [|[]] eqn:Hin; [done| |].
  - destruct (subscript umm "ServiceOptions") as [|v] eqn:Hv; [done|].
    injection H as <-. by exists items, item0, umm, true.
  - injection H as <-. by exists items, item0, umm, false.
Qed.

(** One service looked up and shown. *)
Lemma show_service_ok w s r doc o :
  net w (calls w) (Get (service_url py_str s) None) = Resp r ->
  content r = PJson doc -> service_options doc = inr o ->
  show_service py_str (inr s) w =
    Ok tt (World (net w) (S (calls w))
             (trace w ++ ENet (Get (service_url py_str s) None)
                :: match o with Some v => [EPPrint v] | None => [] end)
             (fs w) (cwd w) (heap w)).
Proof.
  intros Hr Hc Ho.
  apply service_options_inv in Ho as (items & item0 & umm & has & Hi & H0 & Hu & Hin & Hopt).
  unfold show_service. simpl lift at 1.
  change (bind (ret s) ?k w) with (k s w). cbv beta.
  assert (requests_send (Get (service_url py_str s) None) w =
          Ok r (World (net w) (S (calls w))
                  (trace w ++ [ENet (Get (service_url py_str s) None)])
                  (fs w) (cwd w) (heap w))) as Hsend.
  { unfold requests_send, bind, send. by rewrite Hr. }
  rewrite (bind_Ok _ _ _ _ _ Hsend).
  rewrite (bind_lift _ _ _ doc) by (by rewrite Hc).
  rewrite (bind_lift _ _ _ _ Hi), (bind_lift _ _ _ _ H0), (bind_lift _ _ _ _ Hu).
  rewrite (bind_lift _ _ _ _ Hin).
  destruct o as [v|].
  - destruct Hopt as [-> Hv].
    rewrite (bind_lift _ _ _ _ Hi), (bind_lift _ _ _ _ H0), (bind_lift _ _ _ _ Hu).
    rewrite (bind_lift _ _ _ _ Hv).
    unfold pprint, emit, with_trace. simpl. by rewrite <- app_assoc.
  - subst has. reflexivity.
Qed.

Lemma show_services_ok services :
  forall shown w,
    services_answer py_str (net w) (calls w) services shown ->
    for_each (map inr services) (show_service py_str) w =
      Ok tt (World (net w) (calls w + length services)
               (trace w ++ services_trace py_str services shown)
               (fs w) (cwd w) (heap w)).
Proof.
  induction services as [|s services IH]; intros shown w Hans.
  - destruct shown; [|done]. simpl. rewrite app_nil_r, Nat.add_0_r. by destruct w.
  - destruct shown as [|o shown]; [done|].
    destruct Hans as [(r & doc & Hr & Hc & Ho) Hans].
    simpl map. simpl for_each.
    rewrite (bind_Ok _ _ _ _ _ (show_service_ok w s r doc o Hr Hc Ho)).
    rewrite (IH shown) by exact Hans.
    simpl. f_equal. f_equal; [lia|]. by rewrite <- app_assoc.
Qed.

(** X6.  When the first collection found has services, each of them is
    looked up in turn at the services endpoint, by its concept identifier,
    and the [ServiceOptions] of those that have any are shown.  The search
    returns [None]. *)
Theorem search_services_shows_options
    (sp : loc) (token : pyval) (fmt : string) (w : world) (d : gmap string pyval)
    (r : response) (h : string) (hits : Z) (doc assocs : pyval)
    (services : list pyval) (shown : list (option pyval)) :
  heap w !! sp = Some d ->
  let rq := Post (collections_url fmt) cmr_parameters (<["token" := token]> d) None in
  net w (calls w) rq = Resp r ->
  accepted r ->
  header r "CMR-Hits" = inr h -> py_int h = inr hits -> 0 < hits ->
  content r = PJson doc ->
  first_associations doc = inr assocs ->
  subscript assocs "services" = inr (VList services) ->
  services_answer py_str (net w) (S (calls w)) services shown ->
  search_services py_str py_int sp token fmt w =
    Ok VNone
       (World (net w) (S (calls w) + length services)
          (trace w ++ ENet rq :: services_trace py_str services shown)
          (fs w) (cwd w) (<[sp := <["token" := token]> d]> (heap w))).
Proof.
  intros Hd rq Hr Hacc Hh Hint Hpos Hc Hassoc Hservices Hans.
  rewrite (search_services_sent sp token fmt w d r) by done. fold rq.
  apply first_associations_inv in Hassoc as (feed & entry & entry0 & Hf & He & H0 & Ha).
  unfold services_rest.
  rewrite (bind_lift _ _ _ _ Hh), (bind_lift _ _ _ _ Hint).
  replace (0 <? hits) with true by (symmetry; by apply Z.ltb_lt).
  rewrite (bind_lift _ _ _ doc) by (by rewrite Hc).
  rewrite (bind_lift _ _ _ _ Hf), (bind_lift _ _ _ _ He), (bind_lift _ _ _ _ H0).
  rewrite (bind_lift _ _ _ _ Ha).
  assert (py_in "services" assocs = inr true) as Hin.
  { destruct assocs as [| | | | |kvs]; try done.
    unfold subscript in Hservices. unfold py_in.
    by destruct (assoc "services" kvs). }
  rewrite (bind_lift _ _ _ _ Hin).
  set (w1 := searched w sp d token rq []).
  assert ((let! services := lift (subscript assocs "services") in
           let! items := lift (indexed_items py_str services) in
           for_each items (show_service py_str)) w1 =
          Ok tt (World (net w1) (calls w1 + length services)
                   (trace w1 ++ services_trace py_str services shown)
                   (fs w1) (cwd w1) (heap w1))) as Hloop.
  { rewrite (bind_lift _ _ _ _ Hservices).
    rewrite (bind_lift _ _ _ (map inr services)) by done.
    by apply show_services_ok. }
  rewrite (bind_Ok _ _ _ _ _ Hloop).
  unfold ret, w1, searched. simpl. by rewrite <- app_assoc.
Qed.

(** X7.  When the associations of the first collection found name no
    services, the search says so and returns [None], having sent the one
    request. *)
Theorem search_services_no_services
    (sp : loc) (token : pyval) (fmt : string) (w : world) (d : gmap string pyval)
    (r : response) (h : string) (hits : Z) (doc assocs : pyval) :
  heap w !! sp = Some d ->
  let rq := Post (collections_url fmt) cmr_parameters (<["token" := token]> d) None in
  net w (calls w) rq = Resp r ->
  accepted r ->
  header r "CMR-Hits" = inr h -> py_int h = inr hits -> 0 < hits ->
  content r = PJson doc ->
  first_associations doc = inr assocs ->
  py_in "services" assocs = inr false ->
  search_services py_str py_int sp token fmt w =
    Ok VNone (searched w sp d token rq [EPrint [VStr "Found no services"]]).
Proof.
  intros Hd rq Hr Hacc Hh Hint Hpos Hc Hassoc Hin.
  rewrite (search_services_sent sp token fmt w d r) by done. fold rq.
  apply first_associations_inv in Hassoc as (feed & entry & entry0 & Hf & He & H0 & Ha).
  unfold services_rest.
  rewrite (bind_lift _ _ _ _ Hh), (bind_lift _ _ _ _ Hint).
  replace (0 <? hits) with true by (symmetry; by apply Z.ltb_lt).
  rewrite (bind_lift _ _ _ doc) by (by rewrite Hc).
  rewrite (bind_lift _ _ _ _ Hf), (bind_lift _ _ _ _ He), (bind_lift _ _ _ _ H0).
  rewrite (bind_lift _ _ _ _ Ha), (bind_lift _ _ _ _ Hin).
  unfold print, emit, bind, ret, searched, with_trace. simpl. by rewrite <- app_assoc.
Qed.

(** X8.  Only the first collection found is looked at, and it has to be
    there and to have associations: with hits but an empty page the search
    raises [IndexError], and with a first collection that has no
    [associations] it raises [KeyError]. *)
Theorem search_services_first_collection
    (sp : loc) (token : pyval) (fmt : string) (w : world) (d : gmap string pyval)
    (r : response) (h : string) (hits : Z) (doc feed : pyval) (page : list pyval) :
  heap w !! sp = Some d ->
  let rq := Post (collections_url fmt) cmr_parameters (<["token" := token]> d) None in
  net w (calls w) rq = Resp r ->
  accepted r ->
  header r "CMR-Hits" = inr h -> py_int h = inr hits -> 0 < hits ->
  content r = PJson doc ->
  subscript doc "feed" = inr feed ->
  subscript feed "entry" = inr (VList page) ->
  (page = [] ->
   search_services py_str py_int sp token fmt w = Raise IndexError (searched w sp d token rq [])) /\
  (forall kvs others, page = VDict kvs :: others -> assoc "associations" kvs = None ->
   search_services py_str py_int sp token fmt w
     = Raise (KeyError "associations") (searched w sp d token rq [])).
Proof.
  intros Hd rq Hr Hacc Hh Hint Hpos Hc Hf He.
  rewrite (search_services_sent sp token fmt w d r) by done. fold rq.
  unfold services_rest.
  rewrite (bind_lift _ _ _ _ Hh), (bind_lift _ _ _ _ Hint).
  replace (0 <? hits) with true by (symmetry; by apply Z.ltb_lt).
  rewrite (bind_lift _ _ _ doc) by (by rewrite Hc).
  rewrite (bind_lift _ _ _ _ Hf), (bind_lift _ _ _ _ He).
  split.
  - by intros ->.
  - intros kvs others -> Hnone.
    rewrite (bind_lift _ _ _ (VDict kvs)) by done.
    unfold bind, lift, subscript. by rewrite Hnone.
Qed.

(** X9.  Whatever [search_services] returns is [None]: what it finds is
    shown, not handed back. *)
Theorem search_services_returns_none
    (sp : loc) (token : pyval) (fmt : string) (w : world) :
  match search_services py_str py_int sp token fmt w with
  | Ok v _ => v = VNone
  | _ => True
  end.
Proof.
  destruct (search_services py_str py_int sp token fmt w) as [v w'|e w'|w'] eqn:Hrun;
    [|done|done].
  revert w v w' Hrun.
  change (returns_only (fun v => v = VNone) (search_services py_str py_int sp token fmt)).
  unfold search_services.
  repeat (apply returns_bind; intros ?).
  destruct (0 <? _).
  - repeat (apply returns_bind; intros ?). by apply returns_ret.
  - apply returns_bind; intros ?. by apply returns_ret.
Qed.

End Services.

Lemma search_services_shows_options_witness :
  let w := scenario_services collections_doc in
  search_services str_demo hits_demo 0%nat (VStr "tok") "json" w =
    Ok VNone
       (World (net w) (S (calls w) + 2)
          (trace w ++
             ENet (Post (collections_url "json") cmr_parameters
                     (<["token" := VStr "tok"]> demo_parameters) None)
             :: services_trace str_demo [VStr "S1"; VStr "S2"] [Some subsetter; None])
          (fs w) (cwd w) (<[0%nat := <["token" := VStr "tok"]> demo_parameters]> (heap w))).
Proof.
  intros w.
  eapply (search_services_shows_options str_demo hits_demo 0%nat (VStr "tok") "json" w
            demo_parameters (Response 200 [("CMR-Hits", "2")] (PJson collections_doc))
            "2" 2 collections_doc
            (VDict [("services", VList [VStr "S1"; VStr "S2"])])
            [VStr "S1"; VStr "S2"] [Some subsetter; None]).
  - reflexivity.
  - reflexivity.
  - unfold accepted. simpl. lia.
  - reflexivity.
  - reflexivity.
  - lia.
  - reflexivity.
  - reflexivity.
  - reflexivity.
  - simpl. split; [|split; [|done]]; eexists _, _; (split; [reflexivity|by split]).
Defined.

Lemma search_services_no_services_witness :
  let w := scenario_services plain_collections_doc in
  search_services str_demo hits_demo 0%nat (VStr "tok") "json" w =
    Ok VNone
       (searched w 0%nat demo_parameters (VStr "tok")
          (Post (collections_url "json") cmr_parameters
             (<["token" := VStr "tok"]> demo_parameters) None)
          [EPrint [VStr "Found no services"]]).
Proof.
  intros w.
  eapply (search_services_no_services str_demo hits_demo 0%nat (VStr "tok") "json" w
            demo_parameters (Response 200 [("CMR-Hits", "2")] (PJson plain_collections_doc))
            "2" 2 plain_collections_doc (VDict [("variables", VList [VStr "V1"])])).
  - reflexivity.
  - reflexivity.
  - unfold accepted. simpl. lia.
  - reflexivity.
  - reflexivity.
  - lia.
  - reflexivity.
  - reflexivity.
  - reflexivity.
Defined.

Lemma search_services_first_collection_witness :
  let w := scenario_services cmr_doc in
  search_services str_demo hits_demo 0%nat (VStr "tok") "json" w =
    Raise (KeyError "associations")
      (searched w 0%nat demo_parameters (VStr "tok")
         (Post (collections_url "json") cmr_parameters
            (<["token" := VStr "tok"]> demo_parameters) None) []).
Proof.
  intros w.
  eapply (search_services_first_collection str_demo hits_demo 0%nat (VStr "tok") "json" w
            demo_parameters (Response 200 [("CMR-Hits", "2")] (PJson cmr_doc))
            "2" 2 cmr_doc (VDict [("entry", VList [VDict [("id", VStr "C1-NSIDC")]])])
            [VDict [("id", VStr "C1-NSIDC")]]).
  - reflexivity.
  - reflexivity.
  - unfold accepted. simpl. lia.
  - reflexivity.
  - reflexivity.
  - lia.
  - reflexivity.
  - reflexivity.
  - reflexivity.
  - reflexivity.
  - reflexivity.
Defined.

(** ** [request_nsidc_data] *)

(** The first statements: the folder is made when it is not there. *)
Lemma nsidc_folder (w : world) :
  Fs.is_dir (fs w) (cwd w) = true ->
  (if Fs.path_exists (fs w) (outputs_dir w) then ret tt
   else on_fs (Fs.mkdir (outputs_dir w))) w = Ok tt (with_fs w (fs_with_outputs w)).
Proof.
  intros Hcwd. unfold fs_with_outputs.
  destruct (Fs.path_exists (fs w) (outputs_dir w)) eqn:Hex.
  - unfold ret, with_fs. by destruct w.
  - unfold on_fs, outputs_dir in *. by rewrite mkdir_ok.
Qed.

Lemma urlopen_raises_run w url e :
  urlopen_raises w (calls w) url e ->
  urlopen url w =
    Raise e (World (net w) (S (calls w)) (trace w ++ [ENet (Urlopen url)])
               (fs w) (cwd w) (heap w)).
Proof.
  intros [He|(r & Hr & Hok & ->)]; unfold urlopen, bind, send.
  - by rewrite He.
  - by rewrite Hr, Hok.
Qed.

Lemma urlopen_answers w url b :
  answers w (calls w) url b ->
  exists r, content r = b /\
    urlopen url w =
      Ok r (World (net w) (S (calls w)) (trace w ++ [ENet (Urlopen url)])
              (fs w) (cwd w) (heap w)).
Proof.
  intros (r & Hr & Hok & Hc). exists r. split; [done|].
  unfold urlopen, bind, send. by rewrite Hr, Hok.
Qed.


(** X11.  When the answer to the order is a document without an order in
    it, [request_nsidc_data] raises [IndexError] on looking for the order's
    identifier; when the first element under [order] has no text, it raises
    [TypeError] on building the status address.  Either way one request has
    been sent and the output folder is there. *)
Theorem nsidc_order_without_id (fuel : nat) (api : string) (w : world) (root : element) :
  Fs.is_dir (fs w) (cwd w) = true ->
  answers w (calls w) api (PXml root) ->
  (findall_children_of root "order" = [] ->
   request_nsidc_data fuel api w = Raise IndexError (nsidc_ordered w api)) /\
  (first_text root "order" = inr None ->
   request_nsidc_data fuel api w = Raise TypeError (nsidc_ordered w api)).
Proof.
  intros Hcwd Hans.
  assert (answers (with_fs w (fs_with_outputs w))
            (calls (with_fs w (fs_with_outputs w))) api (PXml root)) as Hans' by exact Hans.
  destruct (urlopen_answers _ _ _ Hans') as (r & Hc & Hopen).
  split; intros Hnone; unfold request_nsidc_data;
    unfold bind at 1; unfold get at 1;
    rewrite (bind_Ok _ _ _ _ _ (nsidc_folder w Hcwd));
    rewrite (bind_Ok _ _ _ _ _ Hopen);
    rewrite (bind_lift _ _ _ root) by (by rewrite Hc); cbv zeta.
  - by rewrite Hnone.
  - unfold first_text in Hnone. by rewrite (bind_lift _ _ _ _ Hnone).
Qed.

(** X12.  An order that ends complete with errors, after at least one turn
    of polling: the messages under [processInfo] are shown first, and then
    the archive is asked for all the same. *)
Theorem nsidc_complete_with_errors
    (fuel : nat) (api : string) (w : world) (root1 root2 : element) (id : string)
    (status0 : option string) (loop_root : element) (w1 : world) :
  Fs.is_dir (fs w) (cwd w) = true ->
  answers w (calls w) api (PXml root1) ->
  first_text root1 "order" = inr (Some id) ->
  answers w (S (calls w)) (nsidc_status_url id) (PXml root2) ->
  first_text root2 "requestStatus" = inr status0 ->
  nsidc_poll fuel (nsidc_status_url id) status0 None (nsidc_started w api id)
    = Ok (Some "complete_with_errors", Some loop_root) w1 ->
  exists rest,
    trace (state_of (request_nsidc_data fuel api w)) =
      trace w1 ++
      [EPrint [VStr "Job status is "; VStr "complete_with_errors"];
       EPrint [VStr "error messages:"];
       EPPrint (error_messages loop_root);
       EPrint [VStr "Job status is "; VStr "complete_with_errors"];
       EPrint [VStr "Zip download URL: "; VStr (nsidc_zip_url id)];
       EPrint [VStr "Beginning download of zipped output..."];
       ENet (Urlopen (nsidc_zip_url id))] ++ rest /\
    actions rest = [].
Proof.
  intros Hcwd Ha1 Hid Ha2 Hst Hpoll.
  rewrite (nsidc_prelude fuel api w root1 id root2 status0) by done.
  unfold nsidc_rest. rewrite (bind_Ok _ _ _ _ _ Hpoll). cbn [fst snd].
  assert (nsidc_report_errors (Some "complete_with_errors") (Some loop_root) w1 =
          Ok tt (with_trace w1
                   (trace w1 ++
                      [EPrint [VStr "Job status is "; VStr "complete_with_errors"];
                       EPrint [VStr "error messages:"];
                       EPPrint (error_messages loop_root)]))) as Hrep.
  { unfold nsidc_report_errors, local, print, pprint, emit, bind, ret, with_trace,
      error_messages. simpl. by rewrite <- !app_assoc. }
  rewrite (bind_Ok _ _ _ _ _ Hrep).
  destruct (download_trace (outputs_dir w) id (Some "complete_with_errors")
              (with_trace w1
                 (trace w1 ++
                    [EPrint [VStr "Job status is "; VStr "complete_with_errors"];
                     EPrint [VStr "error messages:"];
                     EPPrint (error_messages loop_root)]))) as (rest & Htr & Hact);
    [done|].
  exists rest. split; [|done].
  rewrite Htr. simpl. by rewrite <- !app_assoc.
Qed.


Lemma nsidc_order_without_id_witness :
  let w := fresh (always (PXml exception_xml)) in
  request_nsidc_data 3 "req" w = Raise IndexError (nsidc_ordered w "req").
Proof.
  intros w. eapply (nsidc_order_without_id 3 "req" w exception_xml).
  - reflexivity.
  - eexists. split; [reflexivity|]. by split.
  - reflexivity.
Defined.

Lemma nsidc_complete_with_errors_witness :
  let w := scenario_with_errors in
  exists w1,
    nsidc_poll 3 (nsidc_status_url "5000") (Some "pending") None (nsidc_started w "req" "5000")
      = Ok (Some "complete_with_errors", Some errors_xml) w1 /\
    exists rest,
      trace (state_of (request_nsidc_data 3 "req" w)) =
        trace w1 ++
        [EPrint [VStr "Job status is "; VStr "complete_with_errors"];
         EPrint [VStr "error messages:"];
         EPPrint (error_messages errors_xml);
         EPrint [VStr "Job status is "; VStr "complete_with_errors"];
         EPrint [VStr "Zip download URL: "; VStr (nsidc_zip_url "5000")];
         EPrint [VStr "Beginning download of zipped output..."];
         ENet (Urlopen (nsidc_zip_url "5000"))] ++ rest /\
      actions rest = [].
Proof.
  intros w. eexists. split; [reflexivity|].
  eapply (nsidc_complete_with_errors 3 "req" w (order_xml "5000") (status_xml "pending")
            "5000" (Some "pending") errors_xml).
  - reflexivity.
  - eexists. split; [reflexivity|]. by split.
  - reflexivity.
  - eexists. split; [reflexivity|]. by split.
  - reflexivity.
  - reflexivity.
Defined.

(** ** The clean-up walk on any output folder *)

Section FlattenAny.
Variable out : path.
Variables (f f' : gmap path node).
Hypothesis Hparents : parents_ok f (below out).
Hypothesis Hfresh : fresh_names out f (fun k => below out k /\ deep out k).
Hypothesis Hmoved : moved out (top_folders out f) f f'.

Lemma deep_in_top_folder (k : path) :
  below out k -> deep out k -> is_Some (f !! k) -> top_folders out f k.
Proof.
  intros (a & rest & ->) Hdeep Hk.
  destruct rest as [|c rest].
  { unfold deep in Hdeep. rewrite length_app in Hdeep. simpl in Hdeep. lia. }
  exists a. split.
  - by apply (ancestors_dirs out f [a] c rest).
  - exists (c :: rest). by rewrite <- app_assoc.
Qed.

Lemma top_folder_file_deep (k : path) (d : payload) :
  top_folders out f k -> f !! k = Some (NFile d) -> below out k /\ deep out k.
Proof.
  intros (a & Ha & Hpre) Hk.
  apply prefix_snoc_cases in Hpre as [->|Hb]; [congruence|].
  split; [by eapply below_child|].
  apply below_child_length in Hb. unfold deep. lia.
Qed.

Lemma top_entry_not_in_folder (n : string) :
  f !! (out ++ [n]) <> Some NDir -> ~ top_folders out f (out ++ [n]).
Proof.
  intros Hn (a & Ha & Hpre). apply prefix_snoc_cases in Hpre as [Heq|Hb].
  - rewrite <- Heq in Ha. done.
  - apply below_child_length in Hb. rewrite length_app in Hb. simpl in Hb. lia.
Qed.

(** Whether some file of a subfolder has the name [n]. *)
Lemma moved_file_dec (n : string) :
  (exists k d, below out k /\ deep out k /\ f !! k = Some (NFile d) /\ Fs.basename k = n) \/
  (forall k d, below out k -> deep out k -> f !! k = Some (NFile d) -> Fs.basename k <> n).
Proof.
  set (b := fun kv : path * node =>
              match kv.2 with
              | NFile _ => bool_decide (out `prefix_of` kv.1)
                           && Nat.leb (length out + 2) (length kv.1)
                           && String.eqb (Fs.basename kv.1) n
              | NDir => false
              end).
  destruct (existsb b (map_to_list f)) eqn:Hex.
  - left. apply existsb_exists in Hex as ([k x] & Hin & Hb).
    apply list_elem_of_In, elem_of_map_to_list in Hin.
    unfold b in Hb. simpl in Hb. destruct x as [d|]; [|done].
    apply andb_prop in Hb as [Hb Hname]. apply andb_prop in Hb as [Hpre Hlen].
    apply bool_decide_eq_true_1 in Hpre. apply Nat.leb_le in Hlen.
    apply String.eqb_eq in Hname.
    exists k, d. split; [|done].
    apply prefix_snoc_cases in Hpre as [->|Hbelow]; [lia|done].
  - right. intros k d Hbelow Hdeep Hk Hname.
    assert (existsb b (map_to_list f) = true) as Htrue; [|congruence].
    apply existsb_exists. exists (k, NFile d). split.
    + by apply list_elem_of_In, elem_of_map_to_list.
    + unfold b. simpl. rewrite bool_decide_eq_true_2 by (by apply below_prefix).
      unfold deep in Hdeep. rewrite (proj2 (Nat.leb_le _ _) Hdeep).
      simpl. by apply String.eqb_eq.
Qed.

Lemma any_file_lands (k : path) (d : payload) :
  below out k -> deep out k -> f !! k = Some (NFile d) ->
  f' !! (out ++ [Fs.basename k]) = Some (NFile d).
Proof.
  intros Hb Hdeep Hk. destruct Hmoved as (_ & M2 & _).
  apply (M2 k d); [|done]. by apply deep_in_top_folder.
Qed.

Lemma any_top_file_stays (n : string) (d : payload) :
  f !! (out ++ [n]) = Some (NFile d) -> f' !! (out ++ [n]) = Some (NFile d).
Proof.
  intros Hn. destruct Hmoved as (_ & _ & M3). rewrite M3; [done| |].
  - apply top_entry_not_in_folder. congruence.
  - intros k0 d0 Htop Hk0 Heq.
    destruct (top_folder_file_deep k0 d0 Htop Hk0) as [Hb Hdeep].
    rewrite Heq, (Hfresh k0 d0) in Hn; done.
Qed.

Lemma any_outside_kept (k : path) : ~ below out k -> f' !! k = f !! k.
Proof.
  intros Hk. destruct Hmoved as (_ & _ & M3). apply M3.
  - intros (a & Ha & Hpre). apply Hk.
    apply prefix_snoc_cases in Hpre as [->|Hb]; [by exists a, []|by eapply below_child].
  - intros k0 d0 _ _ ->. apply Hk. by exists (Fs.basename k0), [].
Qed.

Lemma any_nothing_deeper (k : path) : below out k -> deep out k -> f' !! k = None.
Proof.
  intros (a & rest & ->) Hdeep. destruct Hmoved as (M1 & _ & M3).
  destruct rest as [|c rest].
  { unfold deep in Hdeep. rewrite length_app in Hdeep. simpl in Hdeep. lia. }
  assert (f !! (out ++ [a]) = Some NDir \/ f !! (out ++ [a]) <> Some NDir) as [E|E]
    by (destruct (f !! (out ++ [a])) as [[]|]; auto).
  - apply M1. exists a. split; [done|]. exists (c :: rest). by rewrite <- app_assoc.
  - assert (f !! (out ++ a :: c :: rest) = None) as Hn.
    { destruct (f !! (out ++ a :: c :: rest)) eqn:E'; [|done].
      destruct E. apply (ancestors_dirs out f [a] c rest); [done|done|by eexists]. }
    rewrite M3; [done| |].
    + intros (d0 & Hd0 & [t Ht]). rewrite <- app_assoc in Ht.
      apply app_inv_head in Ht. simpl in Ht. injection Ht as Ha _. by subst d0.
    + intros k0 d0 _ _. by apply deep_not_target.
Qed.

Lemma any_entry_is_file (n : string) (nd : node) :
  f' !! (out ++ [n]) = Some nd ->
  exists d, nd = NFile d /\
    (f !! (out ++ [n]) = Some (NFile d) \/
     exists k, below out k /\ deep out k /\ f !! k = Some (NFile d) /\ Fs.basename k = n).
Proof.
  intros Hn. destruct Hmoved as (M1 & M2 & M3).
  destruct (f !! (out ++ [n])) as [[d|]|] eqn:E.
  - rewrite (any_top_file_stays n d E) in Hn. exists d. split; [congruence|by left].
  - rewrite M1 in Hn; [done|]. by exists n.
  - destruct (moved_file_dec n) as [(k & d & Hb & Hdeep & Hk & Hname)|Hno].
    + rewrite <- Hname, (any_file_lands k d Hb Hdeep Hk) in Hn.
      exists d. split; [congruence|]. right. by exists k.
    + rewrite M3, E in Hn; [done| |].
      * apply top_entry_not_in_folder. congruence.
      * intros k0 d0 Htop Hk0 Heq.
        destruct (top_folder_file_deep k0 d0 Htop Hk0) as [Hb Hdeep].
        apply (Hno k0 d0 Hb Hdeep Hk0).
        unfold target in Heq. by apply app_inv_head in Heq as [= ->].
Qed.

Lemma any_no_subdirs : Fs.subdirs (Fs.entries f' out) = [].
Proof.
  destruct (Fs.subdirs (Fs.entries f' out)) as [|n l] eqn:E; [done|].
  assert (n ∈ Fs.subdirs (Fs.entries f' out)) as Hn by (rewrite E; left).
  apply elem_of_subdirs in Hn.
  by destruct (any_entry_is_file n NDir Hn) as (d & ? & _).
Qed.

End FlattenAny.

(** X13.  The clean-up walk of [request_nsidc_data] works on all the output
    folder holds, not only on what was just downloaded.  When no two files
    in its subfolders have the same name, and none has the name of an entry
    of the folder itself, the walk succeeds: every file of a subfolder, at
    any depth, is then a file of the output folder under its own name, the
    files that were there stay, no folder is left, and nothing outside the
    output folder has changed. *)
Theorem flatten_moves_all_files_up (out : path) (f : gmap path node) :
  Fs.is_dir f out = true ->
  parents_ok f (below out) ->
  distinct_names f (fun k => below out k /\ deep out k) ->
  fresh_names out f (fun k => below out k /\ deep out k) ->
  exists f',
    flatten out f = Ok tt f' /\
    (forall k d, below out k -> deep out k -> f !! k = Some (NFile d) ->
       f' !! (out ++ [Fs.basename k]) = Some (NFile d)) /\
    (forall n d, f !! (out ++ [n]) = Some (NFile d) -> f' !! (out ++ [n]) = Some (NFile d)) /\
    (forall n nd, f' !! (out ++ [n]) = Some nd ->
       exists d, nd = NFile d /\
         (f !! (out ++ [n]) = Some (NFile d) \/
          exists k, below out k /\ deep out k /\ f !! k = Some (NFile d) /\
                    Fs.basename k = n)) /\
    Fs.subdirs (Fs.entries f' out) = [] /\
    (forall k, below out k -> deep out k -> f' !! k = None) /\
    (forall k, ~ below out k -> f' !! k = f !! k).
Proof.
  intros Hdir Hparents Hdistinct Hfresh.
  destruct (flatten_top out f Hdir Hparents Hdistinct Hfresh) as (f' & Hrun & Hmoved).
  exists f'. split; [done|].
  split; [by eapply any_file_lands|].
  split; [by eapply any_top_file_stays|].
  split; [by eapply any_entry_is_file|].
  split; [by eapply any_no_subdirs|].
  split; [by eapply any_nothing_deeper|by eapply any_outside_kept].
Qed.

(** X14.  Cleaning up twice is cleaning up once: after a walk that
    succeeded, a second walk finds nothing to move and changes nothing. *)
Theorem flatten_twice (out : path) (f : gmap path node) :
  Fs.is_dir f out = true ->
  parents_ok f (below out) ->
  distinct_names f (fun k => below out k /\ deep out k) ->
  fresh_names out f (fun k => below out k /\ deep out k) ->
  exists f', flatten out f = Ok tt f' /\ flatten out f' = Ok tt f'.
Proof.
  intros Hdir Hparents Hdistinct Hfresh.
  destruct (flatten_top out f Hdir Hparents Hdistinct Hfresh) as (f' & Hrun & Hmoved).
  exists f'. split; [done|].
  apply flatten_flat. by eapply any_no_subdirs.
Qed.

(** The example folder meets the conditions. *)
Lemma kept_fs_entries (k : path) (x : node) :
  kept_fs !! k = Some x ->
  (k, x) ∈ [(["home"], NDir);
            (["home"; "Outputs"], NDir);
            (["home"; "Outputs"; "old.h5"], NFile (PRaw "O"));
            (["home"; "Outputs"; "g1"], NDir);
            (["home"; "Outputs"; "g1"; "a.h5"], NFile (PRaw "A"))].
Proof.
  intros Hk. unfold kept_fs in Hk.
  repeat (apply lookup_insert_Some in Hk as [[<- <-]|[_ Hk]];
          [set_solver|]).
  apply lookup_singleton_Some in Hk as [<- <-]. set_solver.
Qed.

Ltac kept_fs_cases H :=
  apply kept_fs_entries in H;
  repeat (apply elem_of_cons in H as [H|H]); [..|by apply elem_of_nil in H];
  injection H as ? ?; subst.

Lemma kept_fs_parents : parents_ok kept_fs (below ["home"; "Outputs"]).
Proof.
  intros q n (a & rest & Hbelow) [x Hx]. simpl in Hbelow.
  apply kept_fs_entries in Hx.
  repeat (apply elem_of_cons in Hx as [Hx|Hx]); [..|by apply elem_of_nil in Hx];
    injection Hx as Hk _; rewrite Hk in Hbelow; try done;
    apply (f_equal Fs.dirname) in Hk; rewrite dirname_snoc in Hk; subst q;
    by vm_compute.
Qed.

Lemma kept_fs_distinct :
  distinct_names kept_fs (fun k => below ["home"; "Outputs"] k /\ deep ["home"; "Outputs"] k).
Proof.
  intros k1 k2 d1 d2 [_ Hd1] [_ Hd2] H1 H2 _. unfold deep in *.
  kept_fs_cases H1; kept_fs_cases H2; simpl in *; try lia; done.
Qed.

Lemma kept_fs_fresh :
  fresh_names ["home"; "Outputs"] kept_fs
    (fun k => below ["home"; "Outputs"] k /\ deep ["home"; "Outputs"] k).
Proof.
  intros k d [_ Hd] H. unfold deep in *.
  kept_fs_cases H; simpl in *; try lia. by vm_compute.
Qed.

Lemma flatten_moves_all_files_up_witness :
  exists f',
    flatten ["home"; "Outputs"] kept_fs = Ok tt f' /\
    (forall k d, below ["home"; "Outputs"] k -> deep ["home"; "Outputs"] k ->
       kept_fs !! k = Some (NFile d) ->
       f' !! (["home"; "Outputs"] ++ [Fs.basename k]) = Some (NFile d)) /\
    (forall n d, kept_fs !! (["home"; "Outputs"] ++ [n]) = Some (NFile d) ->
       f' !! (["home"; "Outputs"] ++ [n]) = Some (NFile d)) /\
    (forall n nd, f' !! (["home"; "Outputs"] ++ [n]) = Some nd ->
       exists d, nd = NFile d /\
         (kept_fs !! (["home"; "Outputs"] ++ [n]) = Some (NFile d) \/
          exists k, below ["home"; "Outputs"] k /\ deep ["home"; "Outputs"] k /\
                    kept_fs !! k = Some (NFile d) /\ Fs.basename k = n)) /\
    Fs.subdirs (Fs.entries f' ["home"; "Outputs"]) = [] /\
    (forall k, below ["home"; "Outputs"] k -> deep ["home"; "Outputs"] k -> f' !! k = None) /\
    (forall k, ~ below ["home"; "Outputs"] k -> f' !! k = kept_fs !! k).
Proof.
  apply (flatten_moves_all_files_up ["home"; "Outputs"] kept_fs).
  - reflexivity.
  - exact kept_fs_parents.
  - exact kept_fs_distinct.
  - exact kept_fs_fresh.
Defined.

Lemma flatten_twice_witness :
  exists f', flatten ["home"; "Outputs"] kept_fs = Ok tt f' /\
             flatten ["home"; "Outputs"] f' = Ok tt f'.
Proof.
  apply (flatten_twice ["home"; "Outputs"] kept_fs).
  - reflexivity.
  - exact kept_fs_parents.
  - exact kept_fs_distinct.
  - exact kept_fs_fresh.
Defined.

(** ** What the NSIDC client leaves alone *)

Section Within.
Context {S : Type} (R : S -> S -> Prop) `{!Reflexive R} `{!Transitive R}.

Lemma within_ret {A} (a : A) : within R (ret a).
Proof. intros s. reflexivity. Qed.

Lemma within_raise {A} e : within R (@raise S A e).
Proof. intros s. reflexivity. Qed.

Lemma within_running {A} : within R (@running S A).
Proof. intros s. reflexivity. Qed.

Lemma within_lift {A} (r : exn + A) : within R (lift r).
Proof. destruct r; [apply within_raise|apply within_ret]. Qed.

Lemma within_get : within R get.
Proof. intros s. reflexivity. Qed.

Lemma within_bind {A B} (m : M S A) (k : A -> M S B) :
  within R m -> (forall a, within R (k a)) -> within R (bind m k).
Proof.
  intros Hm Hk s. specialize (Hm s). unfold bind.
  destruct (m s) as [a s1|e s1|s1]; simpl in *; [|done|done].
  by etransitivity; [|apply Hk].
Qed.

Lemma within_try {A} (m : M S A) c h :
  within R m -> (forall e, within R (h e)) -> within R (try_except m c h).
Proof.
  intros Hm Hh s. specialize (Hm s). unfold try_except.
  destruct (m s) as [a s1|e s1|s1]; simpl in *; [done| |done].
  destruct (c e); [|done]. by etransitivity; [|apply Hh].
Qed.

Lemma within_for_each {A} (xs : list A) body :
  (forall x, within R (body x)) -> within R (for_each xs body).
Proof.
  intros Hb. induction xs as [|x xs IH]; simpl; [apply within_ret|].
  apply within_bind; [apply Hb|by intros _].
Qed.

End Within.

Ltac within_step :=
  match goal with
  | |- within ?R (bind _ _) => apply (within_bind R); [|intros ?]
  | |- within ?R (ret _) => apply (within_ret R)
  | |- within ?R (raise _) => apply (within_raise R)
  | |- within ?R running => apply (within_running R)
  | |- within ?R (lift _) => apply (within_lift R)
  | |- within ?R get => apply (within_get R)
  | |- within ?R (try_except _ _ _) => apply (within_try R); [|intros ?]
  | |- within ?R (for_each _ _) => apply (within_for_each R); intros ?
  | |- within _ (match ?x with _ => _ end) => destruct x
  | |- within _ (if ?x then _ else _) => destruct x
  end.

Section Confined.
Variable out : path.
Hypothesis Hout : out <> [].

Lemma parent_outside : ~ out `prefix_of` Fs.dirname out.
Proof.
  destruct out as [|x l _] using rev_ind; [done|].
  rewrite dirname_snoc. intros [r Hr]. apply (f_equal length) in Hr.
  rewrite !length_app in Hr. simpl in Hr. lia.
Qed.

Lemma path_exists_agree (f g : Fs.t) (p : path) :
  g !! p = f !! p -> Fs.path_exists g p = Fs.path_exists f p.
Proof. intros H. unfold Fs.path_exists. destruct p; [done|]. by rewrite H. Qed.

Lemma path_exists_lookup (f : Fs.t) : Fs.path_exists f out = true <-> is_Some (f !! out).
Proof.
  unfold Fs.path_exists. destruct out; [done|].
  split; [apply bool_decide_eq_true_1|apply bool_decide_eq_true_2].
Qed.

#[local] Instance confined_refl : Reflexive (confined out).
Proof. by intros f Ho Hc. Qed.

#[local] Instance confined_trans : Transitive (confined out).
Proof.
  intros f g h Hfg Hgh Ho Hc.
  destruct (Hfg Ho Hc) as [Ho' Hg].
  assert (Fs.path_exists g (Fs.dirname out) = true) as Hc'.
  { rewrite (path_exists_agree f g); [done|]. apply Hg, parent_outside. }
  destruct (Hgh Ho' Hc') as [Ho'' Hh]. split; [done|].
  intros p Hp. by rewrite Hh, Hg.
Qed.

(** One entry at or below [out] put in, or one below it taken away. *)
Lemma confined_insert (f : Fs.t) (p : path) (nd : node) :
  out `prefix_of` p -> confined out f (<[p := nd]> f).
Proof.
  intros Hp Ho _. split.
  - apply path_exists_lookup. apply path_exists_lookup in Ho.
    destruct (decide (p = out)) as [->|Hne].
    + rewrite lookup_insert_eq. by eexists.
    + by rewrite lookup_insert_ne.
  - intros q Hq. rewrite lookup_insert_ne; [done|]. by intros ->.
Qed.

Lemma confined_delete (f : Fs.t) (p : path) :
  below out p -> confined out f (delete p f).
Proof.
  intros Hp Ho _.
  assert (p <> out) as Hne by (intros ->; by apply (not_below_self out)).
  split.
  - apply path_exists_lookup. apply path_exists_lookup in Ho.
    by rewrite lookup_delete_ne.
  - intros q Hq. rewrite lookup_delete_ne; [done|].
    intros ->. by apply Hq, below_prefix.
Qed.

Lemma mkdir_confined (p : path) :
  out `prefix_of` p -> within (confined out) (Fs.mkdir p).
Proof.
  intros Hp f. unfold Fs.mkdir, bind, get.
  destruct (Fs.path_exists f p); [reflexivity|].
  destruct (Fs.path_exists f (Fs.dirname p)); [|reflexivity].
  destruct (Fs.is_dir f (Fs.dirname p)); [|reflexivity].
  by apply confined_insert.
Qed.

Lemma write_file_confined (p : path) (d : payload) :
  out `prefix_of` p -> within (confined out) (Fs.write_file p d).
Proof.
  intros Hp f. unfold Fs.write_file, bind, get.
  destruct (Fs.is_dir f p); [reflexivity|].
  destruct (Fs.path_exists f (Fs.dirname p)); [|reflexivity].
  destruct (Fs.is_dir f (Fs.dirname p)); [|reflexivity].
  by apply confined_insert.
Qed.

Lemma rmdir_confined (p : path) :
  below out p -> within (confined out) (Fs.rmdir p).
Proof.
  intros Hp f. unfold Fs.rmdir, bind, get.
  destruct (f !! p) as [[]|]; [reflexivity| |reflexivity].
  destruct (Fs.entries f p); [|reflexivity].
  by apply confined_delete.
Qed.

(** A folder moved with all it holds, from below [out] to [out] or below. *)
Lemma rename_tree_confined (src dst : path) (f : Fs.t) :
  below out src -> out `prefix_of` dst -> confined out f (Fs.rename_tree src dst f).
Proof.
  intros Hsrc Hdst Ho _.
  assert (forall k, Fs.is_under src k = true -> out `prefix_of` k) as Hunder.
  { intros k Hk. apply bool_decide_eq_true_1 in Hk.
    etransitivity; [|exact Hk]. by apply below_prefix. }
  split.
  - apply path_exists_lookup. apply path_exists_lookup in Ho. revert Ho.
    unfold Fs.rename_tree.
    apply (map_fold_weak_ind
             (fun (acc : Fs.t) (m : Fs.t) => is_Some (m !! out) -> is_Some (acc !! out))).
    + intros [x Hx]. by rewrite lookup_empty in Hx.
    + intros i x m acc Hi IH Hsome.
      destruct (decide (i = out)) as [->|Hne].
      * assert (Fs.is_under src out = false) as ->.
        { apply bool_decide_eq_false_2. intros Hpre.
          apply (not_below_self out). destruct Hsrc as (n & rest & ->).
          destruct Hpre as [t Ht]. exists n, (rest ++ t).
          by rewrite <- app_assoc in Ht. }
        rewrite lookup_insert_eq. by eexists.
      * rewrite lookup_insert_ne in Hsome by done. specialize (IH Hsome).
        destruct (Fs.is_under src i); apply lookup_insert_is_Some'; by right.
  - unfold Fs.rename_tree.
    apply (map_fold_weak_ind
             (fun (acc : Fs.t) (m : Fs.t) =>
                forall p, ~ out `prefix_of` p -> acc !! p = m !! p)).
    + done.
    + intros i x m acc Hi IH p Hp.
      destruct (Fs.is_under src i) eqn:Hu.
      * rewrite !lookup_insert_ne; [by apply IH| |].
        -- intros ->. by apply Hp, Hunder.
        -- intros <-. apply Hp. etransitivity; [exact Hdst|]. by eexists.
      * destruct (decide (i = p)) as [->|Hne].
        -- by rewrite !lookup_insert_eq.
        -- rewrite !lookup_insert_ne by done. by apply IH.
Qed.

Lemma rename_confined (src dst : path) :
  below out src -> out `prefix_of` dst -> within (confined out) (Fs.rename src dst).
Proof.
  intros Hsrc Hdst f. unfold Fs.rename, bind, get.
  destruct (f !! src) as [[d|]|]; [| |reflexivity].
  - destruct (Fs.is_dir f dst); [reflexivity|].
    destruct (Fs.is_dir f (Fs.dirname dst)); [|reflexivity].
    simpl. etransitivity; [by apply confined_delete|by apply confined_insert].
  - destruct (Fs.path_exists f dst); [reflexivity|].
    destruct (Fs.is_dir f (Fs.dirname dst)); [|reflexivity].
    by apply rename_tree_confined.
Qed.

Lemma move_confined (src : path) :
  below out src -> within (confined out) (Fs.move src out).
Proof.
  intros Hsrc f. unfold Fs.move, bind at 1, get at 1.
  destruct (Fs.is_dir f out).
  - destruct (bool_decide (src = out)); [by apply rename_confined|].
    destruct (Fs.path_exists f (out ++ [Fs.basename src])); [reflexivity|].
    apply rename_confined; [done|]. by eexists.
  - by apply rename_confined.
Qed.

Lemma below_snoc (root : path) (x : string) : out `prefix_of` root -> below out (root ++ [x]).
Proof.
  intros [r ->]. destruct r as [|n rest].
  - exists x, []. by rewrite app_nil_r.
  - exists n, (rest ++ [x]). by rewrite <- app_assoc.
Qed.

Lemma flatten_step_confined (root : path) (dirs files : list string) :
  out `prefix_of` root -> within (confined out) (flatten_step out root dirs files).
Proof.
  intros Hroot. unfold flatten_step.
  apply (within_bind (confined out)); [|intros _].
  - apply (within_for_each (confined out)); intros file.
    apply (within_try (confined out)); [|intros e; by apply within_ret].
    by apply move_confined, below_snoc.
  - apply (within_for_each (confined out)); intros name.
    by apply rmdir_confined, below_snoc.
Qed.

Lemma walk_up_confined (n : nat) :
  forall top, out `prefix_of` top ->
    within (confined out) (Fs.walk_up n top (flatten_step out)).
Proof.
  induction n as [|n IH]; intros top Htop; simpl.
  - by apply within_running.
  - intros f. unfold bind at 1, get at 1.
    destruct (Fs.is_dir f top); [|reflexivity].
    apply (within_bind (confined out)).
    + apply (within_for_each (confined out)); intros d.
      apply IH. by apply below_prefix, below_snoc.
    + intros _. by apply flatten_step_confined.
Qed.

Lemma flatten_confined : within (confined out) (flatten out).
Proof.
  intros f. unfold flatten, Fs.walk, bind at 1, get at 1.
  by apply walk_up_confined.
Qed.

(** Folders made on the way to an entry below [out]. *)
Lemma makedirs_confined (rp : list string) :
  below out (rev rp) -> within (confined out) (Fs.makedirs_rev rp).
Proof.
  induction rp as [|tail rhead IH]; intros Hb.
  - destruct Hb as (n & rest & Hb). by destruct out.
  - simpl in Hb. intros f.
    assert (Fs.makedirs_rev (tail :: rhead) f =
            ((if Fs.path_exists f (rev rhead) then ret tt
              else try_except (Fs.makedirs_rev rhead) Fs.is_EEXIST (fun _ => ret tt)) ;;!
             Fs.mkdir (rev rhead ++ [tail])) f) as -> by reflexivity.
    assert (within (confined out) (Fs.mkdir (rev rhead ++ [tail]))) as Hmk
      by (by apply mkdir_confined, below_prefix).
    apply below_parent in Hb as [Heq|Hb'].
    + intros Ho Hc.
      assert (((if Fs.path_exists f (rev rhead) then ret tt
                else try_except (Fs.makedirs_rev rhead) Fs.is_EEXIST (fun _ => ret tt)) ;;!
               Fs.mkdir (rev rhead ++ [tail])) f = Fs.mkdir (rev rhead ++ [tail]) f) as ->
        by (unfold bind; by rewrite Heq, Ho).
      by apply (Hmk f).
    + apply (within_bind (confined out)); [|by intros _].
      destruct (Fs.path_exists f (rev rhead)); [by apply within_ret|].
      apply (within_try (confined out)); [by apply IH|intros e; by apply within_ret].
Qed.

Lemma extract_member_confined (m : zip_member) :
  within (confined out) (Fs.extract_member out m).
Proof.
  intros f.
  set (rest := match zm_data m with
               | None =>
                   let! f := get in
                   if Fs.is_dir f (out ++ zm_name m) then ret tt
                   else Fs.mkdir (out ++ zm_name m)
               | Some d => Fs.write_file (out ++ zm_name m) (PRaw d)
               end).
  assert (Fs.extract_member out m f =
          ((if Fs.path_exists f (Fs.dirname (out ++ zm_name m)) then ret tt
            else Fs.makedirs (Fs.dirname (out ++ zm_name m))) ;;! rest) f) as ->
    by reflexivity.
  assert (within (confined out) rest) as Hrest.
  { unfold rest. destruct (zm_data m) as [d|].
    - apply write_file_confined. by eexists.
    - intros g. unfold bind, get. destruct (Fs.is_dir g (out ++ zm_name m)); [reflexivity|].
      apply mkdir_confined. by eexists. }
  assert ((Fs.path_exists f out = true -> Fs.path_exists f (Fs.dirname out) = true ->
           Fs.path_exists f (Fs.dirname (out ++ zm_name m)) = true) \/
          below out (Fs.dirname (out ++ zm_name m))) as [Hex|Hbelow].
  { destruct (zm_name m) as [|x r _] using rev_ind.
    - left. by rewrite app_nil_r.
    - rewrite app_assoc, dirname_snoc. destruct r as [|n rest'].
      + left. by rewrite app_nil_r.
      + right. by exists n, rest'. }
  - intros Ho Hc.
    assert (((if Fs.path_exists f (Fs.dirname (out ++ zm_name m)) then ret tt
              else Fs.makedirs (Fs.dirname (out ++ zm_name m))) ;;! rest) f = rest f) as ->
      by (unfold bind; by rewrite (Hex Ho Hc)).
    by apply (Hrest f).
  - apply (within_bind (confined out)); [|by intros _].
    destruct (Fs.path_exists f (Fs.dirname (out ++ zm_name m))); [by apply within_ret|].
    unfold Fs.makedirs. apply makedirs_confined. by rewrite rev_involutive.
Qed.

Lemma extractall_confined (ms : list zip_member) :
  within (confined out) (Fs.extractall out ms).
Proof.
  unfold Fs.extractall. apply (within_for_each (confined out)).
  apply extract_member_confined.
Qed.

End Confined.

Section ConfinedWorld.
Variable out : path.
Hypothesis Hout : out <> [].

#[local] Instance confined_world_refl : Reflexive (confined_world out).
Proof. intros w. apply (confined_refl out). Qed.

#[local] Instance confined_world_trans : Transitive (confined_world out).
Proof. intros w1 w2 w3. apply (confined_trans out Hout). Qed.

Lemma within_keeps_fs {A} (m : M world A) : keeps fs m -> within (confined_world out) m.
Proof. intros Hm w. unfold confined_world. rewrite (Hm w). apply (confined_refl out). Qed.

Lemma within_on_fs {A} (m : M Fs.t A) :
  within (confined out) m -> within (confined_world out) (on_fs m).
Proof.
  intros Hm w. specialize (Hm (fs w)). unfold confined_world, on_fs.
  by destruct (m (fs w)).
Qed.

End ConfinedWorld.

(** X15.  Whatever the services answer and whatever the archive holds,
    [request_nsidc_data] changes the file system in its output folder only:
    every path that is not the folder or below it holds after the call what
    it held before, however the call ends. *)
Theorem nsidc_touches_only_outputs (fuel : nat) (api : string) (w : world) (p : path) :
  Fs.is_dir (fs w) (cwd w) = true ->
  ~ outputs_dir w `prefix_of` p ->
  fs (state_of (request_nsidc_data fuel api w)) !! p = fs w !! p.
Proof.
  intros Hcwd Hp.
  assert (outputs_dir w <> []) as Hne by apply snoc_not_nil.
  unfold request_nsidc_data. unfold bind at 1. unfold get at 1.
  rewrite (bind_Ok _ _ _ _ _ (nsidc_folder w Hcwd)).
  set (w1 := with_fs w (fs_with_outputs w)).
  match goal with |- fs (state_of (?m w1)) !! p = _ =>
    assert (within (confined_world (outputs_dir w)) m) as Hwithin end.
  { pose proof (confined_world_refl (outputs_dir w)) as Hrefl.
    pose proof (confined_world_trans (outputs_dir w) Hne) as Htrans.
    unfold nsidc_report_errors, nsidc_download, local.
    repeat first
      [ apply within_on_fs; first [by apply extractall_confined|by apply flatten_confined]
      | apply within_keeps_fs, keeps_nsidc_poll, silent_fs
      | apply within_keeps_fs, keeps_urlopen, silent_fs
      | apply within_keeps_fs, keeps_emit, silent_fs
      | within_step ]. }
  assert (fs w1 = fs_with_outputs w) as Hfs1 by reflexivity.
  assert (forall q, q <> outputs_dir w -> fs_with_outputs w !! q = fs w !! q) as Hsame.
  { intros q Hq. unfold fs_with_outputs.
    destruct (Fs.path_exists (fs w) (outputs_dir w)); [done|].
    by apply lookup_insert_ne. }
  destruct (Hwithin w1) as [_ Hkept].
  - rewrite Hfs1. unfold fs_with_outputs.
    destruct (Fs.path_exists (fs w) (outputs_dir w)) eqn:E; [done|].
    apply path_exists_lookup; [done|]. rewrite lookup_insert_eq. by eexists.
  - rewrite Hfs1. unfold outputs_dir at 1. rewrite dirname_snoc.
    rewrite (path_exists_agree (fs w)); [by apply is_dir_exists|].
    apply Hsame. unfold outputs_dir. intros Heq.
    by apply (snoc_neq (cwd w) "Outputs").
  - rewrite (Hkept p Hp), Hfs1. apply Hsame. by intros ->.
Qed.

(** ** Traces only grow *)

#[local] Instance trace_grows_refl : Reflexive trace_grows.
Proof. intros w. exists []. by rewrite app_nil_r. Qed.

#[local] Instance trace_grows_trans : Transitive trace_grows.
Proof.
  intros w1 w2 w3 [t1 H1] [t2 H2]. exists (t1 ++ t2). by rewrite H2, H1, app_assoc.
Qed.

Lemma grows_emit e : within trace_grows (emit e).
Proof. intros w. by exists [e]. Qed.

Lemma grows_send rq : within trace_grows (send rq).
Proof. intros w. by exists [ENet rq]. Qed.

Lemma grows_on_fs {A} (m : M Fs.t A) : within trace_grows (on_fs m).
Proof.
  intros w. exists []. rewrite app_nil_r. unfold on_fs. by destruct (m (fs w)).
Qed.

Lemma grows_getdict d : within trace_grows (getdict d).
Proof.
  intros w. exists []. rewrite app_nil_r. unfold getdict. by destruct (heap w !! d).
Qed.

Ltac grows_step :=
  first
    [ apply grows_emit
    | apply grows_send
    | apply grows_on_fs
    | apply grows_getdict
    | within_step ].

Lemma grows_urlopen url : within trace_grows (urlopen url).
Proof. unfold urlopen. repeat grows_step. Qed.

Lemma grows_harmony_poll fuel url :
  forall job, within trace_grows (harmony_poll fuel url job).
Proof.
  induction fuel as [|n IH]; intros job; simpl.
  - repeat grows_step.
  - unfold print, sleep.
    repeat first [apply IH | apply grows_urlopen | grows_step].
Qed.

Lemma grows_download_link link : within trace_grows (download_link link).
Proof.
  unfold download_link, open_wb, print.
  repeat first [apply grows_urlopen | grows_step].
Qed.

Lemma grows_harmony_fetch job : within trace_grows (harmony_fetch job).
Proof.
  unfold harmony_fetch, print.
  repeat first [apply grows_download_link | grows_step].
Qed.

(** What follows a request on the trace follows the request. *)
Lemma urlopen_then {A} (url : string) (k : response -> M world A) (w : world) :
  (forall r, within trace_grows (k r)) ->
  exists t, trace (state_of (bind (urlopen url) k w)) = trace w ++ ENet (Urlopen url) :: t.
Proof.
  intros Hk. unfold urlopen, bind, send.
  destruct (net w (calls w) (Urlopen url)) as [e|r]; simpl.
  - by exists [].
  - destruct (ok2xx r); simpl; [|by exists []].
    destruct (Hk r (World (net w) (S (calls w)) (trace w ++ [ENet (Urlopen url)])
                      (fs w) (cwd w) (heap w))) as [t Ht].
    exists t. rewrite Ht. simpl. by rewrite <- app_assoc.
Qed.

(** Steps in a world given by its fields. *)
Lemma emit_at e n c t f d h :
  emit e (World n c t f d h) = Ok tt (World n c (t ++ [e]) f d h).
Proof. reflexivity. Qed.

Lemma urlopen_at url r n c t f d h :
  n c (Urlopen url) = Resp r -> ok2xx r = true ->
  urlopen url (World n c t f d h) = Ok r (World n (S c) (t ++ [ENet (Urlopen url)]) f d h).
Proof. intros Hr Hok. unfold urlopen, bind, send. simpl. by rewrite Hr, Hok. Qed.

(** ** [request_harmony_data] *)

Section Harmony.
Context (py_str : pyval -> string).

(** The first half: the collection is looked up and the ranges are written
    into the caller's dictionary. *)
Lemma harmony_prelude fuel sp token w d cid b0 b1 b2 b3 t1 t2 :
  harmony_inputs w sp d cid b0 b1 b2 b3 t1 t2 ->
  request_harmony_data py_str fuel sp token w =
    harmony_job py_str fuel sp (harmony_prepared w sp d cid b0 b1 b2 b3 t1 t2).
Proof.
  intros (Hd & (r & cmr & feed & entry & entries & ids & Hr & Hc & Hfeed & Hentry & Hit & Hids)
          & (bb & more & Hbb & Hsbb) & (tp & more' & Htp & Hstp)).
  unfold request_harmony_data.
  rewrite (bind_Ok _ _ _ _ _ (getdict_ok _ _ _ Hd)).
  assert (requests_send (cmr_collections_request d) w
          = Ok r (World (net w) (S (calls w))
                    (trace w ++ [ENet (cmr_collections_request d)])
                    (fs w) (cwd w) (heap w))) as Hsend.
  { unfold requests_send, bind, send, cmr_collections_request. by rewrite Hr. }
  unfold cmr_collections_request in Hsend.
  rewrite (bind_Ok _ _ _ _ _ Hsend). set (w0 := World _ _ _ _ _ _).
  rewrite (bind_lift _ _ _ cmr) by (by rewrite Hc).
  rewrite (bind_lift _ _ _ _ Hfeed), (bind_lift _ _ _ _ Hentry), (bind_lift _ _ _ _ Hit).
  rewrite (bind_lift _ _ _ _ Hids).
  rewrite (bind_lift _ _ _ cid) by done.
  assert (heap w0 !! sp = Some d) as Hd0 by exact Hd.
  rewrite (bind_Ok _ _ _ _ _ (setitem_ok sp "collection_id" cid w0 d Hd0)).
  set (w1 := with_heap w0 _). set (d1 := <["collection_id" := cid]> d).
  assert (heap w1 !! sp = Some d1) as Hd1 by (simpl; apply lookup_insert_eq).
  assert (d1 !! "bounding_box" = Some (VStr bb)) as Hbb1
    by (unfold d1; by rewrite lookup_insert_ne).
  rewrite (bind_Ok _ _ _ _ _ (getitem_ok _ _ _ _ _ Hd1 Hbb1)).
  rewrite (bind_lift _ _ _ (b0 :: b1 :: b2 :: b3 :: more)) by (simpl; by rewrite Hsbb).
  rewrite (bind_lift _ _ _ b1) by done.
  rewrite (bind_Ok _ _ _ _ _ (getitem_ok _ _ _ _ _ Hd1 Hbb1)).
  rewrite (bind_lift _ _ _ (b0 :: b1 :: b2 :: b3 :: more)) by (simpl; by rewrite Hsbb).
  rewrite (bind_lift _ _ _ b3) by done.
  fold (range_of b1 b3).
  rewrite (bind_Ok _ _ _ _ _ (setitem_ok sp "lat" _ w1 d1 Hd1)).
  set (w2 := with_heap w1 _). set (d2 := <["lat" := range_of b1 b3]> d1).
  assert (heap w2 !! sp = Some d2) as Hd2 by (simpl; apply lookup_insert_eq).
  assert (d2 !! "bounding_box" = Some (VStr bb)) as Hbb2
    by (unfold d2; by rewrite lookup_insert_ne).
  rewrite (bind_Ok _ _ _ _ _ (getitem_ok _ _ _ _ _ Hd2 Hbb2)).
  rewrite (bind_lift _ _ _ (b0 :: b1 :: b2 :: b3 :: more)) by (simpl; by rewrite Hsbb).
  rewrite (bind_lift _ _ _ b0) by done.
  rewrite (bind_Ok _ _ _ _ _ (getitem_ok _ _ _ _ _ Hd2 Hbb2)).
  rewrite (bind_lift _ _ _ (b0 :: b1 :: b2 :: b3 :: more)) by (simpl; by rewrite Hsbb).
  rewrite (bind_lift _ _ _ b2) by done.
  fold (range_of b0 b2).
  rewrite (bind_Ok _ _ _ _ _ (setitem_ok sp "lon" _ w2 d2 Hd2)).
  set (w3 := with_heap w2 _). set (d3 := <["lon" := range_of b0 b2]> d2).
  assert (heap w3 !! sp = Some d3) as Hd3 by (simpl; apply lookup_insert_eq).
  assert (d3 !! "temporal" = Some (VStr tp)) as Htp3
    by (unfold d3, d2, d1; by rewrite !lookup_insert_ne).
  rewrite (bind_Ok _ _ _ _ _ (getitem_ok _ _ _ _ _ Hd3 Htp3)).
  rewrite (bind_lift _ _ _ (t1 :: t2 :: more')) by (simpl; by rewrite Hstp).
  rewrite (bind_lift _ _ _ t1) by done.
  rewrite (bind_Ok _ _ _ _ _ (getitem_ok _ _ _ _ _ Hd3 Htp3)).
  rewrite (bind_lift _ _ _ (t1 :: t2 :: more')) by (simpl; by rewrite Hstp).
  rewrite (bind_lift _ _ _ t2) by done.
  fold (time_of t1 t2).
  rewrite (bind_Ok _ _ _ _ _ (setitem_ok sp "time" _ w3 d3 Hd3)).
  f_equal. unfold harmony_prepared, harmony_dict, with_heap. simpl.
  f_equal. by rewrite !insert_insert_eq.
Qed.

(** The dictionary as the second half reads it. *)
Lemma harmony_dict_lookups sp w d cid b0 b1 b2 b3 t1 t2 :
  let w' := harmony_prepared w sp d cid b0 b1 b2 b3 t1 t2 in
  getitem sp "collection_id" w' = Ok cid w' /\
  getitem sp "lat" w' = Ok (range_of b1 b3) w' /\
  getitem sp "lon" w' = Ok (range_of b0 b2) w' /\
  getitem sp "time" w' = Ok (time_of t1 t2) w'.
Proof.
  intros w'.
  assert (heap w' !! sp = Some (harmony_dict d cid b0 b1 b2 b3 t1 t2)) as Hd
    by (simpl; apply lookup_insert_eq).
  repeat split; apply (getitem_ok _ _ _ _ _ Hd); unfold harmony_dict.
  - rewrite !lookup_insert_ne by done. apply lookup_insert_eq.
  - rewrite !lookup_insert_ne by done. apply lookup_insert_eq.
  - rewrite !lookup_insert_ne by done. apply lookup_insert_eq.
  - apply lookup_insert_eq.
Qed.

Lemma grows_harmony_rest fuel (r : response) :
  within trace_grows
    (let harmony_response := content r in
     let! async_json := lift (json_loads harmony_response) in
     pprint async_json ;;!
     let! jobID := lift (subscript async_json "jobID") in
     let job_url := "https://harmony.earthdata.nasa.gov" +:+ "/jobs/" +:+ py_str jobID in
     print [VStr "Job URL"; VStr job_url] ;;!
     let! job_response := urlopen job_url in
     let job_results := content job_response in
     let! job_json := lift (json_loads job_results) in
     print [VStr "Job response:"] ;;!
     print [] ;;!
     pprint job_json ;;!
     let! job_json := harmony_poll fuel job_url job_json in
     harmony_fetch job_json).
Proof.
  cbv zeta. unfold print, pprint.
  repeat first [apply grows_harmony_poll | apply grows_harmony_fetch
               | apply grows_urlopen | grows_step].
Qed.

(** X16.  The coverage request.  The second request of
    [request_harmony_data], after the collection search, goes to the
    coverage endpoint of the first collection found, with the latitude range
    made of the second and fourth part of the bounding box, the longitude
    range of the first and third, and the time range of the two parts of
    [temporal], each in double quotes; parts beyond these are ignored.  The
    address is printed before it is used. *)
Theorem harmony_request_url
    (fuel : nat) (sp : loc) (token : pyval) (w : world) (d : gmap string pyval)
    (cid : pyval) (b0 b1 b2 b3 t1 t2 : string) :
  harmony_inputs w sp d cid b0 b1 b2 b3 t1 t2 ->
  exists rest,
    trace (state_of (request_harmony_data py_str fuel sp token w)) =
      trace w ++
      [ENet (cmr_collections_request d);
       EPrint [VStr "Request URL"; VStr (coverage_url py_str cid b0 b1 b2 b3 t1 t2)];
       ENet (Urlopen (coverage_url py_str cid b0 b1 b2 b3 t1 t2))] ++ rest.
Proof.
  intros Hin.
  rewrite (harmony_prelude fuel sp token w d cid b0 b1 b2 b3 t1 t2 Hin).
  destruct (harmony_dict_lookups sp w d cid b0 b1 b2 b3 t1 t2) as (H1 & H2 & H3 & H4).
  set (w1 := harmony_prepared w sp d cid b0 b1 b2 b3 t1 t2) in *.
  unfold harmony_job.
  rewrite (bind_Ok _ _ _ _ _ H1), (bind_Ok _ _ _ _ _ H2).
  rewrite (bind_Ok _ _ _ _ _ H3), (bind_Ok _ _ _ _ _ H4).
  cbv zeta. fold (coverage_url py_str cid b0 b1 b2 b3 t1 t2).
  unfold bind at 1. unfold print at 1, emit at 1.
  match goal with |- context [bind (urlopen ?u) ?k ?s] =>
    destruct (urlopen_then u k s) as [t Ht] end.
  { intros r. exact (grows_harmony_rest fuel r). }
  exists t. rewrite Ht. unfold w1, harmony_prepared, with_trace. simpl.
  by rewrite <- !app_assoc.
Qed.

(** X17.  A job that has stopped short of 100 percent -- failed, cancelled
    or otherwise no longer running -- ends the call quietly: the job is
    asked about once, nothing is fetched and no file is written, and the
    call returns as it does after a download. *)
Theorem harmony_job_stopped_short
    (fuel : nat) (sp : loc) (token : pyval) (w : world) (d : gmap string pyval)
    (cid : pyval) (b0 b1 b2 b3 t1 t2 : string)
    (submitted jobID job status progress : pyval) :
  harmony_inputs w sp d cid b0 b1 b2 b3 t1 t2 ->
  answers w (S (calls w)) (coverage_url py_str cid b0 b1 b2 b3 t1 t2) (PJson submitted) ->
  subscript submitted "jobID" = inr jobID ->
  answers w (S (S (calls w))) (job_url py_str jobID) (PJson job) ->
  subscript job "status" = inr status -> eq_str status "running" = false ->
  subscript job "progress" = inr progress -> eq_int progress 100 = false ->
  request_harmony_data py_str fuel sp token w =
    Ok tt
       (World (net w) (S (S (S (calls w))))
          (trace w ++
           [ENet (cmr_collections_request d);
            EPrint [VStr "Request URL"; VStr (coverage_url py_str cid b0 b1 b2 b3 t1 t2)];
            ENet (Urlopen (coverage_url py_str cid b0 b1 b2 b3 t1 t2));
            EPPrint submitted;
            EPrint [VStr "Job URL"; VStr (job_url py_str jobID)];
            ENet (Urlopen (job_url py_str jobID));
            EPrint [VStr "Job response:"];
            EPrint [];
            EPPrint job])
          (fs w) (cwd w)
          (<[sp := harmony_dict d cid b0 b1 b2 b3 t1 t2]> (heap w))).
Proof.
  intros Hin (r1 & Hr1 & Hok1 & Hc1) Hjob (r2 & Hr2 & Hok2 & Hc2) Hst Hnot Hpr Hshort.
  rewrite (harmony_prelude fuel sp token w d cid b0 b1 b2 b3 t1 t2 Hin).
  destruct (harmony_dict_lookups sp w d cid b0 b1 b2 b3 t1 t2) as (H1 & H2 & H3 & H4).
  unfold harmony_job.
  rewrite (bind_Ok _ _ _ _ _ H1), (bind_Ok _ _ _ _ _ H2).
  rewrite (bind_Ok _ _ _ _ _ H3), (bind_Ok _ _ _ _ _ H4).
  cbv zeta. fold (coverage_url py_str cid b0 b1 b2 b3 t1 t2).
  unfold harmony_prepared, print, pprint.
  rewrite (bind_Ok _ _ _ _ _ (emit_at _ _ _ _ _ _ _)).
  rewrite (bind_Ok _ _ _ _ _ (urlopen_at _ _ _ _ _ _ _ _ Hr1 Hok1)).
  rewrite (bind_lift _ _ _ submitted) by (by rewrite Hc1).
  rewrite (bind_Ok _ _ _ _ _ (emit_at _ _ _ _ _ _ _)).
  rewrite (bind_lift _ _ _ _ Hjob).
  fold (job_url py_str jobID).
  rewrite (bind_Ok _ _ _ _ _ (emit_at _ _ _ _ _ _ _)).
  rewrite (bind_Ok _ _ _ _ _ (urlopen_at _ _ _ _ _ _ _ _ Hr2 Hok2)).
  rewrite (bind_lift _ _ _ job) by (by rewrite Hc2).
  rewrite (bind_Ok _ _ _ _ _ (emit_at _ _ _ _ _ _ _)).
  rewrite (bind_Ok _ _ _ _ _ (emit_at _ _ _ _ _ _ _)).
  rewrite (bind_Ok _ _ _ _ _ (emit_at _ _ _ _ _ _ _)).
  assert (harmony_terminal job) as Hterm by (exists status; split; [done|by left]).
  rewrite (bind_Ok _ _ _ _ _ (harmony_poll_terminal fuel _ job _ Hterm)).
  unfold harmony_fetch. rewrite (bind_lift _ _ _ _ Hpr), Hshort.
  unfold ret. do 2 f_equal. by rewrite <- !app_assoc.
Qed.

(** The collection search, sent. *)
Lemma harmony_search_sent w d r :
  net w (calls w) (cmr_collections_request d) = Resp r ->
  requests_send (Get "https://cmr.earthdata.nasa.gov/search/collections.json" (Some d)) w
    = Ok r (World (net w) (S (calls w)) (trace w ++ [ENet (cmr_collections_request d)])
              (fs w) (cwd w) (heap w)).
Proof.
  intros Hr. unfold cmr_collections_request in Hr.
  unfold requests_send, bind, send. by rewrite Hr.
Qed.

(** X18.  When CMR finds no collection for the caller's parameters,
    [request_harmony_data] raises [IndexError] on taking the first one; the
    caller's dictionary is as it was. *)
Theorem harmony_no_collection
    (fuel : nat) (sp : loc) (token : pyval) (w : world) (d : gmap string pyval)
    (r : response) (cmr feed : pyval) :
  heap w !! sp = Some d ->
  net w (calls w) (cmr_collections_request d) = Resp r ->
  content r = PJson cmr ->
  subscript cmr "feed" = inr feed ->
  subscript feed "entry" = inr (VList []) ->
  request_harmony_data py_str fuel sp token w =
    Raise IndexError
      (World (net w) (S (calls w)) (trace w ++ [ENet (cmr_collections_request d)])
         (fs w) (cwd w) (heap w)).
Proof.
  intros Hd Hr Hc Hfeed Hentry.
  unfold request_harmony_data.
  rewrite (bind_Ok _ _ _ _ _ (getdict_ok _ _ _ Hd)).
  rewrite (bind_Ok _ _ _ _ _ (harmony_search_sent w d r Hr)).
  rewrite (bind_lift _ _ _ cmr) by (by rewrite Hc).
  by rewrite (bind_lift _ _ _ _ Hfeed), (bind_lift _ _ _ _ Hentry).
Qed.

(** X19.  The bounding box is required, and its four parts are: without
    the key [bounding_box] the call raises [KeyError], with fewer than four
    comma-separated parts it raises [IndexError].  Either way the collection
    has been looked up by then and its identifier is in the caller's
    dictionary, which holds no range yet. *)
Theorem harmony_bounding_box_required
    (fuel : nat) (sp : loc) (token : pyval) (w : world) (d : gmap string pyval)
    (cid : pyval) :
  heap w !! sp = Some d ->
  cmr_finds w (calls w) d cid ->
  let w' := World (net w) (S (calls w)) (trace w ++ [ENet (cmr_collections_request d)])
              (fs w) (cwd w) (<[sp := <["collection_id" := cid]> d]> (heap w)) in
  (d !! "bounding_box" = None ->
   request_harmony_data py_str fuel sp token w = Raise (KeyError "bounding_box") w') /\
  (forall bb, d !! "bounding_box" = Some (VStr bb) ->
     (length (split_on comma bb) < 4)%nat ->
     request_harmony_data py_str fuel sp token w = Raise IndexError w').
Proof.
  intros Hd (r & cmr & feed & entry & entries & ids & Hr & Hc & Hfeed & Hentry & Hit & Hids) w'.
  assert (heap (World (net w) (S (calls w)) (trace w ++ [ENet (cmr_collections_request d)])
                  (fs w) (cwd w) (heap w)) !! sp = Some d) as Hd0 by exact Hd.
  assert (heap w' !! sp = Some (<["collection_id" := cid]> d)) as Hd1
    by (simpl; apply lookup_insert_eq).
  split; [intros Hbb|intros bb Hbb Hlen];
    unfold request_harmony_data;
    rewrite (bind_Ok _ _ _ _ _ (getdict_ok _ _ _ Hd));
    rewrite (bind_Ok _ _ _ _ _ (harmony_search_sent w d r Hr));
    rewrite (bind_lift _ _ _ cmr) by (by rewrite Hc);
    rewrite (bind_lift _ _ _ _ Hfeed), (bind_lift _ _ _ _ Hentry), (bind_lift _ _ _ _ Hit);
    rewrite (bind_lift _ _ _ _ Hids);
    rewrite (bind_lift _ _ _ cid) by done;
    rewrite (bind_Ok _ _ _ _ _ (setitem_ok sp "collection_id" cid _ d Hd0));
    fold w'.
  - assert (getitem sp "bounding_box" w' = Raise (KeyError "bounding_box") w') as Hget.
    { unfold getitem. rewrite (bind_Ok _ _ _ _ _ (getdict_ok _ _ _ Hd1)).
      by rewrite lookup_insert_ne, Hbb. }
    by rewrite (bind_Raise _ _ _ _ _ Hget).
  - assert (getitem sp "bounding_box" w' = Ok (VStr bb) w') as Hget.
    { apply (getitem_ok _ _ _ _ _ Hd1). by rewrite lookup_insert_ne. }
    rewrite (bind_Ok _ _ _ _ _ Hget).
    rewrite (bind_lift _ _ _ (split_on comma bb)) by done.
    destruct (split_on comma bb) as [|x0 [|x1 [|x2 [|x3 l]]]] eqn:E;
      simpl in Hlen; try lia; try reflexivity.
    + rewrite (bind_lift _ _ _ x1) by done.
      rewrite (bind_Ok _ _ _ _ _ Hget).
      rewrite (bind_lift _ _ _ [x0; x1]) by (simpl; by rewrite E).
      reflexivity.
    + rewrite (bind_lift _ _ _ x1) by done.
      rewrite (bind_Ok _ _ _ _ _ Hget).
      rewrite (bind_lift _ _ _ [x0; x1; x2]) by (simpl; by rewrite E).
      reflexivity.
Qed.

End Harmony.

Lemma nsidc_touches_only_outputs_witness :
  fs (state_of (request_nsidc_data 0 "req" scenario_clash)) !! ["home"]
    = fs scenario_clash !! ["home"].
Proof.
  apply (nsidc_touches_only_outputs 0 "req" scenario_clash ["home"]).
  - reflexivity.
  - intros [r Hr]. simpl in Hr. discriminate Hr.
Defined.

Lemma harmony_request_url_witness :
  exists rest,
    trace (state_of (request_harmony_data str_demo 2 0%nat (VStr "tok") scenario_cmr)) =
      trace scenario_cmr ++
      [ENet (cmr_collections_request demo_parameters);
       EPrint [VStr "Request URL";
               VStr (coverage_url str_demo (VStr "C1-NSIDC") "-50" "70" "-45" "75"
                       "2019-06-01T00:00:00Z" "2019-06-02T00:00:00Z")];
       ENet (Urlopen (coverage_url str_demo (VStr "C1-NSIDC") "-50" "70" "-45" "75"
                        "2019-06-01T00:00:00Z" "2019-06-02T00:00:00Z"))] ++ rest.
Proof.
  apply (harmony_request_url str_demo 2 0%nat (VStr "tok") scenario_cmr demo_parameters
           (VStr "C1-NSIDC") "-50" "70" "-45" "75"
           "2019-06-01T00:00:00Z" "2019-06-02T00:00:00Z").
  split; [reflexivity|]. split; [do 6 eexists; repeat split; reflexivity|].
  split; eexists _, []; split; reflexivity.
Defined.

Lemma harmony_job_stopped_short_witness :
  let w := scenario_harmony_failed in
  let url := coverage_url str_demo (VStr "C1-NSIDC") "-50" "70" "-45" "75"
               "2019-06-01T00:00:00Z" "2019-06-02T00:00:00Z" in
  request_harmony_data str_demo 2 0%nat (VStr "tok") w =
    Ok tt
       (World (net w) 3
          (trace w ++
           [ENet (cmr_collections_request demo_parameters);
            EPrint [VStr "Request URL"; VStr url];
            ENet (Urlopen url);
            EPPrint (VDict [("jobID", VStr "123")]);
            EPrint [VStr "Job URL"; VStr (job_url str_demo (VStr "123"))];
            ENet (Urlopen (job_url str_demo (VStr "123")));
            EPrint [VStr "Job response:"];
            EPrint [];
            EPPrint (job_doc "failed" 40 [])])
          (fs w) (cwd w)
          (<[0%nat := harmony_dict demo_parameters (VStr "C1-NSIDC") "-50" "70" "-45" "75"
                        "2019-06-01T00:00:00Z" "2019-06-02T00:00:00Z"]> (heap w))).
Proof.
  intros w url.
  eapply (harmony_job_stopped_short str_demo 2 0%nat (VStr "tok") w demo_parameters
            (VStr "C1-NSIDC") "-50" "70" "-45" "75"
            "2019-06-01T00:00:00Z" "2019-06-02T00:00:00Z"
            (VDict [("jobID", VStr "123")]) (VStr "123") (job_doc "failed" 40 [])
            (VStr "failed") (VInt 40)).
  - split; [reflexivity|]. split; [do 6 eexists; repeat split; reflexivity|].
    split; eexists _, []; split; reflexivity.
  - eexists. split; [reflexivity|]. by split.
  - reflexivity.
  - eexists. split; [reflexivity|]. by split.
  - reflexivity.
  - reflexivity.
  - reflexivity.
  - reflexivity.
Defined.

Lemma harmony_no_collection_witness :
  let w := scenario_no_collection in
  request_harmony_data str_demo 2 0%nat (VStr "tok") w =
    Raise IndexError
      (World (net w) 1 (trace w ++ [ENet (cmr_collections_request demo_parameters)])
         (fs w) (cwd w) (heap w)).
Proof.
  intros w.
  apply (harmony_no_collection str_demo 2 0%nat (VStr "tok") w demo_parameters
           (Response 200 [] (PJson empty_cmr_doc)) empty_cmr_doc
           (VDict [("entry", VList [])])); reflexivity.
Defined.

Lemma harmony_bounding_box_required_witness :
  let w := scenario_no_box in
  request_harmony_data str_demo 2 0%nat (VStr "tok") w =
    Raise (KeyError "bounding_box")
      (World (net w) 1
         (trace w ++ [ENet (cmr_collections_request {[ "short_name" := VStr "ATL07" ]})])
         (fs w) (cwd w)
         (<[0%nat := <["collection_id" := VStr "C1-NSIDC"]> {[ "short_name" := VStr "ATL07" ]}]>
            (heap w))).
Proof.
  intros w.
  eapply (harmony_bounding_box_required str_demo 2 0%nat (VStr "tok") w
            {[ "short_name" := VStr "ATL07" ]} (VStr "C1-NSIDC")).
  - reflexivity.
  - do 6 eexists. repeat split; reflexivity.
  - reflexivity.
Defined.

(** ** The download loop of [request_harmony_data] *)

(** The file is opened, and so made or emptied, before the link is
    fetched. *)
Lemma download_link_opened w link url :
  href_of link = Some url ->
  file_name_of url <> "" -> file_name_of url <> "." -> file_name_of url <> ".." ->
  Fs.is_dir (fs w) (cwd w ++ [file_name_of url]) = false ->
  Fs.is_dir (fs w) (cwd w) = true ->
  download_link link w =
    (let! response := urlopen url in
     on_fs (Fs.write_file (cwd w ++ [file_name_of url]) (content response)))
      (World (net w) (calls w) (trace w ++ [EPrint [VStr url]])
         (<[cwd w ++ [file_name_of url] := NFile (PRaw "")]> (fs w)) (cwd w) (heap w)).
Proof.
  intros Hhref Hn1 Hn2 Hn3 Hfile Hcwd.
  destruct link as [| | | |?|kvs]; try done. simpl in Hhref.
  destruct (assoc "href" kvs) as [[| | |u| |]|] eqn:Ha; try done. simplify_eq.
  unfold download_link. simpl subscript. rewrite Ha.
  rewrite (bind_lift _ _ _ (VStr url)) by done.
  unfold bind at 1. unfold print at 1, emit at 1.
  rewrite (bind_lift _ _ _ (split_on slash url)) by done.
  rewrite (bind_lift _ _ _ _ (index_last_split url)).
  set (w1 := with_trace w _).
  assert (open_wb (file_name_of url) w1 =
          Ok (cwd w ++ [file_name_of url])
             (with_fs w1 (<[cwd w ++ [file_name_of url] := NFile (PRaw "")]> (fs w))))
    as Hopen.
  { unfold open_wb. unfold bind at 1, get at 1.
    rewrite !eqb_false by done. cbn [orb]. change (cwd w1) with (cwd w).
    erewrite bind_Ok; [reflexivity|].
    apply on_fs_ok. by apply write_file_ok. }
  by rewrite (bind_Ok _ _ _ _ _ Hopen).
Qed.

(** X20.  A download that fails leaves an empty file behind: the file is
    opened for writing before the link is fetched, so when the fetch raises
    the file is there with nothing in it, whatever a file of that name held
    before. *)
Theorem download_failure_leaves_empty_file
    (w : world) (link : pyval) (url : string) (e : exn) :
  href_of link = Some url ->
  file_name_of url <> "" -> file_name_of url <> "." -> file_name_of url <> ".." ->
  Fs.is_dir (fs w) (cwd w ++ [file_name_of url]) = false ->
  Fs.is_dir (fs w) (cwd w) = true ->
  urlopen_raises w (calls w) url e ->
  download_link link w =
    Raise e
      (World (net w) (S (calls w)) (trace w ++ [EPrint [VStr url]; ENet (Urlopen url)])
         (<[cwd w ++ [file_name_of url] := NFile (PRaw "")]> (fs w)) (cwd w) (heap w)).
Proof.
  intros Hhref Hn1 Hn2 Hn3 Hfile Hcwd Hraise.
  rewrite (download_link_opened w link url) by done.
  set (w1 := World _ _ _ _ _ _).
  assert (urlopen_raises w1 (calls w1) url e) as Hraise1 by exact Hraise.
  rewrite (bind_Raise _ _ _ _ _ (urlopen_raises_run w1 url e Hraise1)).
  unfold w1. simpl. by rewrite <- app_assoc.
Qed.

(** X21.  A link without an address, or with an address that ends in a
    slash, stops the download loop: the first with [KeyError] before
    anything is printed, the second with [FileNotFoundError] on opening a
    file with no name, after the address is printed and before anything is
    fetched. *)
Theorem download_link_needs_file_name (w : world) (kvs : list (string * pyval)) :
  (assoc "href" kvs = None ->
   download_link (VDict kvs) w = Raise (KeyError "href") w) /\
  (forall url, assoc "href" kvs = Some (VStr url) -> file_name_of url = "" ->
   download_link (VDict kvs) w =
     Raise (OSError ENOENT) (with_trace w (trace w ++ [EPrint [VStr url]]))).
Proof.
  split.
  - intros Ha. unfold download_link. simpl subscript. by rewrite Ha.
  - intros url Ha Hname. unfold download_link. simpl subscript. rewrite Ha.
    rewrite (bind_lift _ _ _ (VStr url)) by done.
    unfold bind at 1. unfold print at 1, emit at 1.
    rewrite (bind_lift _ _ _ (split_on slash url)) by done.
    rewrite (bind_lift _ _ _ _ (index_last_split url)).
    rewrite Hname. reflexivity.
Qed.



Lemma download_failure_leaves_empty_file_witness :
  let w := scenario_fetch_fails in
  download_link (VDict [("href", VStr granule_url)]) w =
    Raise TransportError
      (World (net w) (S (calls w))
         (trace w ++ [EPrint [VStr granule_url]; ENet (Urlopen granule_url)])
         (<[cwd w ++ [file_name_of granule_url] := NFile (PRaw "")]> (fs w)) (cwd w) (heap w)).
Proof.
  intros w.
  apply (download_failure_leaves_empty_file w (VDict [("href", VStr granule_url)])
           granule_url TransportError).
  - reflexivity.
  - by vm_compute.
  - by vm_compute.
  - by vm_compute.
  - by vm_compute.
  - reflexivity.
  - by left.
Defined.

Lemma download_link_needs_file_name_witness :
  let w := fresh (always (PRaw "bytes")) in
  download_link (VDict [("href", VStr "https://h/results/")]) w =
    Raise (OSError ENOENT) (with_trace w (trace w ++ [EPrint [VStr "https://h/results/"]])).
Proof.
  intros w.
  apply (download_link_needs_file_name w [("href", VStr "https://h/results/")]).
  - reflexivity.
  - reflexivity.
Defined.


(** ** What the Harmony client leaves alone *)

#[local] Instance only_writes_refl : Reflexive only_writes_in_cwd.
Proof. intros w. split; [done|]. intros p. by left. Qed.

#[local] Instance only_writes_trans : Transitive only_writes_in_cwd.
Proof.
  intros w1 w2 w3 [Hc1 H1] [Hc2 H2]. split; [congruence|].
  intros p. destruct (H2 p) as [Heq|(n & d & -> & Hf)].
  - rewrite Heq. apply H1.
  - right. exists n, d. by rewrite <- Hc1.
Qed.

Lemma writes_keeps {A} (m : M world A) :
  keeps (fun w => (cwd w, fs w)) m -> within only_writes_in_cwd m.
Proof.
  intros Hm w. specialize (Hm w). simpl in Hm. injection Hm as Hc Hf.
  split; [done|]. intros p. left. by rewrite Hf.
Qed.

Lemma write_in_cwd (w : world) (n : string) (d : payload) :
  only_writes_in_cwd w (state_of (on_fs (Fs.write_file (cwd w ++ [n]) d) w)).
Proof.
  unfold on_fs, Fs.write_file, bind, get.
  destruct (Fs.is_dir (fs w) (cwd w ++ [n])); [by split; [|left]|].
  destruct (Fs.path_exists (fs w) (Fs.dirname (cwd w ++ [n]))); [|by split; [|left]].
  destruct (Fs.is_dir (fs w) (Fs.dirname (cwd w ++ [n]))); [|by split; [|left]].
  split; [done|]. intros p. simpl.
  destruct (decide (p = cwd w ++ [n])) as [->|Hne].
  - right. exists n, d. split; [done|]. apply lookup_insert_eq.
  - left. by apply lookup_insert_ne.
Qed.

Lemma writes_download_link link : within only_writes_in_cwd (download_link link).
Proof.
  intros w. unfold download_link.
  destruct (subscript link "href") as [e|href]; [reflexivity|].
  rewrite (bind_lift _ _ _ href) by done.
  unfold bind at 1. unfold print at 1, emit at 1.
  set (w1 := with_trace w _).
  assert (only_writes_in_cwd w w1) as H01 by (split; [done|by left]).
  etransitivity; [exact H01|]. clearbody w1. clear H01 w.
  destruct (py_split href slash) as [e|parts]; [reflexivity|].
  rewrite (bind_lift _ _ _ parts) by done.
  destruct (index_last parts) as [e|filepath]; [reflexivity|].
  rewrite (bind_lift _ _ _ filepath) by done.
  unfold open_wb. unfold bind at 1. unfold bind at 1. unfold get at 1.
  destruct (String.eqb filepath ""); [reflexivity|].
  destruct (String.eqb filepath "." || String.eqb filepath ".."); [reflexivity|].
  pose proof (write_in_cwd w1 filepath (PRaw "")) as Hw.
  unfold bind at 1.
  destruct (on_fs (Fs.write_file (cwd w1 ++ [filepath]) (PRaw "")) w1) as [[] w2|e w2|w2];
    simpl in Hw; [|exact Hw|exact Hw].
  unfold ret at 1. cbv beta iota.
  etransitivity; [exact Hw|]. destruct Hw as [Hc _]. rewrite <- Hc. clear Hc. clear w1.
  assert (within only_writes_in_cwd
            (match href with VStr url => urlopen url | _ => raise TypeError end)) as Hopen.
  { destruct href; try apply (within_raise only_writes_in_cwd).
    apply writes_keeps, keeps_urlopen. by intros ? ? ?. }
  specialize (Hopen w2). unfold bind.
  destruct ((match href with VStr url => urlopen url | _ => raise TypeError end) w2)
    as [r w3|e w3|w3]; simpl in Hopen; [|exact Hopen|exact Hopen].
  etransitivity; [exact Hopen|]. destruct Hopen as [Hc _]. rewrite <- Hc.
  apply write_in_cwd.
Qed.

Lemma place_silent : silent (fun w => (cwd w, fs w)).
Proof. by intros w n t. Qed.

Ltac writes_step :=
  first
    [ apply writes_download_link
    | apply writes_keeps, keeps_getdict
    | apply writes_keeps, keeps_setitem; by intros ? ?
    | apply writes_keeps, keeps_emit, place_silent
    | apply writes_keeps, keeps_urlopen, place_silent
    | apply writes_keeps, keeps_requests_send, place_silent
    | apply writes_keeps, keeps_harmony_poll, place_silent
    | within_step ].

(** X23.  Whatever the services answer and however the call ends,
    [request_harmony_data] leaves the working directory where it is and
    changes the file system in one way only: by writing files directly into
    the working directory.  Nothing is removed, no folder is made, and no
    path elsewhere is touched. *)
Theorem harmony_writes_only_in_cwd
    (py_str : pyval -> string) (fuel : nat) (sp : loc) (token : pyval) (w : world) :
  only_writes_in_cwd w (state_of (request_harmony_data py_str fuel sp token w)).
Proof.
  revert w.
  change (within only_writes_in_cwd (request_harmony_data py_str fuel sp token)).
  unfold request_harmony_data, harmony_job, harmony_fetch, getitem, print, pprint.
  repeat writes_step.
Qed.

(** ** The set-up functions *)

Section SetupProperties.
Context (py_text : payload -> string)
        (netrc_parse : payload -> exn + list (string * netrc_entry)).

Lemma http_ok (c : call) (s : desk) (r : response) :
  services s (sent s) c = Resp r ->
  http c s = Ok r (Desk (services s) (S (sent s)) (keyboard s) (prompted s)
                     (screen s ++ [Called c]) (disk s) (home s) (system_name s)
                     (installed s)).
Proof. intros Hr. unfold http. by rewrite Hr. Qed.

Lemma http_fail (c : call) (s : desk) (e : exn) :
  services s (sent s) c = Fail e ->
  http c s = Raise e (Desk (services s) (S (sent s)) (keyboard s) (prompted s)
                        (screen s ++ [Called c]) (disk s) (home s) (system_name s)
                        (installed s)).
Proof. intros Hr. unfold http. by rewrite Hr. Qed.

(** The function up to the answer to the token request. *)
Lemma setup_cmr_token_auth_asked endpoint s r1 r2 :
  services s (sent s) ip_request = Resp r1 ->
  services s (S (sent s)) (token_request py_text endpoint s r1) = Resp r2 ->
  setup_cmr_token_auth py_text endpoint s =
    (let! doc := lift (json_loads (content r2)) in
     let! token := lift (subscript doc "token") in
     lift (subscript token "id")) (token_asked py_text endpoint s r1).
Proof.
  intros Hr1 Hr2. unfold setup_cmr_token_auth.
  rewrite (bind_Ok _ _ _ _ _ (http_ok _ _ _ Hr1)). cbv zeta.
  unfold input, getpass.
  unfold bind at 1. unfold prompt_for at 1. cbn [keyboard prompted].
  unfold bind at 1. unfold prompt_for at 1. cbn [keyboard prompted].
  erewrite bind_Ok; [|apply http_ok; exact Hr2].
  unfold token_asked, token_request, ip_request, token_headers.
  cbn [services sent keyboard prompted screen disk home system_name installed].
  by rewrite <- !app_assoc.
Qed.

(** X24.  [setup_cmr_token_auth] returns the identifier of the token it is
    given.  It first asks the address service for the caller's address,
    then the user for name and password, in this order, and sends one
    request to the token service of the endpoint: an XML document with the
    name, the password, the client identifier and the address without the
    white space around it. *)
Theorem setup_cmr_token_auth_returns_token
    (endpoint : string) (s : desk) (r1 r2 : response) (doc token id : pyval) :
  services s (sent s) ip_request = Resp r1 ->
  services s (S (sent s)) (token_request py_text endpoint s r1) = Resp r2 ->
  content r2 = PJson doc ->
  subscript doc "token" = inr token ->
  subscript token "id" = inr id ->
  setup_cmr_token_auth py_text endpoint s = Ok id (token_asked py_text endpoint s r1).
Proof.
  intros Hr1 Hr2 Hc Htoken Hid.
  rewrite (setup_cmr_token_auth_asked endpoint s r1 r2 Hr1 Hr2).
  rewrite (bind_lift _ _ _ doc) by (by rewrite Hc).
  by rewrite (bind_lift _ _ _ _ Htoken), Hid.
Qed.

(** X25.  When the address service cannot be reached, the function raises
    at once: the user is not asked for anything and nothing goes to the
    token service. *)
Theorem setup_cmr_token_auth_no_address (endpoint : string) (s : desk) (e : exn) :
  services s (sent s) ip_request = Fail e ->
  setup_cmr_token_auth py_text endpoint s =
    Raise e (Desk (services s) (S (sent s)) (keyboard s) (prompted s)
               (screen s ++ [Called ip_request]) (disk s) (home s) (system_name s)
               (installed s)).
Proof.
  intros Hr. unfold setup_cmr_token_auth.
  by rewrite (bind_Raise _ _ _ _ _ (http_fail _ _ _ Hr)).
Qed.

(** X26.  The status of the token service's answer is not looked at.  An
    answer that is a JSON object without a [token] -- as for a wrong
    password -- makes the function raise [KeyError] for the key, after the
    name and the password have been sent. *)
Theorem setup_cmr_token_auth_no_token
    (endpoint : string) (s : desk) (r1 r2 : response) (kvs : list (string * pyval)) :
  services s (sent s) ip_request = Resp r1 ->
  services s (S (sent s)) (token_request py_text endpoint s r1) = Resp r2 ->
  content r2 = PJson (VDict kvs) ->
  assoc "token" kvs = None ->
  setup_cmr_token_auth py_text endpoint s =
    Raise (KeyError "token") (token_asked py_text endpoint s r1).
Proof.
  intros Hr1 Hr2 Hc Hnone.
  rewrite (setup_cmr_token_auth_asked endpoint s r1 r2 Hr1 Hr2).
  rewrite (bind_lift _ _ _ (VDict kvs)) by (by rewrite Hc).
  unfold bind, lift, subscript. by rewrite Hnone.
Qed.

Lemma read_disk_ok (s : desk) (p : path) (body : payload) :
  p <> [] -> disk s !! p = Some (NFile body) -> read_disk p s = Ok body s.
Proof. intros Hp Hf. unfold read_disk. by rewrite (read_file_ok _ _ _ Hp Hf). Qed.

Lemma read_disk_missing (s : desk) (p : path) :
  p <> [] -> disk s !! p = None -> read_disk p s = Raise (OSError ENOENT) s.
Proof. intros Hp Hf. unfold read_disk. by rewrite (read_file_missing _ _ Hp Hf). Qed.

Lemma netrc_path_not_root (s : desk) : netrc_path s <> [].
Proof. apply snoc_not_nil. Qed.

(** X27.  With an entry for the endpoint in the user's netrc file -- or, if
    there is none, an entry [default] -- [setup_earthdata_login_auth]
    installs an opener that has the login and the password of the entry for
    the endpoint, and an empty cookie jar.  It shows nothing, asks nothing
    and sends nothing; the opener that was installed before is replaced. *)
Theorem setup_earthdata_login_auth_from_netrc
    (endpoint : string) (s : desk) (login account password : string) :
  netrc_gives netrc_parse s endpoint (Some (login, account, password)) ->
  setup_earthdata_login_auth netrc_parse endpoint s =
    Ok tt (with_opener s (Opener [Credentials endpoint login password] [])).
Proof.
  intros (body & hosts & Hfile & Hparse & Hauth).
  unfold setup_earthdata_login_auth. unfold bind at 1. unfold get at 1. cbv zeta.
  fold (netrc_path s).
  match goal with |- bind ?m _ _ = _ =>
    assert (m s = Ok (login, password) s) as Htry end.
  { apply try_except_Ok.
    rewrite (bind_Ok _ _ _ _ _ (read_disk_ok s _ body (netrc_path_not_root s) Hfile)).
    rewrite (bind_lift _ _ _ _ Hparse). by rewrite Hauth. }
  by rewrite (bind_Ok _ _ _ _ _ Htry).
Qed.

(** X28.  Without a netrc file, or with one that has neither an entry for
    the endpoint nor an entry [default], the function says what it is about
    to ask for and to whom it will pass it, asks for the user name and then
    for the password, and installs an opener with what was typed. *)
Theorem setup_earthdata_login_auth_asks (endpoint : string) (s : desk) :
  disk s !! netrc_path s = None \/ netrc_gives netrc_parse s endpoint None ->
  setup_earthdata_login_auth netrc_parse endpoint s = Ok tt (login_asked s endpoint).
Proof.
  intros Hnone.
  unfold setup_earthdata_login_auth. unfold bind at 1. unfold get at 1. cbv zeta.
  fold (netrc_path s).
  match goal with |- bind (try_except ?m _ _) _ _ = _ =>
    assert (exists e, m s = Raise e s /\ is_missing_or_TypeError e = true)
      as (e & Hraise & Hcaught) end.
  { destruct Hnone as [Hfile|(body & hosts & Hfile & Hparse & Hauth)].
    - exists (OSError ENOENT). split; [|done].
      by rewrite (bind_Raise _ _ _ _ _ (read_disk_missing s _ (netrc_path_not_root s) Hfile)).
    - exists TypeError. split; [|done].
      rewrite (bind_Ok _ _ _ _ _ (read_disk_ok s _ body (netrc_path_not_root s) Hfile)).
      rewrite (bind_lift _ _ _ _ Hparse). by rewrite Hauth. }
  unfold bind at 1, try_except. rewrite Hraise, Hcaught.
  unfold login_asked, show, input, getpass, prompt_for, install_opener, bind, ret.
  cbn [services sent keyboard prompted screen disk home system_name installed fst snd].
  by rewrite <- !app_assoc.
Qed.

(** X29.  A netrc file that is there but cannot be read as one is not
    passed over: the error of reading it is raised to the caller, unless it
    is a [TypeError]; nothing is asked, and the installed opener stays as it
    is. *)
Theorem setup_earthdata_login_auth_unreadable
    (endpoint : string) (s : desk) (body : payload) (e : exn) :
  disk s !! netrc_path s = Some (NFile body) ->
  netrc_parse body = inl e ->
  is_missing_or_TypeError e = false ->
  setup_earthdata_login_auth netrc_parse endpoint s = Raise e s.
Proof.
  intros Hfile Hparse Hnot.
  unfold setup_earthdata_login_auth. unfold bind at 1. unfold get at 1. cbv zeta.
  fold (netrc_path s).
  match goal with |- bind (try_except ?m _ _) _ _ = _ =>
    assert (m s = Raise e s) as Hraise end.
  { rewrite (bind_Ok _ _ _ _ _ (read_disk_ok s _ body (netrc_path_not_root s) Hfile)).
    by rewrite Hparse. }
  unfold bind at 1, try_except. by rewrite Hraise, Hnot.
Qed.

End SetupProperties.

Lemma setup_cmr_token_auth_returns_token_witness :
  let s := desk_of (token_services token_doc) ∅ in
  let r1 := Response 200 [] (PRaw ("203.0.113.7" +:+ newline)) in
  setup_cmr_token_auth text_demo "cmr.earthdata.nasa.gov" s =
    Ok (VStr "TOKEN-1") (token_asked text_demo "cmr.earthdata.nasa.gov" s r1) /\
  token_request text_demo "cmr.earthdata.nasa.gov" s r1 =
    HttpPost "https://cmr.earthdata.nasa.gov/legacy-services/rest/tokens"
      ("<token><username>alice</username><password>secret</password>"
         +:+ "<client_id>PODAAC CMR Client</client_id>"
         +:+ "<user_ip_address>203.0.113.7</user_ip_address></token>")
      token_headers.
Proof.
  intros s r1. split; [|reflexivity].
  apply (setup_cmr_token_auth_returns_token text_demo "cmr.earthdata.nasa.gov" s r1
           (Response 200 [] (PJson token_doc)) token_doc
           (VDict [("id", VStr "TOKEN-1")]) (VStr "TOKEN-1")); reflexivity.
Defined.

Lemma setup_cmr_token_auth_no_address_witness :
  let s := desk_of (fun _ _ => Fail TransportError) ∅ in
  setup_cmr_token_auth text_demo "cmr.earthdata.nasa.gov" s =
    Raise TransportError
      (Desk (services s) (S (sent s)) (keyboard s) (prompted s)
         (screen s ++ [Called ip_request]) (disk s) (home s) (system_name s) (installed s)).
Proof.
  intros s.
  apply (setup_cmr_token_auth_no_address text_demo "cmr.earthdata.nasa.gov" s TransportError).
  reflexivity.
Defined.

Lemma setup_cmr_token_auth_no_token_witness :
  let s := desk_of (token_services denied_doc) ∅ in
  let r1 := Response 200 [] (PRaw ("203.0.113.7" +:+ newline)) in
  setup_cmr_token_auth text_demo "cmr.earthdata.nasa.gov" s =
    Raise (KeyError "token") (token_asked text_demo "cmr.earthdata.nasa.gov" s r1).
Proof.
  intros s r1.
  apply (setup_cmr_token_auth_no_token text_demo "cmr.earthdata.nasa.gov" s r1
           (Response 200 [] (PJson denied_doc))
           [("errors", VList [VStr "Invalid username or password"])]); reflexivity.
Defined.

Lemma setup_earthdata_login_auth_from_netrc_witness :
  let s := desk_of (fun _ _ => Fail TransportError) (netrc_disk "urs") in
  setup_earthdata_login_auth netrc_demo "urs.earthdata.nasa.gov" s =
    Ok tt (with_opener s (Opener [Credentials "urs.earthdata.nasa.gov" "bob" "hunter2"] [])).
Proof.
  intros s.
  apply (setup_earthdata_login_auth_from_netrc netrc_demo "urs.earthdata.nasa.gov" s
           "bob" "" "hunter2").
  exists (PRaw "urs"), [("urs.earthdata.nasa.gov", ("bob", "", "hunter2"))].
  split; [by vm_compute|]. split; reflexivity.
Defined.

Lemma setup_earthdata_login_auth_asks_witness :
  let s := desk_of (fun _ _ => Fail TransportError) (netrc_disk "other") in
  setup_earthdata_login_auth netrc_demo "urs.earthdata.nasa.gov" s =
    Ok tt (login_asked s "urs.earthdata.nasa.gov").
Proof.
  intros s.
  apply (setup_earthdata_login_auth_asks netrc_demo "urs.earthdata.nasa.gov" s).
  right. exists (PRaw "other"), [("example.org", ("carol", "", "pw"))].
  split; [by vm_compute|]. split; reflexivity.
Defined.

Lemma setup_earthdata_login_auth_unreadable_witness :
  let s := desk_of (fun _ _ => Fail TransportError) (netrc_disk "machine") in
  setup_earthdata_login_auth netrc_demo "urs.earthdata.nasa.gov" s = Raise ParseError s.
Proof.
  intros s.
  apply (setup_earthdata_login_auth_unreadable netrc_demo "urs.earthdata.nasa.gov" s
           (PRaw "machine") ParseError).
  - by vm_compute.
  - reflexivity.
  - reflexivity.
Defined.
